(** * Lead-to-location routing: a shallow embedding

    The development embeds the two routing implementations of the
    repository,

    - [RouterTest]: the GHL custom code action (routerTest.js, the script
      that follows the executive summary), and
    - [ProductionRouter]: the [ProductionLeadRouter] class of
      production-router.js,

    together with the haversine formula they share, and proves the
    properties of scoring, radius filtering, selection and fallback.

    Modelling conventions.

    - In the routers a JavaScript number is a [JS.number]: an exact
      rational or [NaN].  Distances are only compared there, so their
      binary64 rounding is immaterial.  Scores are computed exactly; on
      the integer signals of the data model (zero and above) the exact
      score and the binary64 score round to the same integer, the
      multipliers 1.1, 1.3 and 0.9 being rounded upwards in binary64 and
      1.2 never producing a half.  For a signal below zero the binary64
      score can be the exact one less 1 (-25 at multiplier 1.1: -28, not
      -27) and, for a signal of huge magnitude, minus infinity; what is
      proved of all scores holds of signals of zero and above, and below
      zero only the examples that are computed are relied on.
    - The haversine formula is read over IEEE 754 binary64 ([B64], on the
      [spec_float] of the standard library) as well as over the reals:
      the doubles round, carry the sign of zero, and have a [NaN].
    - An optional property of an object is an [option]; [None] is
      [undefined].
    - The outside world (geocoding service, capacity store, wall clock,
      Math library) is a record of oracles, [World]; what a call does to the
      outside is recorded in a trace of [Effect]s, and what it does to the
      caller's lead object is recorded in the state it returns.
    - [Array.prototype.sort] is stable (ECMAScript 2019); for a consistent
      comparator its result is the one computed by [JS.Array_sort]. *)

From Stdlib Require Import ZArith QArith Qround Lia Lra Lqa List String Ascii.
From Stdlib Require Import Sorted Permutation Reals.
From Stdlib Require Import SpecFloat.
From stdpp Require Import gmap strings.
Import ListNotations.

Open Scope string_scope.
Open Scope list_scope.
Open Scope Z_scope.

(** ** JavaScript values *)

Module JS.

Inductive number : Type :=
| Num (q : Q)
| NaN.

Definition of_Z (z : Z) : number := Num (inject_Z z).

Definition add (a b : number) : number :=
  match a, b with
  | Num x, Num y => Num (x + y)
  | _, _ => NaN
  end.

Definition sub (a b : number) : number :=
  match a, b with
  | Num x, Num y => Num (x - y)
  | _, _ => NaN
  end.

Definition mul (a b : number) : number :=
  match a, b with
  | Num x, Num y => Num (x * y)
  | _, _ => NaN
  end.

(** [a <= b], [a >= b], [a > b], [a < b]: false as soon as one side is
    [NaN]. *)
Definition le (a b : number) : bool :=
  match a, b with
  | Num x, Num y => Qle_bool x y
  | _, _ => false
  end.

Definition ge (a b : number) : bool := le b a.

Definition lt (a b : number) : bool :=
  match a, b with
  | Num x, Num y => negb (Qle_bool y x)
  | _, _ => false
  end.

Definition gt (a b : number) : bool := lt b a.

(** [Math.round]: the nearest integer, halves towards plus infinity. *)
Definition Math_round (a : number) : number :=
  match a with
  | Num x => of_Z (Qfloor (x + (1 # 2)))
  | NaN => NaN
  end.

Definition Math_min (a b : number) : number :=
  match a, b with
  | Num x, Num y => if Qle_bool x y then a else b
  | _, _ => NaN
  end.

(** Truthiness of an optional string property: [undefined] and the empty
    string are falsy. *)
Definition truthy (s : option string) : bool :=
  match s with
  | Some EmptyString => false
  | Some _ => true
  | None => false
  end.

(** [Array.prototype.sort(compareFn)]: [compareFn a b > 0] puts [b]
    first, anything else (negative, zero, [NaN]) leaves [a] before [b]. *)
Section Sort.
Context {A : Type} (compareFn : A -> A -> number).

Fixpoint insert (x : A) (l : list A) : list A :=
  match l with
  | [] => [x]
  | y :: l' =>
      if gt (compareFn x y) (of_Z 0) then y :: insert x l' else x :: l
  end.

Fixpoint Array_sort (l : list A) : list A :=
  match l with
  | [] => []
  | x :: l' => insert x (Array_sort l')
  end.
End Sort.

(** [/^\d{5}$/.test(s)]: exactly five characters, each an ASCII digit. *)
Definition is_digit (c : ascii) : bool :=
  let n := nat_of_ascii c in ((48 <=? n)%nat && (n <=? 57)%nat)%bool.

Definition five_digits (s : string) : bool :=
  ((String.length s =? 5)%nat && forallb is_digit (list_ascii_of_string s))%bool.

(** The property names every object literal inherits from
    [Object.prototype]: looking one of them up in a table written as an
    object literal yields a function or an object, not [undefined]. *)
Definition Object_prototype_keys : list string :=
  [ "constructor"; "hasOwnProperty"; "isPrototypeOf";
    "propertyIsEnumerable"; "toLocaleString"; "toString"; "valueOf";
    "__proto__"; "__defineGetter__"; "__defineSetter__";
    "__lookupGetter__"; "__lookupSetter__" ].

Definition inherited (key : string) : bool :=
  existsb (String.eqb key) Object_prototype_keys.

End JS.

(** ** IEEE 754 doubles

    The numbers of JavaScript: binary64, 53 bits of precision, every
    operation rounded to nearest, ties to even.  [Math.sqrt] is correctly
    rounded; [Math.sin], [Math.cos] and [Math.atan2] are what the
    platform's library returns, a [Platform]. *)

Module B64.
Definition prec : Z := 53.
Definition emax : Z := 1024.

(** An integer literal. *)
Definition of_Z (z : Z) : spec_float := binary_normalize prec emax z 0 false.

Definition opp : spec_float -> spec_float := SFopp.
Definition abs : spec_float -> spec_float := SFabs.
Definition add : spec_float -> spec_float -> spec_float := SFadd prec emax.
Definition sub : spec_float -> spec_float -> spec_float := SFsub prec emax.
Definition mul : spec_float -> spec_float -> spec_float := SFmul prec emax.
Definition div : spec_float -> spec_float -> spec_float := SFdiv prec emax.
Definition sqrt : spec_float -> spec_float := SFsqrt prec emax.

(** [a == b] and [a <= b] on numbers: false as soon as one side is
    [NaN]; the two zeros are equal. *)
Definition eqb : spec_float -> spec_float -> bool := SFeqb.
Definition leb : spec_float -> spec_float -> bool := SFleb.

(** [Number.isFinite]. *)
Definition is_finite (a : spec_float) : bool :=
  match a with
  | S754_zero _ | S754_finite _ _ _ => true
  | _ => false
  end.

(** [Math.PI], 3.141592653589793. *)
Definition Math_PI : spec_float := S754_finite false 7074237752028440 (-51).

Record Platform : Type := {
  sin : spec_float -> spec_float;
  cos : spec_float -> spec_float;
  atan2 : spec_float -> spec_float -> spec_float
}.
End B64.

(** ** The haversine formula

    [haversineDistance] (production-router.js) and
    [calculateHaversineDistance] (routerTest.js) are the same text.  The
    formula is embedded over an abstract arithmetic [Arith], so that it can
    be read both over the reals and over IEEE 754 doubles. *)

Module Haversine.

Class Arith (N : Type) : Type := {
  lit : Z -> N;
  Math_PI : N;
  neg : N -> N;
  add : N -> N -> N;
  sub : N -> N -> N;
  mul : N -> N -> N;
  div : N -> N -> N;
  Math_sin : N -> N;
  Math_cos : N -> N;
  Math_sqrt : N -> N;
  Math_atan2 : N -> N -> N
}.

Record coords (N : Type) : Type := { lat : N; lng : N }.
Arguments lat {N} _.
Arguments lng {N} _.

Section Formula.
Context {N : Type} `{Arith N}.

Definition haversineDistance (coords1 coords2 : coords N) : N :=
  let R := lit 3959 in
  let dLat := div (mul (sub (lat coords2) (lat coords1)) Math_PI) (lit 180) in
  let dLng := div (mul (sub (lng coords2) (lng coords1)) Math_PI) (lit 180) in
  let a :=
    add (mul (Math_sin (div dLat (lit 2))) (Math_sin (div dLat (lit 2))))
        (mul (mul (mul (Math_cos (div (mul (lat coords1) Math_PI) (lit 180)))
                       (Math_cos (div (mul (lat coords2) Math_PI) (lit 180))))
                  (Math_sin (div dLng (lit 2))))
             (Math_sin (div dLng (lit 2)))) in
  mul (mul R (lit 2)) (Math_atan2 (Math_sqrt a) (Math_sqrt (sub (lit 1) a))).
End Formula.

(** The sign laws the symmetry of the formula rests on.  They hold of the
    reals, and of IEEE 754 doubles with a sine that is odd: there
    [a - b] and [b - a] are opposite, or the same ([+0] when [a = b],
    [NaN]). *)
Class SignLaws (N : Type) `{Arith N} : Prop := {
  sub_swap : forall a b, sub a b = neg (sub b a) \/ sub a b = sub b a;
  mul_opp_l : forall a b, mul (neg a) b = neg (mul a b);
  div_opp_l : forall a b, div (neg a) b = neg (div a b);
  mul_opp_opp : forall a b, mul (neg a) (neg b) = mul a b;
  mul_sym : forall a b, mul a b = mul b a;
  sin_odd : forall a, Math_sin (neg a) = neg (Math_sin a)
}.

(** The arithmetic of the code: doubles, on a platform. *)
#[global] Instance B64_Arith (p : B64.Platform) : Arith spec_float := {|
  lit := B64.of_Z;
  Math_PI := B64.Math_PI;
  neg := B64.opp;
  add := B64.add;
  sub := B64.sub;
  mul := B64.mul;
  div := B64.div;
  Math_sin := B64.sin p;
  Math_cos := B64.cos p;
  Math_sqrt := B64.sqrt;
  Math_atan2 := B64.atan2 p
|}.

(** The arithmetic of the reals, which the doubles approximate: no
    rounding, no [NaN]. *)
Definition R_atan2 (y x : R) : R :=
  if Rlt_dec 0 x then atan (y / x)
  else if Rlt_dec x 0 then
    if Rle_dec 0 y then atan (y / x) + PI else atan (y / x) - PI
  else if Rlt_dec 0 y then PI / 2
  else if Rlt_dec y 0 then - (PI / 2)
  else 0.

#[global] Instance R_Arith : Arith R := {|
  lit := IZR;
  Math_PI := PI;
  neg := Ropp;
  add := Rplus;
  sub := Rminus;
  mul := Rmult;
  div := Rdiv;
  Math_sin := sin;
  Math_cos := cos;
  Math_sqrt := sqrt;
  Math_atan2 := R_atan2
|}.

End Haversine.

(** ** Data model *)

Abbreviation Coordinates := (Haversine.coords JS.number).

Module Lead.
(** A lead as the intake supplies it; [finalScore] is the property the
    routing call adds. *)
Record t : Type := {
  id : option string;
  zip : option string;
  leadScore : option Z;
  source : option string;
  phone : option string;
  email : option string;
  firstName : option string;
  finalScore : option JS.number
}.

Definition set_finalScore (score : JS.number) (lead : t) : t :=
  {| id := id lead; zip := zip lead; leadScore := leadScore lead;
     source := source lead; phone := phone lead; email := email lead;
     firstName := firstName lead; finalScore := Some score |}.
End Lead.

Module Location.
Record t : Type := {
  id : string;
  name : string;
  zipCode : string;
  priority : string;
  status : string;
  dailyLeadCount : option Z;
  businessHours : option (Z * Z)
}.
End Location.

Module Capacity.
Record t : Type := {
  hasCapacity : bool;
  availableSlots : Z;
  isOperational : bool;
  businessHours : option (Z * Z)
}.
End Capacity.

(** [{ ...location, distance }] *)
Record Located : Type := {
  location : Location.t;
  distance : JS.number
}.

Record Config : Type := {
  ZIP_RADIUS_MILES : Z;
  HIGH_SCORE_THRESHOLD : Z;
  MAX_DAILY_LEADS_PER_LOCATION : Z;
  FALLBACK_ENABLED : bool;
  WEBHOOK_URL : string;
  JSONBIN_API_KEY : string
}.

(** [CONFIG] and [PRODUCTION_CONFIG] with no environment variable set. *)
Definition CONFIG : Config := {|
  ZIP_RADIUS_MILES := 25;
  HIGH_SCORE_THRESHOLD := 80;
  MAX_DAILY_LEADS_PER_LOCATION := 50;
  FALLBACK_ENABLED := true;
  WEBHOOK_URL := "";
  JSONBIN_API_KEY := ""
|}.

(** ** The outside world

    Replies of the external services are oracles.  The natural number is
    the number of effects the call has performed before the request, so
    that a service may answer differently from one request to the next. *)

Record World : Type := {
  (** [Date.now()], in milliseconds, and the offset of local time. *)
  Date_now : Z;
  timezone_offset : Z;
  (** What [getZipCoordinates] resolves to: the first place of the
      Zippopotam answer, or [null] on any failure. *)
  zippopotam : nat -> string -> option Coordinates;
  (** The value of the haversine formula on the platform's doubles. *)
  haversine : Coordinates -> Coordinates -> JS.number;
  (** The record of the JSONBin capacity bin of a location, [None] when the
      request fails; and whether a write of the bin succeeds. *)
  jsonbin_capacity : nat -> string -> option Capacity.t;
  jsonbin_put : nat -> string -> bool;
  (** What [getSimulatedCapacity] draws from [Math.random]: the record
      its call returns, by the number of calls made before it. *)
  simulated_capacity : nat -> Capacity.t
}.

(** [new Date().getHours()] *)
Definition getHours (w : World) : Z :=
  ((Date_now w + timezone_offset w) / 3600000) mod 24.

(** What a routing call can do that its caller or the outside can
    observe: a request to the geocoding service, a read or a write of the
    capacity bin of a location, the assignment to [lead.finalScore], and
    the delivery of a log record. *)
Inductive Effect : Type :=
| Fetch_zip (zipCode : string)
| Fetch_capacity (locationId : string)
| Put_capacity (locationId : string)
| Write_finalScore (score : JS.number)
| Log (reason : string) (selectedLocationId : option string).

(** ** A state monad for the asynchronous functions *)

Section Monad.
Context {S : Type}.

Definition M (A : Type) : Type := S -> A * S.

Definition ret {A : Type} (a : A) : M A := fun s => (a, s).

Definition bind {A B : Type} (m : M A) (k : A -> M B) : M B :=
  fun s => let (a, s') := m s in k a s'.

Definition get : M S := fun s => (s, s).

Definition modify (f : S -> S) : M unit := fun s => (tt, f s).

(** [Promise.all(list.map(async ...))]: the callbacks start in list
    order and their results are gathered in list order. *)
Fixpoint mapM {A B : Type} (f : A -> M B) (l : list A) : M (list B) :=
  match l with
  | [] => ret []
  | x :: l' => bind (f x) (fun y => bind (mapM f l') (fun ys => ret (y :: ys)))
  end.
End Monad.

Arguments M : clear implicits.

Notation "'let*' x ':=' m 'in' k" := (bind m (fun x => k))
  (at level 10, x binder, m at level 100, k at level 200).

(** ** Lead scoring, common to both implementations *)

Module Scoring.

(** What reading a property of the multiplier table yields. *)
Inductive property : Type :=
| Own (multiplier : Q)
| Inherited
| Missing.

Definition sourceMultipliers : list (string * Q) :=
  [ ("facebook", 12 # 10); ("google", 11 # 10); ("website", 1 # 1);
    ("referral", 13 # 10); ("walk-in", 9 # 10) ]%Q.

(** [sourceMultipliers[lead.source]]; an absent source reads the
    property named "undefined". *)
Definition lookup_source (source : option string) : property :=
  let key := match source with Some s => s | None => "undefined" end in
  match List.find (fun kv => String.eqb (fst kv) key) sourceMultipliers with
  | Some kv => Own (snd kv)
  | None => if JS.inherited key then Inherited else Missing
  end.

(** [sourceMultipliers[lead.source] || 1.0], as the factor of [score *=]:
    an inherited property is a function or an object, truthy, and
    multiplying by it gives [NaN]. *)
Definition multiplier (source : option string) : JS.number :=
  match lookup_source source with
  | Own m => JS.Num m
  | Inherited => JS.NaN
  | Missing => JS.Num 1
  end.

(** [lead.leadScore || dflt]: an absent signal and the signal [0] are
    both falsy. *)
Definition or_default (leadScore : option Z) (dflt : Z) : JS.number :=
  match leadScore with
  | Some 0 => JS.of_Z dflt
  | Some n => JS.of_Z n
  | None => JS.of_Z dflt
  end.

Definition complete_profile (lead : Lead.t) : bool :=
  (JS.truthy (Lead.phone lead) && JS.truthy (Lead.email lead)
   && JS.truthy (Lead.firstName lead))%bool.

Definition business_hours (hour : Z) : bool :=
  ((9 <=? hour) && (hour <=? 17))%bool.

Definition score_with_default (dflt : Z) (w : World) (lead : Lead.t) : JS.number :=
  let score := or_default (Lead.leadScore lead) dflt in
  let score := JS.mul score (multiplier (Lead.source lead)) in
  let score := if complete_profile lead then JS.add score (JS.of_Z 10) else score in
  let hour := getHours w in
  let score := if business_hours hour then JS.add score (JS.of_Z 5) else score in
  JS.Math_min (JS.of_Z 100) (JS.Math_round score).

End Scoring.

(** [{ ...location, capacity }], the location carrying its distance. *)
Record Candidate : Type := {
  located : Located;
  capacity : Capacity.t
}.

Definition candidate_id (c : Candidate) : string :=
  Location.id (location (located c)).
Definition candidate_priority (c : Candidate) : string :=
  Location.priority (location (located c)).
Definition candidate_distance (c : Candidate) : JS.number :=
  distance (located c).

(** [lead.finalScore >= threshold]; [undefined >= n] and [NaN >= n] are
    false. *)
Definition finalScore_ge (lead : Lead.t) (threshold : Z) : bool :=
  match Lead.finalScore lead with
  | Some score => JS.ge score (JS.of_Z threshold)
  | None => false
  end.

(** ** routerTest.js: the custom code action *)

Module RouterTest.

(** The caller's lead object and the effects performed so far. *)
Record State : Type := {
  lead : Lead.t;
  trace : list Effect
}.

Definition emit (e : Effect) : M State unit :=
  modify (fun s => {| lead := lead s; trace := trace s ++ [e] |}).

(** [lead.finalScore = score] *)
Definition assign_finalScore (score : JS.number) : M State unit :=
  modify (fun s => {| lead := Lead.set_finalScore score (lead s);
                      trace := trace s ++ [Write_finalScore score] |}).

Inductive Outcome : Type :=
| Failed (code error : string) (suggestedAction : option string)
    (lead : option Lead.t)
| Waitlisted (location : Candidate) (reason : string)
    (isHighPriority : bool) (lead : Lead.t)
| Routed (location : Candidate) (reason : string)
    (isHighPriority : bool) (estimatedDistance : JS.number)
    (expectedResponseTime : string) (lead : Lead.t).

(** [result.location] of a routed result, of a waitlisted result, and
    [result.code] of a failure. *)
Definition routed_location (result : Outcome) : option Candidate :=
  match result with
  | Routed loc _ _ _ _ _ => Some loc
  | _ => None
  end.

Definition waitlist_location (result : Outcome) : option Candidate :=
  match result with
  | Waitlisted loc _ _ _ => Some loc
  | _ => None
  end.

Definition failure_code (result : Outcome) : option string :=
  match result with
  | Failed code _ _ _ => Some code
  | _ => None
  end.

Section Router.
Context (CONFIG : Config) (w : World).

Definition getZipCoordinates (zipCode : string)
  : M State (option Coordinates) :=
  let* s := get in
  let* _ := emit (Fetch_zip zipCode) in
  ret (zippopotam w (List.length (trace s)) zipCode).

Definition calculateDistanceReal (zip1 zip2 : string) : M State JS.number :=
  let* coords1 := getZipCoordinates zip1 in
  let* coords2 := getZipCoordinates zip2 in
  ret (match coords1, coords2 with
       | Some c1, Some c2 => haversine w c1 c2
       | _, _ => JS.of_Z 999 (* Unknown distance *)
       end).

(** [calculateDistanceReal] catches every failure, so the handlers of
    [getNearestLocations] (the mock table and the unfiltered answer)
    are never entered. *)
Definition withDistance (leadZip : string) (loc : Location.t)
  : M State Located :=
  let* d := calculateDistanceReal leadZip (Location.zipCode loc) in
  ret {| location := loc; distance := d |}.

Definition in_radius (loc : Located) : bool :=
  JS.le (distance loc) (JS.of_Z (ZIP_RADIUS_MILES CONFIG)).

Definition by_distance (a b : Located) : JS.number :=
  JS.sub (distance a) (distance b).

Definition getNearestLocations (leadZip : string)
  (locations : list Location.t) : M State (list Located) :=
  let* locationsWithDistance := mapM (withDistance leadZip) locations in
  ret (JS.Array_sort by_distance
         (List.filter in_radius locationsWithDistance)).

Definition calculateLeadScore (lead : Lead.t) : JS.number :=
  Scoring.score_with_default 0 w lead.

Definition getLocationCapacityFromAPI (locationId : string)
  : M State (option Capacity.t) :=
  let* s := get in
  let* _ := emit (Fetch_capacity locationId) in
  ret (jsonbin_capacity w (List.length (trace s)) locationId).

Definition simulatedCapacity (loc : Location.t) : Capacity.t :=
  let currentLeads :=
    match Location.dailyLeadCount loc with Some n => n | None => 0 end in
  {| Capacity.hasCapacity :=
       currentLeads <? MAX_DAILY_LEADS_PER_LOCATION CONFIG;
     Capacity.availableSlots :=
       MAX_DAILY_LEADS_PER_LOCATION CONFIG - currentLeads;
     Capacity.isOperational := String.eqb (Location.status loc) "active";
     Capacity.businessHours :=
       match Location.businessHours loc with
       | Some h => Some h
       | None => Some (6, 22)
       end |}.

Definition checkLocationCapacity (loc : Located) : M State Capacity.t :=
  let* capacityData :=
    if String.eqb (JSONBIN_API_KEY CONFIG) "" then ret None
    else getLocationCapacityFromAPI (Location.id (location loc)) in
  match capacityData with
  | Some data => ret data
  | None => ret (simulatedCapacity (location loc))
  end.

Definition withCapacity (loc : Located) : M State Candidate :=
  let* c := checkLocationCapacity loc in
  ret {| located := loc; capacity := c |}.

(** [updateLocationCapacity]: the one function that writes a capacity
    bin.  Nothing in routerTest.js calls it. *)
Definition updateLocationCapacity (locationId : string)
  (capacityData : Capacity.t) : M State bool :=
  if String.eqb (JSONBIN_API_KEY CONFIG) "" then ret false
  else
    let* s := get in
    let* _ := emit (Put_capacity locationId) in
    ret (jsonbin_put w (List.length (trace s)) locationId).

Definition logRoutingDecision (selectedLocation : option Candidate)
  (reason : string) : M State unit :=
  emit (Log reason (option_map candidate_id selectedLocation)).

Definition is_available (loc : Candidate) : bool :=
  (Capacity.hasCapacity (capacity loc)
   && Capacity.isOperational (capacity loc))%bool.

Definition is_operational (loc : Candidate) : bool :=
  Capacity.isOperational (capacity loc).

Definition by_slots_desc (a b : Candidate) : JS.number :=
  JS.of_Z (Capacity.availableSlots (capacity b)
           - Capacity.availableSlots (capacity a)).

(** [.filter(isOperational).sort(by slots, descending)[0]] *)
Definition fallbackLocation (locationsWithCapacity : list Candidate)
  : option Candidate :=
  List.hd_error (JS.Array_sort by_slots_desc
                   (List.filter is_operational locationsWithCapacity)).

Definition is_low_traffic (loc : Candidate) : bool :=
  String.eqb (candidate_priority loc) "low-traffic".

Definition noCapacity : M State Outcome :=
  let* _ := logRoutingDecision None "NO_CAPACITY_ANYWHERE" in
  let* s := get in
  ret (Failed "NO_CAPACITY" "No capacity available at any location"
         (Some "Add to waitlist and notify management") (Some (lead s))).

Definition routed (selectedLocation : Candidate) (routingReason : string)
  : M State Outcome :=
  let* _ := logRoutingDecision (Some selectedLocation) routingReason in
  let* s := get in
  ret (Routed selectedLocation routingReason
         (finalScore_ge (lead s) (HIGH_SCORE_THRESHOLD CONFIG))
         (candidate_distance selectedLocation)
         (if 10 <? Capacity.availableSlots (capacity selectedLocation)
          then "15 minutes" else "30 minutes")
         (lead s)).

Definition routeLead (locations : list Location.t) : M State Outcome :=
  let* s := get in
  match Lead.zip (lead s) with
  | None | Some EmptyString =>
      ret (Failed "INVALID_ZIP" "Invalid zip code" None None)
  | Some leadZip =>
  match locations with
  | [] => ret (Failed "NO_LOCATIONS" "No locations available" None None)
  | _ :: _ =>
  let* _ := assign_finalScore (calculateLeadScore (lead s)) in
  let* nearestLocations := getNearestLocations leadZip locations in
  match nearestLocations with
  | [] =>
      let* _ := logRoutingDecision None "NO_NEARBY_LOCATIONS" in
      let* s := get in
      ret (Failed "OUT_OF_RANGE" "No locations within service area"
             (Some "Collect lead for future expansion") (Some (lead s)))
  | _ :: _ =>
  let* locationsWithCapacity := mapM withCapacity nearestLocations in
  let availableLocations :=
    List.filter is_available locationsWithCapacity in
  match availableLocations with
  | [] =>
      match
        (if FALLBACK_ENABLED CONFIG
         then fallbackLocation locationsWithCapacity else None)
      with
      | Some fallback =>
          let* _ := logRoutingDecision (Some fallback)
                      "FALLBACK_NO_CAPACITY" in
          let* s := get in
          ret (Waitlisted fallback
                 "No capacity at nearest locations, routed to best available"
                 (finalScore_ge (lead s) (HIGH_SCORE_THRESHOLD CONFIG))
                 (lead s))
      | None => noCapacity
      end
  | closest :: _ =>
      let* s := get in
      if finalScore_ge (lead s) (HIGH_SCORE_THRESHOLD CONFIG) then
        routed closest
          "High-value lead routed to closest available location"
      else
        match List.find is_low_traffic availableLocations with
        | Some lowTrafficLocation =>
            routed lowTrafficLocation
              "Standard lead routed to low-traffic location"
        | None =>
            routed closest
              "Standard lead routed to closest available location"
        end
  end end end end.

(** The intermediate values of [routeLead], named for the statements:
    the state once the score is assigned, and the in-range locations
    with their capacity, in the order selection sees them. *)
Definition scored (s : State) : State :=
  snd (assign_finalScore (calculateLeadScore (lead s)) s).

Definition gatherCandidates (leadZip : string)
  (locations : list Location.t) : M State (list Candidate) :=
  let* nearestLocations := getNearestLocations leadZip locations in
  mapM withCapacity nearestLocations.

Definition inRangeCandidates (locations : list Location.t) (s : State)
  : list Candidate :=
  match Lead.zip (lead s) with
  | None | Some EmptyString => []
  | Some leadZip => fst (gatherCandidates leadZip locations (scored s))
  end.

(** The loop of [runComprehensiveTests]: one call after the other, each
    with its own lead object, all on the same list of locations. *)
Fixpoint routeEach (locations : list Location.t) (leads : list Lead.t)
  (history : list Effect) : list Outcome :=
  match leads with
  | [] => []
  | l :: rest =>
      let result := routeLead locations {| lead := l; trace := history |} in
      fst result :: routeEach locations rest (trace (snd result))
  end.

End Router.
End RouterTest.

(** ** production-router.js: the [ProductionLeadRouter] class *)

Module ProductionRouter.

Record Metrics : Type := {
  apiCalls : nat;
  cacheHits : nat;
  errors : nat;
  successfulRoutes : nat
}.

(** The caller's lead object, the fields of the router object
    ([this.cache], [this.metrics]), the effects performed so far and the
    number of calls of [getSimulatedCapacity] made so far, each of which
    draws afresh from [Math.random].  The timers that delete a cache
    entry after [CACHE_TTL] fire long after the call and are not part of
    it. *)
Record State : Type := {
  lead : Lead.t;
  cache : gmap string JS.number;
  metrics : Metrics;
  trace : list Effect;
  draws : nat
}.

Definition emit (e : Effect) : M State unit :=
  modify (fun s => {| lead := lead s; cache := cache s;
                      metrics := metrics s; trace := trace s ++ [e];
                      draws := draws s |}).

(** [lead.finalScore = score] *)
Definition assign_finalScore (score : JS.number) : M State unit :=
  modify (fun s => {| lead := Lead.set_finalScore score (lead s);
                      cache := cache s; metrics := metrics s;
                      trace := trace s ++ [Write_finalScore score];
                      draws := draws s |}).

Definition cache_set (key : string) (value : JS.number) : M State unit :=
  modify (fun s => {| lead := lead s; cache := <[key := value]> (cache s);
                      metrics := metrics s; trace := trace s;
                      draws := draws s |}).

Definition set_metrics (f : Metrics -> Metrics) : M State unit :=
  modify (fun s => {| lead := lead s; cache := cache s;
                      metrics := f (metrics s); trace := trace s;
                      draws := draws s |}).

Definition count_apiCall (m : Metrics) : Metrics :=
  {| apiCalls := S (apiCalls m); cacheHits := cacheHits m;
     errors := errors m; successfulRoutes := successfulRoutes m |}.

Definition count_cacheHit (m : Metrics) : Metrics :=
  {| apiCalls := apiCalls m; cacheHits := S (cacheHits m);
     errors := errors m; successfulRoutes := successfulRoutes m |}.

Definition count_successfulRoute (m : Metrics) : Metrics :=
  {| apiCalls := apiCalls m; cacheHits := cacheHits m;
     errors := errors m; successfulRoutes := S (successfulRoutes m) |}.

(** The result object; [routingTime] and [timestamp] are readings of the
    clock that nothing depends on and are left out.  Every callee catches
    its own failures, so the handler of [routeLead] that answers
    SYSTEM_ERROR is entered for no well-formed lead and location list. *)
Inductive Outcome : Type :=
| Failure (code error : string)
| Success (location : Candidate) (estimatedDistance : JS.number)
    (reason : string) (isHighPriority : bool) (confidence : JS.number).

(** [result.location] of a success and [result.code] of a failure. *)
Definition routed_location (result : Outcome) : option Candidate :=
  match result with
  | Success loc _ _ _ _ => Some loc
  | Failure _ _ => None
  end.

Definition failure_code (result : Outcome) : option string :=
  match result with
  | Failure code _ => Some code
  | Success _ _ _ _ _ => None
  end.

Section Router.
Context (config : Config) (w : World).

(** [lead.id && lead.zip && /^\d{5}$/.test(lead.zip)] *)
Definition validateLead (lead : Lead.t) : bool :=
  (JS.truthy (Lead.id lead) && JS.truthy (Lead.zip lead)
   && match Lead.zip lead with
      | Some z => JS.five_digits z
      | None => false
      end)%bool.

Definition calculateLeadScore (lead : Lead.t) : JS.number :=
  Scoring.score_with_default 50 w lead.

Definition getZipCoordinates (zipCode : string)
  : M State (option Coordinates) :=
  let* s := get in
  let* _ := emit (Fetch_zip zipCode) in
  ret (zippopotam w (List.length (trace s)) zipCode).

Definition calculateRealDistance (zip1 zip2 : string) : M State JS.number :=
  let* coords1 := getZipCoordinates zip1 in
  let* coords2 := getZipCoordinates zip2 in
  ret (match coords1, coords2 with
       | Some c1, Some c2 => haversine w c1 c2
       | _, _ => JS.of_Z 999 (* Unknown distance *)
       end).

Definition cacheKey (leadZip : string) (loc : Location.t) : string :=
  ("distance_" ++ leadZip ++ "_" ++ Location.zipCode loc)%string.

(** One callback of [locations.map].  Every callback tests the cache
    before the first of them resumes from an [await], so the test is
    against [cache0], the cache as the call found it. *)
Definition withDistance (cache0 : gmap string JS.number)
  (leadZip : string) (loc : Location.t) : M State Located :=
  match cache0 !! cacheKey leadZip loc with
  | Some d =>
      let* _ := set_metrics count_cacheHit in
      ret {| location := loc; distance := d |}
  | None =>
      let* d := calculateRealDistance leadZip (Location.zipCode loc) in
      let* _ := cache_set (cacheKey leadZip loc) d in
      ret {| location := loc; distance := d |}
  end.

Definition in_radius (loc : Located) : bool :=
  JS.le (distance loc) (JS.of_Z (ZIP_RADIUS_MILES config)).

Definition by_distance (a b : Located) : JS.number :=
  JS.sub (distance a) (distance b).

Definition getNearestLocationsReal (leadZip : string)
  (locations : list Location.t) : M State (list Located) :=
  let* s := get in
  let* locationsWithDistance :=
    mapM (withDistance (cache s) leadZip) locations in
  ret (JS.Array_sort by_distance
         (List.filter in_radius locationsWithDistance)).

(** [getSimulatedCapacity]: every call draws a record of its own. *)
Definition getSimulatedCapacity : M State Capacity.t :=
  let* s := get in
  let* _ := modify (fun s => {| lead := lead s; cache := cache s;
                                metrics := metrics s; trace := trace s;
                                draws := S (draws s) |}) in
  ret (simulated_capacity w (draws s)).

(** [getLocationCapacityReal]: the stored record, or a simulated one
    when no key is configured or the request fails.  A reply without a
    record behaves in this code like the record whose properties are
    all falsy. *)
Definition getLocationCapacityReal (locationId : string)
  : M State Capacity.t :=
  if String.eqb (JSONBIN_API_KEY config) "" then
    getSimulatedCapacity
  else
    let* s := get in
    let* _ := emit (Fetch_capacity locationId) in
    match jsonbin_capacity w (List.length (trace s)) locationId with
    | Some data => ret data
    | None => getSimulatedCapacity
    end.

Definition withCapacity (loc : Located) : M State Candidate :=
  let* c := getLocationCapacityReal (Location.id (location loc)) in
  ret {| located := loc; capacity := c |}.

Definition checkLocationCapacities (locations : list Located)
  : M State (list Candidate) :=
  mapM withCapacity locations.

Definition logRoutingEvent (selectedLocation : option Candidate)
  (outcome : string) : M State unit :=
  emit (Log outcome (option_map candidate_id selectedLocation)).

(** [loc.capacity?.hasCapacity && loc.status === 'active'] *)
Definition is_available (loc : Candidate) : bool :=
  (Capacity.hasCapacity (capacity loc)
   && String.eqb (Location.status (location (located loc))) "active")%bool.

Definition is_low_traffic (loc : Candidate) : bool :=
  String.eqb (candidate_priority loc) "low-traffic".

Definition selectOptimalLocation (lead : Lead.t)
  (locations : list Candidate) : option Candidate :=
  let available := List.filter is_available locations in
  match available with
  | [] => None
  | closest :: _ =>
      if finalScore_ge lead (HIGH_SCORE_THRESHOLD config) then
        Some closest (* Closest for high-value leads *)
      else
        match List.find is_low_traffic available with
        | Some loc => Some loc
        | None => Some closest
        end
  end.

Definition getRoutingReason (lead : Lead.t) (loc : Candidate) : string :=
  if finalScore_ge lead (HIGH_SCORE_THRESHOLD config) then
    "High-value lead routed to optimal location"
  else if is_low_traffic loc then
    "Standard lead routed to low-traffic location"
  else "Lead routed to nearest available location".

Definition calculateRoutingConfidence (selected : Candidate)
  (allAvailable : list Candidate) : JS.number :=
  let factors : list Q :=
    [ if JS.lt (candidate_distance selected) (JS.of_Z 10)
      then 3 # 10 else 1 # 10;
      if 10 <? Capacity.availableSlots (capacity selected)
      then 3 # 10 else 1 # 10;
      if String.eqb (Location.status (location (located selected))) "active"
      then 2 # 10 else 0;
      if (1 <? List.length allAvailable)%nat then 2 # 10 else 1 # 10 ]%Q in
  JS.Math_round
    (JS.Num (List.fold_left Qplus factors 0%Q * inject_Z 100)).

Definition routeLead (locations : list Location.t) : M State Outcome :=
  let* _ := set_metrics count_apiCall in
  let* s := get in
  if negb (validateLead (lead s)) then
    ret (Failure "INVALID_LEAD" "Lead validation failed")
  else
  match Lead.zip (lead s) with
  | None => ret (Failure "INVALID_LEAD" "Lead validation failed")
  | Some leadZip =>
  let* _ := assign_finalScore (calculateLeadScore (lead s)) in
  let* nearestLocations := getNearestLocationsReal leadZip locations in
  match nearestLocations with
  | [] =>
      let* _ := logRoutingEvent None "NO_NEARBY_LOCATIONS" in
      ret (Failure "OUT_OF_RANGE" "No locations within service area")
  | _ :: _ =>
  let* locationsWithCapacity := checkLocationCapacities nearestLocations in
  let* s := get in
  match selectOptimalLocation (lead s) locationsWithCapacity with
  | None =>
      let* _ := logRoutingEvent None "NO_CAPACITY" in
      ret (Failure "NO_CAPACITY" "No available capacity")
  | Some selectedLocation =>
      let* _ := logRoutingEvent (Some selectedLocation) "SUCCESS" in
      let* _ := set_metrics count_successfulRoute in
      ret (Success selectedLocation
             (candidate_distance selectedLocation)
             (getRoutingReason (lead s) selectedLocation)
             (finalScore_ge (lead s) (HIGH_SCORE_THRESHOLD config))
             (calculateRoutingConfidence selectedLocation
                locationsWithCapacity))
  end end end.

(** The intermediate values of [routeLead], named for the statements. *)
Definition scored (s : State) : State :=
  snd ((let* _ := set_metrics count_apiCall in
        assign_finalScore (calculateLeadScore (lead s))) s).

Definition gatherCandidates (leadZip : string)
  (locations : list Location.t) : M State (list Candidate) :=
  let* nearestLocations := getNearestLocationsReal leadZip locations in
  checkLocationCapacities nearestLocations.

Definition inRangeCandidates (locations : list Location.t) (s : State)
  : list Candidate :=
  match Lead.zip (lead s) with
  | Some leadZip =>
      if validateLead (lead s)
      then fst (gatherCandidates leadZip locations (scored s))
      else []
  | None => []
  end.

End Router.
End ProductionRouter.

(** ** The properties, in the words of the specification *)

Module Spec.


(** [sel] is a closest candidate of [available]. *)
Definition closest (sel : Candidate) (available : list Candidate) : Prop :=
  In sel available /\
  forall c, In c available ->
    JS.le (candidate_distance sel) (candidate_distance c) = true.


(** The fallback policy: among the operational candidates, the greatest
    [availableSlots], ties broken by distance. *)
Definition best_fallback (fb : Candidate) (candidates : list Candidate)
  : Prop :=
  In fb candidates /\
  Capacity.isOperational (capacity fb) = true /\
  forall c, In c candidates ->
    Capacity.isOperational (capacity c) = true ->
    Capacity.availableSlots (capacity c)
    <= Capacity.availableSlots (capacity fb) /\
    (Capacity.availableSlots (capacity c)
     = Capacity.availableSlots (capacity fb) ->
     JS.le (candidate_distance fb) (candidate_distance c) = true).

(** A well-formed postal code: present, five ASCII digits. *)
Definition well_formed_zip (lead : Lead.t) : bool :=
  match Lead.zip lead with
  | Some z => JS.five_digits z
  | None => false
  end.

(** Ascending by distance. *)
Definition ascending (l : list Located) : Prop :=
  StronglySorted
    (fun a b => JS.le (distance a) (distance b) = true) l.

Definition same_distance (d : JS.number) (loc : Located) : bool :=
  match d, distance loc with
  | JS.Num x, JS.Num y => Qeq_bool x y
  | _, _ => false
  end.

(** Ties broken by location identifier: of two results at the same
    distance, the one with the smaller identifier comes first. *)
Definition ties_by_identifier (l : list Located) : Prop :=
  StronglySorted
    (fun a b =>
       same_distance (distance a) b = true ->
       String.leb (Location.id (location a)) (Location.id (location b))
       = true) l.

(** Ties left in the order of the input: at every distance, the results
    are the inputs at that distance, in the same order. *)
Definition ties_in_input_order (input result : list Located) : Prop :=
  forall d, List.filter (same_distance d) result
            = List.filter (same_distance d) input.

(** The score of the specification: the raw signal, 50 when absent, times
    the multiplier of the source, plus the two bonuses, clamped to
    [0,100], rounded. *)
Definition source_multiplier (source : option string) : Q :=
  match source with
  | Some s =>
      match List.find (fun kv => String.eqb (fst kv) s)
              Scoring.sourceMultipliers with
      | Some kv => snd kv
      | None => 1
      end
  | None => 1
  end.

Definition clamp (lo hi x : Q) : Q :=
  if Qle_bool x lo then lo else if Qle_bool hi x then hi else x.

Definition score (w : World) (lead : Lead.t) : Z :=
  let signal := match Lead.leadScore lead with Some n => n | None => 50 end in
  let raw :=
    (inject_Z signal * source_multiplier (Lead.source lead)
     + (if Scoring.complete_profile lead then 10 else 0)
     + (if Scoring.business_hours (getHours w) then 5 else 0))%Q in
  Qfloor (clamp 0 100 raw + (1 # 2)).

End Spec.

(** ** Test data

    The leads, locations and coordinates of the test section of
    routerTest.js, and worlds in which the geocoding service knows the
    three postal codes of its coordinate table. *)

Module Example.

Definition coords_90001 : Coordinates :=
  {| Haversine.lat := JS.Num (340224 # 10000);
     Haversine.lng := JS.Num (-1182437 # 10000) |}.
Definition coords_90210 : Coordinates :=
  {| Haversine.lat := JS.Num (340901 # 10000);
     Haversine.lng := JS.Num (-1184065 # 10000) |}.
Definition coords_10001 : Coordinates :=
  {| Haversine.lat := JS.Num (407505 # 10000);
     Haversine.lng := JS.Num (-739934 # 10000) |}.

Definition geocoder (zipCode : string) : option Coordinates :=
  if String.eqb zipCode "90001" then Some coords_90001
  else if String.eqb zipCode "90210" then Some coords_90210
  else if String.eqb zipCode "10001" then Some coords_10001
  else None.

(** Distances between the three places, to a tenth of a mile: zero from
    a place to itself, 10.4 miles between the two Los Angeles codes, and
    some 2450 miles from either to Manhattan. *)
Definition miles (a b : Coordinates) : JS.number :=
  match Haversine.lat a, Haversine.lat b with
  | JS.Num x, JS.Num y =>
      if Qeq_bool x y then JS.of_Z 0
      else if (Qle_bool x 35 && Qle_bool y 35)%bool then JS.Num (104 # 10)
      else JS.of_Z 2450
  | _, _ => JS.NaN
  end.

Definition simulated : Capacity.t :=
  {| Capacity.hasCapacity := true; Capacity.availableSlots := 12;
     Capacity.isOperational := true; Capacity.businessHours := None |}.

(** A world at [hour] o'clock local time. *)
Definition world_at (hour : Z) : World :=
  {| Date_now := hour * 3600000;
     timezone_offset := 0;
     zippopotam := fun _ => geocoder;
     haversine := miles;
     jsonbin_capacity := fun _ _ => None;
     jsonbin_put := fun _ _ => false;
     simulated_capacity := fun _ => simulated |}.

Definition morning : World := world_at 10.
Definition night : World := world_at 20.

(** The same hour a day later, with every service down. *)
Definition next_morning_offline : World :=
  {| Date_now := 34 * 3600000;
     timezone_offset := 0;
     zippopotam := fun _ _ => None;
     haversine := fun _ _ => JS.NaN;
     jsonbin_capacity := fun _ _ => None;
     jsonbin_put := fun _ _ => false;
     simulated_capacity := fun _ => simulated |}.

Definition lead_001 : Lead.t :=
  {| Lead.id := Some "lead_001"; Lead.zip := Some "90001";
     Lead.leadScore := Some 90; Lead.source := Some "facebook";
     Lead.phone := Some "+1234567890";
     Lead.email := Some "john@example.com";
     Lead.firstName := Some "John"; Lead.finalScore := None |}.

Definition lead_002 : Lead.t :=
  {| Lead.id := Some "lead_002"; Lead.zip := Some "90001";
     Lead.leadScore := Some 50; Lead.source := Some "website";
     Lead.phone := Some "+1234567891";
     Lead.email := Some "jane@example.com";
     Lead.firstName := None; Lead.finalScore := None |}.

(** [lead_004] of the tests: no postal code. *)
Definition lead_004 : Lead.t :=
  {| Lead.id := Some "lead_004"; Lead.zip := None;
     Lead.leadScore := Some 80; Lead.source := Some "walk-in";
     Lead.phone := None; Lead.email := None;
     Lead.firstName := None; Lead.finalScore := None |}.

(** A lead whose raw signal is below zero. *)
Definition lead_negative : Lead.t :=
  {| Lead.id := Some "lead_neg"; Lead.zip := Some "90001";
     Lead.leadScore := Some (-20); Lead.source := Some "website";
     Lead.phone := None; Lead.email := None;
     Lead.firstName := None; Lead.finalScore := None |}.

(** A lead whose postal code has four digits. *)
Definition lead_short_zip : Lead.t :=
  {| Lead.id := Some "lead_short"; Lead.zip := Some "9021";
     Lead.leadScore := Some 50; Lead.source := Some "website";
     Lead.phone := None; Lead.email := None;
     Lead.firstName := None; Lead.finalScore := None |}.

Definition mkLocation (id zipCode priority status : string)
  (dailyLeadCount : Z) : Location.t :=
  {| Location.id := id; Location.name := id; Location.zipCode := zipCode;
     Location.priority := priority; Location.status := status;
     Location.dailyLeadCount := Some dailyLeadCount;
     Location.businessHours := None |}.

Definition loc_001 := mkLocation "loc_001" "90001" "high-traffic" "active" 45.
Definition loc_002 := mkLocation "loc_002" "90210" "low-traffic" "active" 15.
Definition loc_003 := mkLocation "loc_003" "90001" "low-traffic" "active" 25.
Definition loc_004 := mkLocation "loc_004" "90401" "high-traffic" "maintenance" 0.
Definition loc_005 := mkLocation "loc_005" "10001" "high-traffic" "active" 30.

Definition testLocations : list Location.t :=
  [loc_001; loc_002; loc_003; loc_004; loc_005].

(** "All locations at capacity": every daily count set to 55. *)
Definition overCapacity (loc : Location.t) : Location.t :=
  {| Location.id := Location.id loc; Location.name := Location.name loc;
     Location.zipCode := Location.zipCode loc;
     Location.priority := Location.priority loc;
     Location.status := Location.status loc;
     Location.dailyLeadCount := Some 55;
     Location.businessHours := Location.businessHours loc |}.

Definition overCapacityLocations : list Location.t :=
  List.map overCapacity testLocations.

(** One location with a single slot left, and one under maintenance. *)
Definition loc_last_slot := mkLocation "loc_last" "90001" "high-traffic" "active" 49.
Definition loc_closed := mkLocation "loc_closed" "90001" "high-traffic" "maintenance" 55.

(** Three locations at the same postal code, whose identifiers are not
    in order. *)
Definition loc_b := mkLocation "loc_b" "90001" "high-traffic" "active" 10.
Definition loc_a := mkLocation "loc_a" "90001" "high-traffic" "active" 10.
Definition loc_c := mkLocation "loc_c" "90001" "high-traffic" "active" 10.

Definition test_start (lead : Lead.t) : RouterTest.State :=
  {| RouterTest.lead := lead; RouterTest.trace := [] |}.

Definition production_start (lead : Lead.t) : ProductionRouter.State :=
  {| ProductionRouter.lead := lead;
     ProductionRouter.cache := ∅;
     ProductionRouter.metrics :=
       {| ProductionRouter.apiCalls := 0; ProductionRouter.cacheHits := 0;
          ProductionRouter.errors := 0;
          ProductionRouter.successfulRoutes := 0 |};
     ProductionRouter.trace := [];
     ProductionRouter.draws := 0 |}.

(** The morning in which the first record [getSimulatedCapacity] draws
    says the location is full, and every later one that it has room. *)
Definition full : Capacity.t :=
  {| Capacity.hasCapacity := false; Capacity.availableSlots := 7;
     Capacity.isOperational := true; Capacity.businessHours := None |}.

Definition first_draw_full : World :=
  {| Date_now := Date_now morning;
     timezone_offset := timezone_offset morning;
     zippopotam := zippopotam morning;
     haversine := haversine morning;
     jsonbin_capacity := jsonbin_capacity morning;
     jsonbin_put := jsonbin_put morning;
     simulated_capacity :=
       fun n => match n with O => full | S _ => simulated end |}.

(** A configuration with a JSONBin key, and the night in which the
    capacity store holds, for every location, a record with room. *)
Definition with_key : Config :=
  {| ZIP_RADIUS_MILES := ZIP_RADIUS_MILES CONFIG;
     HIGH_SCORE_THRESHOLD := HIGH_SCORE_THRESHOLD CONFIG;
     MAX_DAILY_LEADS_PER_LOCATION := MAX_DAILY_LEADS_PER_LOCATION CONFIG;
     FALLBACK_ENABLED := FALLBACK_ENABLED CONFIG;
     WEBHOOK_URL := WEBHOOK_URL CONFIG;
     JSONBIN_API_KEY := "key" |}.

Definition last_slot : Capacity.t :=
  {| Capacity.hasCapacity := true; Capacity.availableSlots := 1;
     Capacity.isOperational := true; Capacity.businessHours := None |}.

Definition store_with_room : World :=
  {| Date_now := Date_now night;
     timezone_offset := timezone_offset night;
     zippopotam := zippopotam night;
     haversine := haversine night;
     jsonbin_capacity := fun _ _ => Some last_slot;
     jsonbin_put := jsonbin_put night;
     simulated_capacity := simulated_capacity night |}.

(** [Math.sin], [Math.cos] and [Math.atan2] of V8 (its port of fdlibm) at
    the arguments the examples reach: a quarter turn, and 58 degrees in
    radians, 1.0122909661567112, whose sine is 0.8480480961564261 and
    whose cosine is 0.5299192642332049.  The sine is odd and the cosine
    even; elsewhere the table is silent, which reads [NaN]. *)
Definition one : spec_float := S754_finite false 4503599627370496 (-52).
Definition quarter_turn : spec_float :=
  S754_finite false 7074237752028440 (-52).
Definition radians_58 : spec_float :=
  S754_finite false 4558953217973884 (-52).
Definition sin_58 : spec_float := S754_finite false 7638538179684678 (-53).
Definition cos_58 : spec_float := S754_finite false 4773088401874218 (-53).

Definition holds (m : positive) (e : Z) (x : spec_float) : bool :=
  match x with
  | S754_finite false m' e' => (Pos.eqb m m' && Z.eqb e e')%bool
  | _ => false
  end.

Definition sin_table (m : positive) (e : Z) : spec_float :=
  if holds m e quarter_turn then one
  else if holds m e radians_58 then sin_58
  else S754_nan.

Definition cos_table (m : positive) (e : Z) : spec_float :=
  if holds m e radians_58 then cos_58 else S754_nan.

Definition v8 : B64.Platform :=
  {| B64.sin := fun x =>
       match x with
       | S754_zero _ => x
       | S754_finite s m e =>
           if s then B64.opp (sin_table m e) else sin_table m e
       | _ => S754_nan
       end;
     B64.cos := fun x =>
       match x with
       | S754_zero _ => one
       | S754_finite _ m e => cos_table m e
       | _ => S754_nan
       end;
     B64.atan2 := fun y x =>
       match y, x with
       | S754_nan, _ | _, S754_nan => S754_nan
       | S754_finite false m e, S754_zero false =>
           if holds m e one then quarter_turn else S754_nan
       | _, _ => S754_nan
       end |}.

(** A place by its latitude and longitude in whole degrees. *)
Definition degrees (lat lng : Z) : Haversine.coords spec_float :=
  {| Haversine.lat := B64.of_Z lat; Haversine.lng := B64.of_Z lng |}.

End Example.

(** ** Vocabulary of the proofs *)

(** Order by a rational rank. *)
Definition by_rank {A : Type} (rank : A -> Q) (a b : A) : Prop :=
  (rank a <= rank b)%Q.

(** A location whose distance is a number, that number, the radius test
    and the comparator of the two sorts by distance. *)
Definition has_distance (loc : Located) : Prop :=
  exists q, distance loc = JS.Num q.

Definition miles_of (loc : Located) : Q :=
  match distance loc with JS.Num q => q | JS.NaN => 0 end.

Definition within (radius : Z) (loc : Located) : bool :=
  JS.le (distance loc) (JS.of_Z radius).

Definition distance_difference (a b : Located) : JS.number :=
  JS.sub (distance a) (distance b).

Definition candidate_le (a b : Candidate) : Prop :=
  JS.le (candidate_distance a) (candidate_distance b) = true.

Definition candidate_measured (c : Candidate) : Prop :=
  has_distance (located c).

(** The rank the fallback sorts by, and the candidates that tie with the
    fallback location. *)
Definition slots_rank (c : Candidate) : Q :=
  inject_Z (- Capacity.availableSlots (capacity c)).

Definition same_slots (fb c : Candidate) : bool :=
  Capacity.availableSlots (capacity c) =? Capacity.availableSlots (capacity fb).


(** Two states of a lead object that agree on every property the intake
    supplies, whatever [finalScore] holds. *)
Definition same_intake (before after : Lead.t) : Prop :=
  Lead.id after = Lead.id before
  /\ Lead.zip after = Lead.zip before
  /\ Lead.leadScore after = Lead.leadScore before
  /\ Lead.source after = Lead.source before
  /\ Lead.phone after = Lead.phone before
  /\ Lead.email after = Lead.email before
  /\ Lead.firstName after = Lead.firstName before.

(** An effect that leaves the capacity store as it is: anything but a
    write of a capacity bin. *)
Definition reads_only (e : Effect) : Prop :=
  match e with
  | Put_capacity _ => False
  | _ => True
  end.

(** A later state of the same call: the lead object is the same, the
    trace has only grown, and by no write of a capacity bin. *)
Definition RT_extends (s s' : RouterTest.State) : Prop :=
  RouterTest.lead s' = RouterTest.lead s
  /\ exists t, RouterTest.trace s' = RouterTest.trace s ++ t
               /\ Forall reads_only t.

Definition PR_extends (s s' : ProductionRouter.State) : Prop :=
  ProductionRouter.lead s' = ProductionRouter.lead s
  /\ exists t, ProductionRouter.trace s' = ProductionRouter.trace s ++ t
               /\ Forall reads_only t.

(** The result of [routeLead] as a function of the lead once scored, the
    in-range locations and their capacities. *)
Definition RT_summary (cfg : Config) (lead' : Lead.t) (locations : list Location.t)
  (nearest : list Located) (lwc : list Candidate) : RouterTest.Outcome :=
  let high := finalScore_ge lead' (HIGH_SCORE_THRESHOLD cfg) in
  match locations, nearest with
  | [], _ => RouterTest.Failed "NO_LOCATIONS" "No locations available" None None
  | _ :: _, [] =>
      RouterTest.Failed "OUT_OF_RANGE" "No locations within service area"
        (Some "Collect lead for future expansion") (Some lead')
  | _ :: _, _ :: _ =>
      match List.filter RouterTest.is_available lwc with
      | [] =>
          match
            (if FALLBACK_ENABLED cfg
             then RouterTest.fallbackLocation lwc else None)
          with
          | Some fallback =>
              RouterTest.Waitlisted fallback
                "No capacity at nearest locations, routed to best available"
                high lead'
          | None =>
              RouterTest.Failed "NO_CAPACITY"
                "No capacity available at any location"
                (Some "Add to waitlist and notify management") (Some lead')
          end
      | closest :: others =>
          let choice :=
            if high then
              (closest, "High-value lead routed to closest available location")
            else
              match List.find RouterTest.is_low_traffic (closest :: others) with
              | Some lowTraffic =>
                  (lowTraffic, "Standard lead routed to low-traffic location")
              | None =>
                  (closest, "Standard lead routed to closest available location")
              end in
          RouterTest.Routed (fst choice) (snd choice) high
            (candidate_distance (fst choice))
            (if 10 <? Capacity.availableSlots (capacity (fst choice))
             then "15 minutes" else "30 minutes")
            lead'
      end
  end.

(** The result of production-router's [routeLead] as a function of the
    lead once scored, the in-range locations and their capacities. *)
Definition PR_summary (cfg : Config) (lead' : Lead.t) (nearest : list Located)
  (lwc : list Candidate) : ProductionRouter.Outcome :=
  match nearest with
  | [] =>
      ProductionRouter.Failure "OUT_OF_RANGE" "No locations within service area"
  | _ :: _ =>
      match ProductionRouter.selectOptimalLocation cfg lead' lwc with
      | None => ProductionRouter.Failure "NO_CAPACITY" "No available capacity"
      | Some sel =>
          ProductionRouter.Success sel (candidate_distance sel)
            (ProductionRouter.getRoutingReason cfg lead' sel)
            (finalScore_ge lead' (HIGH_SCORE_THRESHOLD cfg))
            (ProductionRouter.calculateRoutingConfidence sel lwc)
      end
  end.

(** ** Vocabulary of the further properties *)

(** The lead with its raw quality signal set to [n]. *)
Definition with_signal (n : Z) (lead : Lead.t) : Lead.t :=
  {| Lead.id := Lead.id lead; Lead.zip := Lead.zip lead;
     Lead.leadScore := Some n; Lead.source := Lead.source lead;
     Lead.phone := Lead.phone lead; Lead.email := Lead.email lead;
     Lead.firstName := Lead.firstName lead;
     Lead.finalScore := Lead.finalScore lead |}.

(** Whether the source of the lead names a property that the multiplier
    table inherits. *)
Definition inherited_source (lead : Lead.t) : bool :=
  match Lead.source lead with
  | Some s => JS.inherited s
  | None => false
  end.

(** [result.location] of routerTest, routed or waitlisted. *)
Definition RT_named (result : RouterTest.Outcome) : option Candidate :=
  match result with
  | RouterTest.Routed loc _ _ _ _ _ => Some loc
  | RouterTest.Waitlisted loc _ _ _ => Some loc
  | RouterTest.Failed _ _ _ _ => None
  end.

(** A configuration with another radius. *)
Definition with_radius (radius : Z) (cfg : Config) : Config :=
  {| ZIP_RADIUS_MILES := radius;
     HIGH_SCORE_THRESHOLD := HIGH_SCORE_THRESHOLD cfg;
     MAX_DAILY_LEADS_PER_LOCATION := MAX_DAILY_LEADS_PER_LOCATION cfg;
     FALLBACK_ENABLED := FALLBACK_ENABLED cfg;
     WEBHOOK_URL := WEBHOOK_URL cfg;
     JSONBIN_API_KEY := JSONBIN_API_KEY cfg |}.

(** The requests for coordinates made to measure [locations] from
    [leadZip], and the requests for capacity made for [candidates], in
    the order they are made. *)
Definition geocoding_requests (leadZip : string)
  (locations : list Location.t) : list Effect :=
  List.flat_map
    (fun loc => [Fetch_zip leadZip; Fetch_zip (Location.zipCode loc)])
    locations.

Definition capacity_requests (cfg : Config) (candidates : list Candidate)
  : list Effect :=
  if String.eqb (JSONBIN_API_KEY cfg) "" then []
  else List.map (fun c => Fetch_capacity (candidate_id c)) candidates.

(** Whether a cache holds the distance from [leadZip] to a location, and
    the locations for which it does not. *)
Definition is_cached (cache0 : gmap string JS.number) (leadZip : string)
  (loc : Location.t) : bool :=
  match cache0 !! ProductionRouter.cacheKey leadZip loc with
  | Some _ => true
  | None => false
  end.

Definition uncached (cache0 : gmap string JS.number) (leadZip : string)
  (locations : list Location.t) : list Location.t :=
  List.filter (fun loc => negb (is_cached cache0 leadZip loc)) locations.

(** The zip a validated lead is routed by. *)
Definition zip_of (lead : Lead.t) : string :=
  match Lead.zip lead with
  | Some z => z
  | None => ""
  end.

(** The router object as [new ProductionLeadRouter()] leaves it, and the
    router object taking the next lead. *)
Definition no_metrics : ProductionRouter.Metrics :=
  {| ProductionRouter.apiCalls := 0; ProductionRouter.cacheHits := 0;
     ProductionRouter.errors := 0; ProductionRouter.successfulRoutes := 0 |}.

Definition next_lead (lead : Lead.t) (s : ProductionRouter.State)
  : ProductionRouter.State :=
  {| ProductionRouter.lead := lead;
     ProductionRouter.cache := ProductionRouter.cache s;
     ProductionRouter.metrics := ProductionRouter.metrics s;
     ProductionRouter.trace := ProductionRouter.trace s;
     ProductionRouter.draws := ProductionRouter.draws s |}.

(** Calls of [routeLead] on one router object, one after the other, each
    with its own lead and list of locations. *)
Fixpoint PR_routeEach (cfg : Config) (w : World)
  (calls : list (Lead.t * list Location.t)) (s : ProductionRouter.State)
  : list ProductionRouter.Outcome * ProductionRouter.State :=
  match calls with
  | [] => ([], s)
  | (lead, locations) :: rest =>
      let r := ProductionRouter.routeLead cfg w locations (next_lead lead s) in
      let rs := PR_routeEach cfg w rest (snd r) in
      (fst r :: fst rs, snd rs)
  end.

Definition succeeded (result : ProductionRouter.Outcome) : bool :=
  match result with
  | ProductionRouter.Success _ _ _ _ _ => true
  | ProductionRouter.Failure _ _ => false
  end.

(** [getMetrics] of production-router.js.  The quotient [a / b] of two
    counters is [NaN] for [0 / 0] and [Infinity] for [n / 0]. *)
Inductive rate : Type :=
| Rate (q : Q)
| Infinity
| NaN_rate.

Definition divide (a b : nat) : rate :=
  match b, a with
  | O, O => NaN_rate
  | O, S _ => Infinity
  | S _, _ => Rate (Z.of_nat a # Pos.of_nat b)
  end.

Record MetricsReport : Type := {
  counters : ProductionRouter.Metrics;
  cacheHitRate : rate;
  successRate : rate;
  cacheSize : nat
}.

Definition getMetrics (s : ProductionRouter.State) : MetricsReport :=
  let m := ProductionRouter.metrics s in
  {| counters := m;
     cacheHitRate :=
       divide (ProductionRouter.cacheHits m) (ProductionRouter.apiCalls m);
     successRate :=
       divide (ProductionRouter.successfulRoutes m)
         (ProductionRouter.apiCalls m);
     cacheSize := size (ProductionRouter.cache s) |}.

(** The lead with no raw quality signal. *)
Definition without_signal (lead : Lead.t) : Lead.t :=
  {| Lead.id := Lead.id lead; Lead.zip := Lead.zip lead;
     Lead.leadScore := None; Lead.source := Lead.source lead;
     Lead.phone := Lead.phone lead; Lead.email := Lead.email lead;
     Lead.firstName := Lead.firstName lead;
     Lead.finalScore := Lead.finalScore lead |}.

(** Services that give the same answer whenever they are asked. *)
Definition stateless (w : World) : Prop :=
  (forall i j z, zippopotam w i z = zippopotam w j z)
  /\ (forall i j id, jsonbin_capacity w i id = jsonbin_capacity w j id).

(** ** Further functions of the sources *)

(** The mock [calculateDistance] of routerTest.js: a table of three zip
    codes, written as an object literal, and the haversine formula
    written out once more.  It is embedded over the arithmetic of
    [Haversine]; a decimal literal is the quotient of two integers, which
    the division of IEEE 754 doubles rounds as the literal is rounded.
    The result is [NotANumber] when a zip names a property the table
    inherits, whose [lat] and [lng] are [undefined]. *)
Module Mock.
Import Haversine.

Inductive Distance (N : Type) : Type :=
| Miles (d : N)
| NotANumber.
Arguments Miles {N} d.
Arguments NotANumber {N}.

Inductive entry (N : Type) : Type :=
| Own (c : coords N)
| Inherited
| Missing.
Arguments Own {N} c.
Arguments Inherited {N}.
Arguments Missing {N}.

Section Formula.
Context {N : Type} `{Arith N}.

Definition decimal (digits : Z) : N := div (lit digits) (lit 10000).

Definition zipCoords : list (string * coords N) :=
  [ ("90001", {| lat := decimal 340224; lng := neg (decimal 1182437) |});
    ("90210", {| lat := decimal 340901; lng := neg (decimal 1184065) |});
    ("10001", {| lat := decimal 407505; lng := neg (decimal 739934) |}) ].

(** [zipCoords[zip]] *)
Definition lookup (zip : string) : entry N :=
  match List.find (fun kv => String.eqb (fst kv) zip) zipCoords with
  | Some kv => Own (snd kv)
  | None => if JS.inherited zip then Inherited else Missing
  end.

Definition calculateDistance (zip1 zip2 : string) : Distance N :=
  match lookup zip1, lookup zip2 with
  | Missing, _ | _, Missing => Miles (lit 999) (* Unknown distance *)
  | Own coords1, Own coords2 =>
      let R := lit 3959 in
      let dLat :=
        div (mul (sub (lat coords2) (lat coords1)) Math_PI) (lit 180) in
      let dLng :=
        div (mul (sub (lng coords2) (lng coords1)) Math_PI) (lit 180) in
      let a :=
        add (mul (Math_sin (div dLat (lit 2))) (Math_sin (div dLat (lit 2))))
            (mul (mul (mul (Math_cos (div (mul (lat coords1) Math_PI)
                                        (lit 180)))
                           (Math_cos (div (mul (lat coords2) Math_PI)
                                        (lit 180))))
                      (Math_sin (div dLng (lit 2))))
                 (Math_sin (div dLng (lit 2)))) in
      Miles (mul (mul R (lit 2))
               (Math_atan2 (Math_sqrt a) (Math_sqrt (sub (lit 1) a))))
  | _, _ => NotANumber
  end.
End Formula.

(** The zip codes the table lists. *)
Definition listed (zip : string) : bool :=
  existsb (String.eqb zip) ["90001"; "90210"; "10001"].

End Mock.

(** [getSimulatedCapacity] of production-router.js, from the two numbers
    it draws from [Math.random], each at least 0 and less than 1.  The
    arithmetic is exact; on doubles the product [random * 20] may round
    up to the next whole number, which is still below 20. *)
Definition getSimulatedCapacity (random1 random2 : Q) : Capacity.t :=
  {| Capacity.hasCapacity := negb (Qle_bool random1 (3 # 10));
     Capacity.availableSlots := Qfloor (random2 * 20) + 5;
     Capacity.isOperational := true;
     Capacity.businessHours := None |}.

(** * Properties *)

(** ** Symmetry of the haversine formula *)

Section HaversineSymmetry.
Import Haversine.
Context {N : Type} `{SignLaws N}.

Lemma mul_opp_r (a b : N) : mul a (neg b) = neg (mul a b).
Proof. rewrite (mul_sym a (neg b)), mul_opp_l. f_equal. apply mul_sym. Qed.

(** The squared sine of a half difference does not see which way the
    difference is taken. *)
Lemma half_angle_swap (k a b : N) :
  let h x y := Math_sin (div (div (mul (sub x y) Math_PI) (lit 180)) (lit 2)) in
  mul (mul k (h a b)) (h a b) = mul (mul k (h b a)) (h b a).
Proof.
  intros h. unfold h.
  destruct (sub_swap a b) as [E | E]; rewrite E; [|reflexivity].
  rewrite mul_opp_l, !div_opp_l, sin_odd, (mul_opp_r k), mul_opp_opp.
  reflexivity.
Qed.

Lemma half_angle_square_swap (a b : N) :
  let h x y := Math_sin (div (div (mul (sub x y) Math_PI) (lit 180)) (lit 2)) in
  mul (h a b) (h a b) = mul (h b a) (h b a).
Proof.
  intros h. unfold h.
  destruct (sub_swap a b) as [E | E]; rewrite E; [|reflexivity].
  rewrite mul_opp_l, !div_opp_l, sin_odd, mul_opp_opp.
  reflexivity.
Qed.

(** Over any arithmetic that obeys the sign laws, the haversine distance
    from A to B is the haversine distance from B to A. *)
Lemma haversineDistance_swap (A B : coords N) :
  haversineDistance A B = haversineDistance B A.
Proof.
  unfold haversineDistance.
  cbv zeta.
  rewrite (half_angle_square_swap (lat B) (lat A)).
  rewrite (half_angle_swap _ (lng B) (lng A)).
  rewrite (mul_sym (Math_cos (div (mul (lat A) Math_PI) (lit 180)))).
  reflexivity.
Qed.
End HaversineSymmetry.

(** *** Over the reals *)

#[global] Instance R_SignLaws : Haversine.SignLaws R.
Proof.
  split; simpl; intros.
  - left. ring.
  - ring.
  - unfold Rdiv. ring.
  - ring.
  - ring.
  - apply Rtrigo1.sin_neg.
Qed.

Lemma haversineDistance_swap_on_reals (A B : Haversine.coords R) :
  Haversine.haversineDistance A B = Haversine.haversineDistance B A.
Proof. apply (haversineDistance_swap (N := R)). Qed.

(** *** Over the doubles

    Rounding to nearest does not look at the sign: the operations of
    binary64 obey the sign laws. *)

Lemma binary_round_aux_opp (s : bool) (m e : Z) (l : SpecFloat.location) :
  binary_round_aux B64.prec B64.emax (negb s) m e l
  = SFopp (binary_round_aux B64.prec B64.emax s m e l).
Proof.
  unfold binary_round_aux.
  destruct (shr_fexp B64.prec B64.emax m e l) as [mrs' e'].
  destruct (shr_fexp B64.prec B64.emax _ e' loc_Exact) as [mrs'' e''].
  destruct (shr_m mrs'') as [| p | p]; [reflexivity | | reflexivity].
  destruct (e'' <=? B64.emax - B64.prec); reflexivity.
Qed.

Lemma binary_normalize_opp (m e : Z) :
  m <> 0 ->
  binary_normalize B64.prec B64.emax (- m) e false
  = SFopp (binary_normalize B64.prec B64.emax m e false).
Proof.
  intros Hm. destruct m as [| p | p]; [congruence | |].
  - change (- Z.pos p) with (Z.neg p).
    unfold binary_normalize, binary_round.
    destruct (shl_align _ _ _) as [mz ez].
    apply (binary_round_aux_opp false).
  - change (- Z.neg p) with (Z.pos p).
    unfold binary_normalize, binary_round.
    destruct (shl_align _ _ _) as [mz ez].
    apply (binary_round_aux_opp true).
Qed.

Lemma B64_sub_swap (a b : spec_float) :
  B64.sub a b = B64.opp (B64.sub b a) \/ B64.sub a b = B64.sub b a.
Proof.
  unfold B64.sub, B64.opp.
  destruct a as [sa | sa | | sa ma ea], b as [sb | sb | | sb mb eb];
    try (destruct sa, sb; cbn; auto; fail);
    try (destruct sa; cbn; auto; fail);
    try (destruct sb; cbn; auto; fail);
    try (cbn; auto; fail).
  cbn [SFsub]. rewrite (Z.min_comm eb ea).
  set (x := cond_Zopp sa _). set (y := cond_Zopp sb _).
  destruct (Z.eq_dec (y - x) 0) as [E | E].
  - right. replace (x - y) with 0 by lia. rewrite E. reflexivity.
  - left. replace (x - y) with (- (y - x)) by lia.
    apply binary_normalize_opp, E.
Qed.

Lemma B64_mul_opp_l (a b : spec_float) :
  B64.mul (B64.opp a) b = B64.opp (B64.mul a b).
Proof.
  unfold B64.mul, B64.opp.
  destruct a as [sa | sa | | sa ma ea], b as [sb | sb | | sb mb eb];
    try (destruct sa, sb; reflexivity); try reflexivity.
  cbn [SFopp SFmul]. rewrite <- binary_round_aux_opp.
  destruct sa, sb; reflexivity.
Qed.

Lemma B64_div_opp_l (a b : spec_float) :
  B64.div (B64.opp a) b = B64.opp (B64.div a b).
Proof.
  unfold B64.div, B64.opp.
  destruct a as [sa | sa | | sa ma ea], b as [sb | sb | | sb mb eb];
    try (destruct sa, sb; reflexivity); try reflexivity.
  cbn [SFopp SFdiv].
  destruct (SFdiv_core_binary _ _ _ _ _ _) as [[mz ez] lz].
  rewrite <- binary_round_aux_opp.
  destruct sa, sb; reflexivity.
Qed.

Lemma B64_mul_sym (a b : spec_float) : B64.mul a b = B64.mul b a.
Proof.
  unfold B64.mul.
  destruct a as [sa | sa | | sa ma ea], b as [sb | sb | | sb mb eb];
    try (destruct sa, sb; reflexivity); try reflexivity.
  cbn [SFmul]. rewrite (Pos.mul_comm mb ma), (Z.add_comm eb ea), (xorb_comm sb sa).
  reflexivity.
Qed.

Lemma B64_mul_opp_opp (a b : spec_float) :
  B64.mul (B64.opp a) (B64.opp b) = B64.mul a b.
Proof.
  rewrite B64_mul_opp_l, (B64_mul_sym a), B64_mul_opp_l.
  unfold B64.opp. rewrite (B64_mul_sym b a).
  destruct (B64.mul a b) as [s | s | | s m e]; cbn; rewrite ?negb_involutive;
    reflexivity.
Qed.

Lemma B64_eqb_refl (x : spec_float) : B64.eqb x x = true <-> x <> S754_nan.
Proof.
  unfold B64.eqb, SFeqb.
  destruct x as [s | s | | s m e]; cbn.
  - split; [discriminate | reflexivity].
  - destruct s; (split; [discriminate | reflexivity]).
  - split; [discriminate | congruence].
  - rewrite Z.compare_refl, Pos.compare_cont_refl.
    destruct s; (split; [discriminate | reflexivity]).
Qed.

Lemma B64_opp_involutive (a : spec_float) : B64.opp (B64.opp a) = a.
Proof.
  destruct a as [s | s | | s m e]; cbn; rewrite ?negb_involutive;
    reflexivity.
Qed.

Lemma B64_sub_diag (a : spec_float) :
  B64.is_finite a = true -> B64.sub a a = S754_zero false.
Proof.
  destruct a as [s | s | | s m e]; try discriminate; intros _.
  - destruct s; reflexivity.
  - unfold B64.sub. cbn [SFsub]. rewrite Z.sub_diag. reflexivity.
Qed.

Lemma B64_SignLaws (p : B64.Platform) :
  (forall x, B64.sin p (B64.opp x) = B64.opp (B64.sin p x)) ->
  Haversine.SignLaws spec_float (H := Haversine.B64_Arith p).
Proof.
  intros Hsin. split; cbn.
  - apply B64_sub_swap.
  - apply B64_mul_opp_l.
  - apply B64_div_opp_l.
  - apply B64_mul_opp_opp.
  - apply B64_mul_sym.
  - exact Hsin.
Qed.

Lemma v8_sin_odd (x : spec_float) :
  B64.sin Example.v8 (B64.opp x) = B64.opp (B64.sin Example.v8 x).
Proof.
  destruct x as [s | s | | s m e]; try reflexivity.
  destruct s; cbn; [symmetry; apply B64_opp_involutive | reflexivity].
Qed.

(** C9, as amended.  On doubles, with the sine of the platform odd (that
    of V8 is), the two directions compute the same double, bit for bit:
    the same number, or [NaN] both ways.  So
    [distance(A,B) == distance(B,A)] holds exactly when the distance is
    not [NaN]; when it is [NaN] no test of [|distance(A,B) -
    distance(B,A)|] against a tolerance passes, and when it is finite the
    difference is zero. *)
Theorem haversineDistance_symmetric (p : B64.Platform)
  (A B : Haversine.coords spec_float) :
  (forall x, B64.sin p (B64.opp x) = B64.opp (B64.sin p x)) ->
  let AB := Haversine.haversineDistance (H := Haversine.B64_Arith p) A B in
  let BA := Haversine.haversineDistance (H := Haversine.B64_Arith p) B A in
  AB = BA
  /\ (B64.eqb AB BA = true <-> AB <> S754_nan)
  /\ (AB = S754_nan ->
      forall tolerance,
        B64.leb (B64.abs (B64.sub AB BA)) tolerance = false)
  /\ (B64.is_finite AB = true ->
      B64.leb (B64.abs (B64.sub AB BA)) (B64.of_Z 0) = true).
Proof.
  intros Hsin AB BA.
  assert (E : AB = BA).
  { subst AB BA.
    apply (haversineDistance_swap (H0 := B64_SignLaws p Hsin)). }
  split; [exact E |]. rewrite <- E.
  split; [apply B64_eqb_refl |].
  split.
  - intros -> tolerance. reflexivity.
  - intros Hfin. rewrite (B64_sub_diag AB Hfin). reflexivity.
Qed.

(** From the point of the equator on the Greenwich meridian to its
    antipode and back: 12437.565315561991 miles both ways. *)
Lemma haversineDistance_symmetric_witness :
  let AB :=
    Haversine.haversineDistance (H := Haversine.B64_Arith Example.v8)
      (Example.degrees 0 0) (Example.degrees 0 180) in
  let BA :=
    Haversine.haversineDistance (H := Haversine.B64_Arith Example.v8)
      (Example.degrees 0 180) (Example.degrees 0 0) in
  AB = S754_finite false 6837623842841942 (-39)
  /\ AB = BA
  /\ B64.eqb AB BA = true.
Proof.
  intros AB BA.
  destruct (haversineDistance_symmetric Example.v8 (Example.degrees 0 0)
              (Example.degrees 0 180) v8_sin_odd) as [E [Q _]].
  split; [vm_compute; reflexivity |].
  split; [exact E |].
  apply Q. vm_compute. discriminate.
Defined.

(** C9 fails as stated.  From 58 degrees south on the date line to 58
    degrees north on the Greenwich meridian, its antipode, the squared
    sine and the squared cosine of 58 degrees add up to
    1.0000000000000002; [1 - a] is negative, its square root [NaN], and
    so is the distance, both ways: [distance(A,B) == distance(B,A)] is
    false, and so is every test of the difference against a
    tolerance. *)
Lemma haversineDistance_of_antipodes_is_NaN :
  let A := Example.degrees (-58) (-180) in
  let B := Example.degrees 58 0 in
  let AB :=
    Haversine.haversineDistance (H := Haversine.B64_Arith Example.v8) A B in
  let BA :=
    Haversine.haversineDistance (H := Haversine.B64_Arith Example.v8) B A in
  let a :=
    B64.add (B64.mul Example.sin_58 Example.sin_58)
      (B64.mul (B64.mul (B64.mul Example.cos_58 Example.cos_58) Example.one)
         Example.one) in
  a = S754_finite false 4503599627370497 (-52)
  /\ B64.sqrt (B64.sub (B64.of_Z 1) a) = S754_nan
  /\ AB = S754_nan
  /\ BA = S754_nan
  /\ B64.eqb AB BA = false
  /\ forall tolerance,
       B64.leb (B64.abs (B64.sub AB BA)) tolerance = false.
Proof.
  intros A B AB BA a.
  assert (EAB : AB = S754_nan) by (vm_compute; reflexivity).
  assert (EBA : BA = S754_nan) by (vm_compute; reflexivity).
  split; [vm_compute; reflexivity |].
  split; [vm_compute; reflexivity |].
  split; [exact EAB |]. split; [exact EBA |].
  rewrite EAB, EBA. split; [reflexivity |]. intros tolerance. reflexivity.
Qed.

(** ** Lead scoring *)

Section ScoringFacts.

Lemma multiplier_of_source (source : option string) :
  (forall s, source = Some s -> JS.inherited s = false) ->
  Scoring.multiplier source = JS.Num (Spec.source_multiplier source).
Proof.
  intros Hown. unfold Scoring.multiplier, Scoring.lookup_source,
    Spec.source_multiplier.
  destruct source as [s |]; [| reflexivity].
  destruct (List.find _ Scoring.sourceMultipliers) as [kv |]; [reflexivity |].
  rewrite (Hown s eq_refl). reflexivity.
Qed.

Lemma source_multiplier_pos (source : option string) :
  (0 < Spec.source_multiplier source)%Q.
Proof.
  unfold Spec.source_multiplier.
  destruct source as [s |]; [| reflexivity].
  destruct (List.find _ Scoring.sourceMultipliers) as [kv |] eqn:F;
    [| reflexivity].
  apply List.find_some in F. destruct F as [Hin _].
  simpl in Hin.
  repeat (destruct Hin as [<- | Hin]; [reflexivity |]).
  contradiction.
Qed.

Lemma Qfloor_half_100 : Qfloor (100 + (1 # 2)) = 100.
Proof. reflexivity. Qed.

(** Rounding and then capping at 100 is clamping to [0,100] and then
    rounding, as long as the score is not negative. *)
Lemma round_min_clamp (x y : Q) :
  (x == y)%Q -> (0 <= x)%Q ->
  JS.Math_min (JS.of_Z 100) (JS.Math_round (JS.Num x))
  = JS.of_Z (Qfloor (Spec.clamp 0 100 y + (1 # 2))).
Proof.
  intros Exy Hx. unfold JS.Math_round, JS.Math_min, JS.of_Z, Spec.clamp.
  assert (Ef : Qfloor (x + (1 # 2)) = Qfloor (y + (1 # 2)))
    by (apply Qfloor_comp; rewrite Exy; reflexivity).
  rewrite Ef. clear Ef.
  destruct (Qle_bool y 0) eqn:E0.
  - apply Qle_bool_iff in E0.
    assert (Ey : (y == 0)%Q) by lra.
    rewrite (Qfloor_comp _ _ (Qplus_comp _ _ Ey _ _ (Qeq_refl (1 # 2)))).
    reflexivity.
  - destruct (Qle_bool 100 y) eqn:E100.
    + apply Qle_bool_iff in E100.
      assert (Hk : 100 <= Qfloor (y + (1 # 2))).
      { rewrite <- Qfloor_half_100. apply Qfloor_resp_le. lra. }
      destruct (Qle_bool (inject_Z 100) (inject_Z (Qfloor (y + (1 # 2)))))
        eqn:Hle; [reflexivity |].
      exfalso. rewrite <- Bool.not_true_iff_false in Hle. apply Hle.
      apply Qle_bool_iff. rewrite <- Zle_Qle. exact Hk.
    + assert (Hy : (y < 100)%Q).
      { apply Qnot_le_lt. intros C. apply Qle_bool_iff in C. congruence. }
      assert (Hk : Qfloor (y + (1 # 2)) <= 100).
      { rewrite <- Qfloor_half_100. apply Qfloor_resp_le. lra. }
      destruct (Qle_bool (inject_Z 100) (inject_Z (Qfloor (y + (1 # 2)))))
        eqn:Hle; [| reflexivity].
      apply Qle_bool_iff in Hle. rewrite <- Zle_Qle in Hle.
      do 2 f_equal. lia.
Qed.

Lemma clamped_score_bounds (w : World) (lead : Lead.t) :
  0 <= Spec.score w lead <= 100.
Proof.
  unfold Spec.score, Spec.clamp.
  set (raw := (_ + _ + _)%Q).
  destruct (Qle_bool raw 0) eqn:E0; [vm_compute; split; discriminate |].
  destruct (Qle_bool 100 raw) eqn:E100; [vm_compute; split; discriminate |].
  assert (H0 : (0 < raw)%Q).
  { apply Qnot_le_lt. intros C. apply Qle_bool_iff in C. congruence. }
  assert (H100 : (raw < 100)%Q).
  { apply Qnot_le_lt. intros C. apply Qle_bool_iff in C. congruence. }
  split.
  - change 0 with (Qfloor (0 + (1 # 2))). apply Qfloor_resp_le. lra.
  - rewrite <- Qfloor_half_100. apply Qfloor_resp_le. lra.
Qed.

(** The score of either implementation from a signal that is not
    negative, whatever the default: the score of the specification
    computed from that signal. *)
Lemma score_from_signal (dflt signal : Z) (w : World) (lead : Lead.t) :
  (forall s, Lead.source lead = Some s -> JS.inherited s = false) ->
  Scoring.or_default (Lead.leadScore lead) dflt = JS.of_Z signal ->
  match Lead.leadScore lead with Some n => n | None => 50 end = signal ->
  0 <= signal ->
  Scoring.score_with_default dflt w lead = JS.of_Z (Spec.score w lead).
Proof.
  intros Hown Hcode Hspec Hpos.
  unfold Scoring.score_with_default, Spec.score.
  rewrite Hcode, Hspec, (multiplier_of_source _ Hown).
  pose proof (source_multiplier_pos (Lead.source lead)) as Hm.
  set (m := Spec.source_multiplier (Lead.source lead)) in *.
  assert (Hprod : (0 <= inject_Z signal * m)%Q).
  { apply Qmult_le_0_compat; [| lra].
    change 0%Q with (inject_Z 0). rewrite <- Zle_Qle. exact Hpos. }
  unfold JS.of_Z at 1. cbn [JS.mul].
  destruct (Scoring.complete_profile lead),
    (Scoring.business_hours (getHours w));
    cbn [JS.add JS.of_Z]; apply round_min_clamp;
    change (inject_Z 10) with 10%Q; change (inject_Z 5) with 5%Q;
    set (p := (inject_Z signal * m)%Q) in *; lra.
Qed.

End ScoringFacts.

(** C4, as amended.  For every lead whose source is not a property name
    inherited from [Object.prototype] and whose raw quality signal, when
    present, is not negative, the computed score is the specified one (the
    signal, 50 when absent, times the multiplier of the source, plus 10 for
    a complete profile, plus 5 between 9 and 17 o'clock, clamped to
    [0,100] and rounded): in production-router whenever the signal is not
    zero, in routerTest whenever the signal is present; and that score is
    an integer in [0,100]. *)
Theorem score_is_specified_score (w : World) (lead : Lead.t) :
  (forall s, Lead.source lead = Some s -> JS.inherited s = false) ->
  (forall n, Lead.leadScore lead = Some n -> 0 <= n) ->
  (Lead.leadScore lead <> Some 0 ->
   ProductionRouter.calculateLeadScore w lead = JS.of_Z (Spec.score w lead))
  /\ (Lead.leadScore lead <> None ->
      RouterTest.calculateLeadScore w lead = JS.of_Z (Spec.score w lead))
  /\ 0 <= Spec.score w lead <= 100.
Proof.
  intros Hown Hpos. split; [| split].
  - intros Hnz. unfold ProductionRouter.calculateLeadScore.
    destruct (Lead.leadScore lead) as [n |] eqn:E.
    + apply (score_from_signal 50 n); [exact Hown | | | apply (Hpos n eq_refl)].
      * rewrite E. destruct n; [congruence | reflexivity | reflexivity].
      * rewrite E. reflexivity.
    + apply (score_from_signal 50 50); [exact Hown | | | lia].
      * rewrite E. reflexivity.
      * rewrite E. reflexivity.
  - intros Hpresent. unfold RouterTest.calculateLeadScore.
    destruct (Lead.leadScore lead) as [n |] eqn:E; [| congruence].
    apply (score_from_signal 0 n); [exact Hown | | | apply (Hpos n eq_refl)].
    + rewrite E. destruct n; reflexivity.
    + rewrite E. reflexivity.
  - apply clamped_score_bounds.
Qed.

Lemma score_is_specified_score_witness :
  (Lead.leadScore Example.lead_001 <> Some 0 ->
   ProductionRouter.calculateLeadScore Example.morning Example.lead_001
   = JS.of_Z (Spec.score Example.morning Example.lead_001))
  /\ (Lead.leadScore Example.lead_001 <> None ->
      RouterTest.calculateLeadScore Example.morning Example.lead_001
      = JS.of_Z (Spec.score Example.morning Example.lead_001))
  /\ 0 <= Spec.score Example.morning Example.lead_001 <= 100.
Proof.
  apply (score_is_specified_score Example.morning Example.lead_001).
  - intros s E. injection E as <-. reflexivity.
  - intros n E. injection E as <-. discriminate.
Defined.

(** C4 fails as stated: a lead whose raw signal is -20 is scored -20 by
    production-router, where the specified score is 0 and the result was
    to lie in [0,100]. *)
Lemma score_below_zero :
  ProductionRouter.calculateLeadScore Example.night Example.lead_negative
  = JS.of_Z (-20)
  /\ Spec.score Example.night Example.lead_negative = 0
  /\ ~ (exists k, 0 <= k <= 100 /\
          ProductionRouter.calculateLeadScore Example.night
            Example.lead_negative = JS.of_Z k).
Proof.
  split; [reflexivity | split; [reflexivity |]].
  intros [k [Hk E]].
  change (JS.of_Z (-20) = JS.of_Z k) in E.
  injection E as E. lia.
Qed.

(** C6, as amended.  The scorer takes the lead alone and reads the hour of
    the wall clock itself; its result is determined by the lead data and
    that hour: two invocations on the same lead in worlds whose local hour
    is the same return the same score, whatever else differs. *)
Theorem score_determined_by_lead_and_hour (w1 w2 : World) (lead : Lead.t) :
  getHours w1 = getHours w2 ->
  RouterTest.calculateLeadScore w1 lead = RouterTest.calculateLeadScore w2 lead
  /\ ProductionRouter.calculateLeadScore w1 lead
     = ProductionRouter.calculateLeadScore w2 lead.
Proof.
  intros Hhour.
  unfold RouterTest.calculateLeadScore, ProductionRouter.calculateLeadScore,
    Scoring.score_with_default.
  rewrite Hhour. split; reflexivity.
Qed.

Lemma score_determined_by_lead_and_hour_witness :
  RouterTest.calculateLeadScore Example.morning Example.lead_002
  = RouterTest.calculateLeadScore Example.next_morning_offline Example.lead_002
  /\ ProductionRouter.calculateLeadScore Example.morning Example.lead_002
     = ProductionRouter.calculateLeadScore Example.next_morning_offline
         Example.lead_002.
Proof.
  apply (score_determined_by_lead_and_hour Example.morning
           Example.next_morning_offline Example.lead_002).
  reflexivity.
Defined.

(** C6 fails as stated: the scorer is given no time, and the same lead
    scored at 10 o'clock and at 20 o'clock gets 55 and 50. *)
Lemma score_reads_wall_clock :
  ProductionRouter.calculateLeadScore Example.morning Example.lead_002
  = JS.of_Z 55
  /\ ProductionRouter.calculateLeadScore Example.night Example.lead_002
     = JS.of_Z 50
  /\ RouterTest.calculateLeadScore Example.morning Example.lead_002
     <> RouterTest.calculateLeadScore Example.night Example.lead_002.
Proof.
  split; [reflexivity | split; [reflexivity |]].
  intros E. vm_compute in E. discriminate E.
Qed.

(** ** [Array.prototype.sort]

    The comparators of the code are differences of a numeric key.  For a
    comparator that is positive exactly when the rank of its first argument
    is above the rank of the second, on the elements that satisfy [P], the
    sort is a stable sort by rank. *)

Section SortFacts.
Context {A : Type} (compareFn : A -> A -> JS.number).
Context (rank : A -> Q) (P : A -> Prop).
Hypothesis compare_rank : forall a b, P a -> P b ->
  JS.gt (compareFn a b) (JS.of_Z 0) = negb (Qle_bool (rank a) (rank b)).

Lemma insert_permutation (x : A) (l : list A) :
  Permutation (JS.insert compareFn x l) (x :: l).
Proof.
  induction l as [| y l IH]; cbn [JS.insert]; [reflexivity |].
  destruct (JS.gt (compareFn x y) (JS.of_Z 0)); [| reflexivity].
  rewrite IH. apply perm_swap.
Qed.

Lemma Array_sort_permutation (l : list A) :
  Permutation (JS.Array_sort compareFn l) l.
Proof.
  induction l as [| x l IH]; cbn [JS.Array_sort]; [reflexivity |].
  rewrite insert_permutation. apply perm_skip, IH.
Qed.

Lemma Array_sort_In (x : A) (l : list A) :
  In x (JS.Array_sort compareFn l) <-> In x l.
Proof.
  split; apply Permutation_in;
    [| symmetry]; apply Array_sort_permutation.
Qed.

Lemma Array_sort_Forall (Q : A -> Prop) (l : list A) :
  Forall Q l -> Forall Q (JS.Array_sort compareFn l).
Proof.
  apply Permutation_Forall. symmetry. apply Array_sort_permutation.
Qed.

Lemma insert_sorted (x : A) (l : list A) :
  P x -> Forall P l ->
  StronglySorted (by_rank rank) l ->
  StronglySorted (by_rank rank) (JS.insert compareFn x l).
Proof.
  intros Px Pl Hs. induction l as [| y l IH]; cbn [JS.insert].
  - repeat constructor.
  - apply Forall_cons_iff in Pl. destruct Pl as [Py Pl].
    apply StronglySorted_inv in Hs. destruct Hs as [Hs Hy].
    rewrite (compare_rank x y Px Py).
    destruct (Qle_bool (rank x) (rank y)) eqn:E; cbn [negb].
    + apply Qle_bool_iff in E.
      constructor; [constructor; assumption |].
      constructor; [exact E |].
      eapply List.Forall_impl; [| exact Hy].
      intros z Hz. unfold by_rank in *. lra.
    + assert (Hlt : (rank y < rank x)%Q).
      { apply Qnot_le_lt. intros C. apply Qle_bool_iff in C. congruence. }
      constructor; [apply IH; assumption |].
      eapply Permutation_Forall;
        [symmetry; apply insert_permutation |].
      constructor; [unfold by_rank; lra | exact Hy].
Qed.

Lemma Array_sort_sorted (l : list A) :
  Forall P l -> StronglySorted (by_rank rank) (JS.Array_sort compareFn l).
Proof.
  induction l as [| x l IH]; cbn [JS.Array_sort]; intros Pl; [constructor |].
  apply Forall_cons_iff in Pl. destruct Pl as [Px Pl].
  apply insert_sorted; [exact Px | apply Array_sort_Forall, Pl | apply IH, Pl].
Qed.

(** Stability: a class of elements of equal rank keeps its order. *)
Section Stable.
Context (p : A -> bool).
Hypothesis same_rank : forall a b,
  p a = true -> p b = true -> (rank a == rank b)%Q.

Lemma insert_stable (x : A) (l : list A) :
  P x -> Forall P l ->
  List.filter p (JS.insert compareFn x l) = List.filter p (x :: l).
Proof.
  intros Px Pl. induction l as [| y l IH]; [reflexivity |].
  apply Forall_cons_iff in Pl. destruct Pl as [Py Pl].
  cbn [JS.insert]. rewrite (compare_rank x y Px Py).
  destruct (Qle_bool (rank x) (rank y)) eqn:E; [reflexivity |].
  cbn [negb List.filter]. rewrite (IH Pl). cbn [List.filter].
  destruct (p x) eqn:Hx, (p y) eqn:Hy; try reflexivity.
  exfalso. rewrite <- Bool.not_true_iff_false in E. apply E.
  apply Qle_bool_iff. rewrite (same_rank x y Hx Hy). apply Qle_refl.
Qed.

Lemma Array_sort_stable (l : list A) :
  Forall P l ->
  List.filter p (JS.Array_sort compareFn l) = List.filter p l.
Proof.
  induction l as [| x l IH]; intros Pl; [reflexivity |].
  apply Forall_cons_iff in Pl. destruct Pl as [Px Pl].
  cbn [JS.Array_sort].
  rewrite insert_stable; [| exact Px | apply Array_sort_Forall, Pl].
  cbn [List.filter]. rewrite (IH Pl). reflexivity.
Qed.
End Stable.
End SortFacts.

(** ** Lists *)

Section ListFacts.
Context {A : Type}.

Lemma StronglySorted_filter (R : A -> A -> Prop) (f : A -> bool)
  (l : list A) :
  StronglySorted R l -> StronglySorted R (List.filter f l).
Proof.
  induction 1 as [| x l Hs IH Hx]; simpl; [constructor |].
  destruct (f x); [| exact IH].
  constructor; [exact IH |].
  apply List.Forall_forall. intros y Hy. apply List.filter_In in Hy.
  rewrite List.Forall_forall in Hx. apply Hx, Hy.
Qed.

Lemma StronglySorted_weaken (R R' : A -> A -> Prop) (P : A -> Prop)
  (l : list A) :
  (forall a b, P a -> P b -> R a b -> R' a b) ->
  Forall P l -> StronglySorted R l -> StronglySorted R' l.
Proof.
  intros HR Pl Hs. induction Hs as [| x l Hs IH Hx]; [constructor |].
  apply Forall_cons_iff in Pl. destruct Pl as [Px Pl].
  constructor; [apply IH, Pl |].
  rewrite List.Forall_forall in *. intros y Hy. apply HR; auto.
Qed.

Lemma StronglySorted_map {B : Type} (R : B -> B -> Prop) (f : A -> B)
  (l : list A) :
  StronglySorted R (List.map f l) ->
  StronglySorted (fun a b => R (f a) (f b)) l.
Proof.
  induction l as [| x l IH]; simpl; intros Hs; [constructor |].
  apply StronglySorted_inv in Hs. destruct Hs as [Hs Hx].
  constructor; [apply IH, Hs |].
  rewrite List.Forall_forall in *. intros y Hy. apply Hx, List.in_map, Hy.
Qed.

(** The head of a strongly sorted list is below every element, the
    relation being reflexive at the head. *)
Lemma StronglySorted_head (R : A -> A -> Prop) (x : A) (l : list A) :
  R x x -> StronglySorted R (x :: l) -> forall y, In y (x :: l) -> R x y.
Proof.
  intros Hx Hs y [<- | Hy]; [exact Hx |].
  apply StronglySorted_inv in Hs. destruct Hs as [_ Hall].
  rewrite List.Forall_forall in Hall. apply Hall, Hy.
Qed.

End ListFacts.

(** ** The state monad *)

Section MonadFacts.
Context {S : Type}.

Lemma bind_run {A B : Type} (m : M S A) (k : A -> M S B) (s : S) :
  bind m k s = k (fst (m s)) (snd (m s)).
Proof. unfold bind. destruct (m s); reflexivity. Qed.

Lemma mapM_cons {A B : Type} (f : A -> M S B) (x : A) (l : list A) (s : S) :
  mapM f (x :: l) s
  = (fst (f x s) :: fst (mapM f l (snd (f x s))),
     snd (mapM f l (snd (f x s)))).
Proof.
  cbn [mapM]. rewrite !bind_run. unfold ret. reflexivity.
Qed.

(** A projection that undoes each callback undoes the whole map. *)
Lemma mapM_section {A B : Type} (f : A -> M S B) (g : B -> A) :
  (forall a s, g (fst (f a s)) = a) ->
  forall l s, List.map g (fst (mapM f l s)) = l.
Proof.
  intros Hg. induction l as [| x l IH]; intros s; [reflexivity |].
  rewrite mapM_cons. cbn [fst List.map]. rewrite Hg, IH. reflexivity.
Qed.

Lemma mapM_Forall {A B : Type} (f : A -> M S B) (Q : B -> Prop) :
  (forall a s, Q (fst (f a s))) ->
  forall l s, Forall Q (fst (mapM f l s)).
Proof.
  intros HQ. induction l as [| x l IH]; intros s; [constructor |].
  rewrite mapM_cons. cbn [fst]. constructor; [apply HQ | apply IH].
Qed.

(** A preorder on states that every step respects is respected by a
    sequence and by a map. *)
Section Preserved.
Context (R : S -> S -> Prop).
Hypothesis R_refl : forall s, R s s.
Hypothesis R_trans : forall a b c, R a b -> R b c -> R a c.

Lemma bind_preserves {A B : Type} (m : M S A) (k : A -> M S B) (s : S) :
  R s (snd (m s)) ->
  (forall a s', R s' (snd (k a s'))) ->
  R s (snd (bind m k s)).
Proof.
  intros Hm Hk. rewrite bind_run. eapply R_trans; [exact Hm | apply Hk].
Qed.

Lemma mapM_preserves {A B : Type} (f : A -> M S B) :
  (forall a s, R s (snd (f a s))) ->
  forall l s, R s (snd (mapM f l s)).
Proof.
  intros Hf. induction l as [| x l IH]; intros s; [apply R_refl |].
  rewrite mapM_cons. cbn [snd]. eapply R_trans; [apply Hf | apply IH].
Qed.
End Preserved.
End MonadFacts.

(** ** Distances, radius and order *)

Lemma le_has_distance (a b : JS.number) :
  JS.le a b = true -> exists q, a = JS.Num q.
Proof. destruct a as [q |]; [eauto | discriminate]. Qed.

Lemma le_refl_Num (q : Q) : JS.le (JS.Num q) (JS.Num q) = true.
Proof. apply Qle_bool_iff, Qle_refl. Qed.

Lemma distance_difference_rank (a b : Located) :
  has_distance a -> has_distance b ->
  JS.gt (distance_difference a b) (JS.of_Z 0)
  = negb (Qle_bool (miles_of a) (miles_of b)).
Proof.
  intros [x Hx] [y Hy]. unfold distance_difference, miles_of.
  rewrite Hx, Hy. cbn. f_equal.
  apply Bool.eq_true_iff_eq. rewrite !Qle_bool_iff.
  change (inject_Z 0) with 0%Q. split; intros; lra.
Qed.

Lemma same_distance_rank (d : JS.number) (a b : Located) :
  Spec.same_distance d a = true -> Spec.same_distance d b = true ->
  (miles_of a == miles_of b)%Q.
Proof.
  unfold Spec.same_distance, miles_of.
  destruct d as [r |]; [| discriminate].
  destruct (distance a) as [x |]; [| discriminate].
  destruct (distance b) as [y |]; [| discriminate].
  intros Hx Hy. apply Qeq_bool_iff in Hx, Hy. rewrite <- Hx, <- Hy. reflexivity.
Qed.

(** Filtering by radius and sorting by distance. *)
Lemma sort_within_radius (radius : Z) (lwd : list Located) :
  let kept := List.filter (within radius) lwd in
  let nearest := JS.Array_sort distance_difference kept in
  Permutation nearest kept
  /\ Forall has_distance nearest
  /\ Spec.ascending nearest
  /\ Spec.ties_in_input_order kept nearest.
Proof.
  intros kept nearest.
  assert (Hkept : Forall has_distance kept).
  { apply List.Forall_forall. intros loc Hloc.
    apply List.filter_In in Hloc. destruct Hloc as [_ Hle].
    apply le_has_distance in Hle. exact Hle. }
  assert (Hnear : Forall has_distance nearest)
    by (apply Array_sort_Forall, Hkept).
  split; [apply Array_sort_permutation | split; [exact Hnear | split]].
  - apply (StronglySorted_weaken (by_rank miles_of) _ has_distance);
      [| exact Hnear
       | apply (Array_sort_sorted _ _ _ distance_difference_rank), Hkept].
    intros a b [x Hx] [y Hy]. unfold by_rank, miles_of.
    rewrite Hx, Hy. cbn. apply Qle_bool_iff.
  - intros d.
    apply (Array_sort_stable _ _ _ distance_difference_rank
             (Spec.same_distance d) (same_distance_rank d)), Hkept.
Qed.

(** ** routerTest.js: frame and intermediate values *)

Section RouterTestFacts.
Context (cfg : Config) (w : World).

Lemma RT_extends_refl (s : RouterTest.State) : RT_extends s s.
Proof.
  split; [reflexivity |].
  exists []. split; [symmetry; apply app_nil_r | constructor].
Qed.

Lemma RT_extends_trans (a b c : RouterTest.State) :
  RT_extends a b -> RT_extends b c -> RT_extends a c.
Proof.
  intros [Hl1 [t1 [Ht1 Hq1]]] [Hl2 [t2 [Ht2 Hq2]]]. split; [congruence |].
  exists (t1 ++ t2). split.
  - rewrite Ht2, Ht1. symmetry. apply app_assoc.
  - apply Forall_app. split; assumption.
Qed.

Lemma RT_emit_extends (e : Effect) (s : RouterTest.State) :
  reads_only e -> RT_extends s (snd (RouterTest.emit e s)).
Proof.
  intros He. split; [reflexivity |].
  exists [e]. split; [reflexivity | constructor; [exact He | constructor]].
Qed.

Lemma RT_getZipCoordinates_extends (z : string) (s : RouterTest.State) :
  RT_extends s (snd (RouterTest.getZipCoordinates w z s)).
Proof. apply RT_emit_extends. exact I. Qed.

Lemma RT_calculateDistanceReal_extends (z1 z2 : string) (s : RouterTest.State) :
  RT_extends s (snd (RouterTest.calculateDistanceReal w z1 z2 s)).
Proof.
  unfold RouterTest.calculateDistanceReal.
  apply (bind_preserves _ RT_extends_trans);
    [apply RT_getZipCoordinates_extends | intros c1 s1].
  apply (bind_preserves _ RT_extends_trans);
    [apply RT_getZipCoordinates_extends | intros c2 s2].
  apply RT_extends_refl.
Qed.

Lemma RT_withDistance_extends (z : string) (loc : Location.t)
  (s : RouterTest.State) :
  RT_extends s (snd (RouterTest.withDistance w z loc s)).
Proof.
  unfold RouterTest.withDistance.
  apply (bind_preserves _ RT_extends_trans);
    [apply RT_calculateDistanceReal_extends | intros d s1].
  apply RT_extends_refl.
Qed.

Lemma RT_withDistance_location (z : string) (loc : Location.t)
  (s : RouterTest.State) :
  location (fst (RouterTest.withDistance w z loc s)) = loc.
Proof.
  unfold RouterTest.withDistance. rewrite bind_run. reflexivity.
Qed.

Lemma RT_getNearestLocations_run (z : string) (locations : list Location.t)
  (s : RouterTest.State) :
  RouterTest.getNearestLocations cfg w z locations s
  = (JS.Array_sort distance_difference
       (List.filter (within (ZIP_RADIUS_MILES cfg))
          (fst (mapM (RouterTest.withDistance w z) locations s))),
     snd (mapM (RouterTest.withDistance w z) locations s)).
Proof.
  unfold RouterTest.getNearestLocations. rewrite bind_run. reflexivity.
Qed.

Lemma RT_getNearestLocations_extends (z : string)
  (locations : list Location.t) (s : RouterTest.State) :
  RT_extends s (snd (RouterTest.getNearestLocations cfg w z locations s)).
Proof.
  rewrite RT_getNearestLocations_run. cbn [snd].
  apply (mapM_preserves _ RT_extends_refl RT_extends_trans).
  intros loc s'. apply RT_withDistance_extends.
Qed.

Lemma RT_withCapacity_extends (loc : Located) (s : RouterTest.State) :
  RT_extends s (snd (RouterTest.withCapacity cfg w loc s)).
Proof.
  unfold RouterTest.withCapacity, RouterTest.checkLocationCapacity.
  apply (bind_preserves _ RT_extends_trans); [| intros c s1; apply RT_extends_refl].
  apply (bind_preserves _ RT_extends_trans).
  - destruct (String.eqb (JSONBIN_API_KEY cfg) "");
      [apply RT_extends_refl | apply RT_emit_extends; exact I].
  - intros [data |] s1; apply RT_extends_refl.
Qed.

Lemma RT_withCapacity_located (loc : Located) (s : RouterTest.State) :
  located (fst (RouterTest.withCapacity cfg w loc s)) = loc.
Proof.
  unfold RouterTest.withCapacity. rewrite bind_run. reflexivity.
Qed.

Lemma RT_candidates_extend (l : list Located) (s : RouterTest.State) :
  RT_extends s (snd (mapM (RouterTest.withCapacity cfg w) l s)).
Proof.
  apply (mapM_preserves _ RT_extends_refl RT_extends_trans).
  intros loc s'. apply RT_withCapacity_extends.
Qed.

End RouterTestFacts.

(** ** production-router.js: frame and intermediate values *)

Section ProductionRouterFacts.
Context (cfg : Config) (w : World).

Lemma PR_same_trace (s s' : ProductionRouter.State) :
  ProductionRouter.lead s' = ProductionRouter.lead s ->
  ProductionRouter.trace s' = ProductionRouter.trace s ->
  PR_extends s s'.
Proof.
  intros Hl Ht. split; [exact Hl |].
  exists []. split; [rewrite Ht; symmetry; apply app_nil_r | constructor].
Qed.

Lemma PR_extends_refl (s : ProductionRouter.State) : PR_extends s s.
Proof. apply PR_same_trace; reflexivity. Qed.

Lemma PR_extends_trans (a b c : ProductionRouter.State) :
  PR_extends a b -> PR_extends b c -> PR_extends a c.
Proof.
  intros [Hl1 [t1 [Ht1 Hq1]]] [Hl2 [t2 [Ht2 Hq2]]]. split; [congruence |].
  exists (t1 ++ t2). split.
  - rewrite Ht2, Ht1. symmetry. apply app_assoc.
  - apply Forall_app. split; assumption.
Qed.

Lemma PR_emit_extends (e : Effect) (s : ProductionRouter.State) :
  reads_only e -> PR_extends s (snd (ProductionRouter.emit e s)).
Proof.
  intros He. split; [reflexivity |].
  exists [e]. split; [reflexivity | constructor; [exact He | constructor]].
Qed.

Lemma PR_set_metrics_extends (f : ProductionRouter.Metrics -> ProductionRouter.Metrics)
  (s : ProductionRouter.State) :
  PR_extends s (snd (ProductionRouter.set_metrics f s)).
Proof. apply PR_same_trace; reflexivity. Qed.

Lemma PR_cache_set_extends (k : string) (v : JS.number)
  (s : ProductionRouter.State) :
  PR_extends s (snd (ProductionRouter.cache_set k v s)).
Proof. apply PR_same_trace; reflexivity. Qed.

Lemma PR_calculateRealDistance_extends (z1 z2 : string)
  (s : ProductionRouter.State) :
  PR_extends s (snd (ProductionRouter.calculateRealDistance w z1 z2 s)).
Proof.
  unfold ProductionRouter.calculateRealDistance.
  apply (bind_preserves _ PR_extends_trans);
    [apply PR_emit_extends; exact I | intros c1 s1].
  apply (bind_preserves _ PR_extends_trans);
    [apply PR_emit_extends; exact I | intros c2 s2].
  apply PR_extends_refl.
Qed.

Lemma PR_withDistance_extends (cache0 : gmap string JS.number) (z : string)
  (loc : Location.t) (s : ProductionRouter.State) :
  PR_extends s (snd (ProductionRouter.withDistance w cache0 z loc s)).
Proof.
  unfold ProductionRouter.withDistance.
  destruct (cache0 !! ProductionRouter.cacheKey z loc) as [d |].
  - apply (bind_preserves _ PR_extends_trans);
      [apply PR_set_metrics_extends | intros u s1; apply PR_extends_refl].
  - apply (bind_preserves _ PR_extends_trans);
      [apply PR_calculateRealDistance_extends | intros d s1].
    apply (bind_preserves _ PR_extends_trans);
      [apply PR_cache_set_extends | intros u s2; apply PR_extends_refl].
Qed.

Lemma PR_withDistance_location (cache0 : gmap string JS.number) (z : string)
  (loc : Location.t) (s : ProductionRouter.State) :
  location (fst (ProductionRouter.withDistance w cache0 z loc s)) = loc.
Proof.
  unfold ProductionRouter.withDistance.
  destruct (cache0 !! ProductionRouter.cacheKey z loc) as [d |];
    rewrite !bind_run; reflexivity.
Qed.

Lemma PR_getNearestLocationsReal_run (z : string)
  (locations : list Location.t) (s : ProductionRouter.State) :
  ProductionRouter.getNearestLocationsReal cfg w z locations s
  = (JS.Array_sort distance_difference
       (List.filter (within (ZIP_RADIUS_MILES cfg))
          (fst (mapM (ProductionRouter.withDistance w
                        (ProductionRouter.cache s) z) locations s))),
     snd (mapM (ProductionRouter.withDistance w
                  (ProductionRouter.cache s) z) locations s)).
Proof.
  unfold ProductionRouter.getNearestLocationsReal.
  rewrite !bind_run. reflexivity.
Qed.

Lemma PR_getNearestLocationsReal_extends (z : string)
  (locations : list Location.t) (s : ProductionRouter.State) :
  PR_extends s
    (snd (ProductionRouter.getNearestLocationsReal cfg w z locations s)).
Proof.
  rewrite PR_getNearestLocationsReal_run. cbn [snd].
  apply (mapM_preserves _ PR_extends_refl PR_extends_trans).
  intros loc s'. apply PR_withDistance_extends.
Qed.

Lemma PR_getSimulatedCapacity_extends (s : ProductionRouter.State) :
  PR_extends s (snd (ProductionRouter.getSimulatedCapacity w s)).
Proof. apply PR_same_trace; reflexivity. Qed.

Lemma PR_withCapacity_extends (loc : Located) (s : ProductionRouter.State) :
  PR_extends s (snd (ProductionRouter.withCapacity cfg w loc s)).
Proof.
  unfold ProductionRouter.withCapacity, ProductionRouter.getLocationCapacityReal.
  apply (bind_preserves _ PR_extends_trans); [| intros c s1; apply PR_extends_refl].
  destruct (String.eqb (JSONBIN_API_KEY cfg) "");
    [apply PR_getSimulatedCapacity_extends |].
  apply (bind_preserves _ PR_extends_trans); [apply PR_extends_refl |].
  intros s0 s1.
  apply (bind_preserves _ PR_extends_trans);
    [apply PR_emit_extends; exact I | intros u s2].
  destruct (jsonbin_capacity w _ _);
    [apply PR_extends_refl | apply PR_getSimulatedCapacity_extends].
Qed.

Lemma PR_withCapacity_located (loc : Located) (s : ProductionRouter.State) :
  located (fst (ProductionRouter.withCapacity cfg w loc s)) = loc.
Proof.
  unfold ProductionRouter.withCapacity. rewrite bind_run. reflexivity.
Qed.

Lemma PR_candidates_extend (l : list Located) (s : ProductionRouter.State) :
  PR_extends s (snd (ProductionRouter.checkLocationCapacities cfg w l s)).
Proof.
  apply (mapM_preserves _ PR_extends_refl PR_extends_trans).
  intros loc s'. apply PR_withCapacity_extends.
Qed.

End ProductionRouterFacts.

(** ** Radius filtering and order of the candidates *)

(** C3, as amended.  For every lead postal code and location list, in
    routerTest and in production-router (where a cached distance stands for
    the computed one), the list handed to capacity checking and selection
    consists exactly of the locations whose distance is at most the
    configured radius, ordered ascending by distance; locations at the same
    distance keep the order of the input list. *)
Theorem nearest_locations_filtered_and_sorted
  (cfg : Config) (w : World) (leadZip : string)
  (locations : list Location.t) :
  (forall s : RouterTest.State,
     let measured := fst (mapM (RouterTest.withDistance w leadZip) locations s) in
     let kept := List.filter (within (ZIP_RADIUS_MILES cfg)) measured in
     let nearest :=
       fst (RouterTest.getNearestLocations cfg w leadZip locations s) in
     List.map location measured = locations
     /\ Permutation nearest kept
     /\ Spec.ascending nearest
     /\ Spec.ties_in_input_order kept nearest)
  /\
  (forall s : ProductionRouter.State,
     let measured :=
       fst (mapM (ProductionRouter.withDistance w (ProductionRouter.cache s)
                    leadZip) locations s) in
     let kept := List.filter (within (ZIP_RADIUS_MILES cfg)) measured in
     let nearest :=
       fst (ProductionRouter.getNearestLocationsReal cfg w leadZip locations s) in
     List.map location measured = locations
     /\ Permutation nearest kept
     /\ Spec.ascending nearest
     /\ Spec.ties_in_input_order kept nearest).
Proof.
  split; intros s measured kept nearest.
  - split; [apply mapM_section; intros; apply RT_withDistance_location |].
    subst nearest. rewrite RT_getNearestLocations_run. cbn [fst].
    destruct (sort_within_radius (ZIP_RADIUS_MILES cfg) measured)
      as [Hp [_ [Ha Ht]]].
    auto.
  - split; [apply mapM_section; intros; apply PR_withDistance_location |].
    subst nearest. rewrite PR_getNearestLocationsReal_run. cbn [fst].
    destruct (sort_within_radius (ZIP_RADIUS_MILES cfg) measured)
      as [Hp [_ [Ha Ht]]].
    auto.
Qed.

(** C3 fails as stated: three locations at the lead's own postal code, all
    at distance zero, come out in the order of the input list, "loc_b",
    "loc_a", "loc_c", which is not the order of their identifiers, read
    forwards or backwards. *)
Lemma ties_not_broken_by_identifier :
  let nearest :=
    fst (RouterTest.getNearestLocations CONFIG Example.morning "90001"
           [Example.loc_b; Example.loc_a; Example.loc_c]
           (Example.test_start Example.lead_001)) in
  List.map (fun loc => (Location.id (location loc), distance loc)) nearest
  = [("loc_b", JS.of_Z 0); ("loc_a", JS.of_Z 0); ("loc_c", JS.of_Z 0)]
  /\ ~ Spec.ties_by_identifier nearest
  /\ ~ Spec.ties_by_identifier (List.rev nearest).
Proof.
  intros nearest.
  assert (E : nearest
              = List.map (fun loc => {| location := loc; distance := JS.of_Z 0 |})
                  [Example.loc_b; Example.loc_a; Example.loc_c])
    by (vm_compute; reflexivity).
  rewrite E. split; [reflexivity | split]; intros Hs.
  - apply StronglySorted_inv in Hs. destruct Hs as [_ Hb].
    apply Forall_inv in Hb. specialize (Hb eq_refl). discriminate Hb.
  - cbn [List.map List.rev app] in Hs.
    apply StronglySorted_inv in Hs. destruct Hs as [_ Hc].
    apply Forall_inv in Hc. specialize (Hc eq_refl). discriminate Hc.
Qed.

(** ** The sentinel distance *)

Section Sentinel.
Context (cfg : Config) (w : World).

Lemma RT_sentinel (zip1 zip2 : string) (s : RouterTest.State) :
  let coords1 := RouterTest.getZipCoordinates w zip1 s in
  let coords2 := RouterTest.getZipCoordinates w zip2 (snd coords1) in
  fst coords1 = None \/ fst coords2 = None ->
  fst (RouterTest.calculateDistanceReal w zip1 zip2 s) = JS.of_Z 999.
Proof.
  intros coords1 coords2 Hnone.
  unfold RouterTest.calculateDistanceReal. rewrite !bind_run.
  fold coords1. fold coords2. cbn [ret fst].
  destruct Hnone as [-> | ->]; [reflexivity |].
  destruct (fst coords1); reflexivity.
Qed.

Lemma PR_sentinel (zip1 zip2 : string) (s : ProductionRouter.State) :
  let coords1 := ProductionRouter.getZipCoordinates w zip1 s in
  let coords2 := ProductionRouter.getZipCoordinates w zip2 (snd coords1) in
  fst coords1 = None \/ fst coords2 = None ->
  fst (ProductionRouter.calculateRealDistance w zip1 zip2 s) = JS.of_Z 999.
Proof.
  intros coords1 coords2 Hnone.
  unfold ProductionRouter.calculateRealDistance. rewrite !bind_run.
  fold coords1. fold coords2. cbn [ret fst].
  destruct Hnone as [-> | ->]; [reflexivity |].
  destruct (fst coords1); reflexivity.
Qed.



Lemma sentinel_out_of_radius (loc : Located) :
  ZIP_RADIUS_MILES cfg < 999 ->
  distance loc = JS.of_Z 999 -> within (ZIP_RADIUS_MILES cfg) loc = false.
Proof.
  intros Hradius Hd. unfold within. rewrite Hd. cbn.
  apply Bool.not_true_iff_false. intros C. apply Qle_bool_iff in C.
  rewrite <- Zle_Qle in C. lia.
Qed.

End Sentinel.



(** ** routerTest.js: the outcome of a call *)

Section RouterTestOutcome.
Context (cfg : Config) (w : World).

Lemma RT_routeLead_outcome (locations : list Location.t)
  (s : RouterTest.State) (z : string) :
  Lead.zip (RouterTest.lead s) = Some z -> z <> "" ->
  let s0 := RouterTest.scored w s in
  let near := RouterTest.getNearestLocations cfg w z locations s0 in
  let lwc := fst (mapM (RouterTest.withCapacity cfg w) (fst near) (snd near)) in
  fst (RouterTest.routeLead cfg w locations s)
  = RT_summary cfg (RouterTest.lead s0) locations (fst near) lwc.
Proof.
  intros Hzip Hz s0 near lwc.
  unfold RouterTest.routeLead. rewrite bind_run. cbn [get fst snd].
  rewrite Hzip. destruct z as [| c z]; [congruence |].
  destruct locations as [| l0 ls]; [reflexivity |].
  rewrite bind_run.
  change (snd (RouterTest.assign_finalScore
                 (RouterTest.calculateLeadScore w (RouterTest.lead s)) s))
    with s0.
  rewrite bind_run. fold near.
  pose proof (RT_getNearestLocations_extends cfg w (String c z) (l0 :: ls) s0)
    as [Hlead1 _].
  fold near in Hlead1.
  unfold RT_summary.
  destruct (fst near) as [| n0 ns] eqn:Enear.
  - rewrite !bind_run. cbn. rewrite Hlead1. reflexivity.
  - rewrite bind_run. fold lwc.
    pose proof (RT_candidates_extend cfg w (n0 :: ns) (snd near)) as [Hlead2 _].
    set (s2 := snd (mapM (RouterTest.withCapacity cfg w) (n0 :: ns) (snd near)))
      in *.
    assert (Hlead : RouterTest.lead s2 = RouterTest.lead s0) by congruence.
    destruct (List.filter RouterTest.is_available lwc) as [| a0 avail] eqn:Eav.
    + destruct (if FALLBACK_ENABLED cfg then RouterTest.fallbackLocation lwc
                else None) as [fb |].
      * rewrite !bind_run. cbn. rewrite Hlead. reflexivity.
      * unfold RouterTest.noCapacity. rewrite !bind_run. cbn.
        rewrite Hlead. reflexivity.
    + rewrite bind_run. cbn [get fst snd]. rewrite Hlead.
      destruct (finalScore_ge (RouterTest.lead s0) (HIGH_SCORE_THRESHOLD cfg))
        eqn:Ehigh.
      * unfold RouterTest.routed. rewrite !bind_run. cbn.
        rewrite Hlead, Ehigh. reflexivity.
      * destruct (List.find RouterTest.is_low_traffic (a0 :: avail)) as [lt |];
          unfold RouterTest.routed; rewrite !bind_run; cbn;
          rewrite Hlead, Ehigh; reflexivity.
Qed.

End RouterTestOutcome.

(** ** What a call does to the lead object and to the outside *)

Ltac rt_frame :=
  repeat first
    [ apply RT_extends_refl
    | apply RT_emit_extends; exact I
    | apply (bind_preserves _ RT_extends_trans); [| intros ? ?] ].

Ltac pr_frame :=
  repeat first
    [ apply PR_extends_refl
    | apply PR_emit_extends; exact I
    | apply PR_set_metrics_extends
    | apply (bind_preserves _ PR_extends_trans); [| intros ? ?] ].

Section CallFrame.
Context (cfg : Config) (w : World).

(** routerTest: a lead without a postal code is turned away at once. *)
Lemma RT_routeLead_missing_zip (locations : list Location.t)
  (s : RouterTest.State) :
  JS.truthy (Lead.zip (RouterTest.lead s)) = false ->
  RouterTest.routeLead cfg w locations s
  = (RouterTest.Failed "INVALID_ZIP" "Invalid zip code" None None, s).
Proof.
  intros Hzip. unfold RouterTest.routeLead. rewrite bind_run. cbn [get fst snd].
  destruct (Lead.zip (RouterTest.lead s)) as [[| c z] |];
    [reflexivity | discriminate Hzip | reflexivity].
Qed.

(** routerTest: past validation, the rest of the call starts from the
    scored state and leaves the lead object alone. *)
Lemma RT_routeLead_extends_scored (locations : list Location.t)
  (s : RouterTest.State) :
  JS.truthy (Lead.zip (RouterTest.lead s)) = true ->
  locations <> [] ->
  RT_extends (RouterTest.scored w s)
    (snd (RouterTest.routeLead cfg w locations s)).
Proof.
  intros Hzip Hlocs. unfold RouterTest.routeLead.
  rewrite bind_run. cbn [get fst snd].
  destruct (Lead.zip (RouterTest.lead s)) as [[| c z] |];
    [discriminate Hzip | | discriminate Hzip].
  destruct locations as [| l0 ls]; [congruence |].
  rewrite bind_run.
  change (snd (RouterTest.assign_finalScore
                 (RouterTest.calculateLeadScore w (RouterTest.lead s)) s))
    with (RouterTest.scored w s).
  apply (bind_preserves _ RT_extends_trans);
    [apply RT_getNearestLocations_extends | intros nearest s1].
  destruct nearest as [| n0 ns]; [rt_frame |].
  apply (bind_preserves _ RT_extends_trans);
    [apply RT_candidates_extend | intros lwc s2].
  destruct (List.filter RouterTest.is_available lwc) as [| a0 avail].
  - destruct (if FALLBACK_ENABLED cfg then RouterTest.fallbackLocation lwc
              else None) as [fb |];
      [| unfold RouterTest.noCapacity]; unfold RouterTest.logRoutingDecision;
      rt_frame.
  - apply (bind_preserves _ RT_extends_trans); [apply RT_extends_refl |].
    intros s3 s4.
    destruct (finalScore_ge (RouterTest.lead s3) (HIGH_SCORE_THRESHOLD cfg));
      [| destruct (List.find RouterTest.is_low_traffic (a0 :: avail))];
      unfold RouterTest.routed, RouterTest.logRoutingDecision; rt_frame.
Qed.

(** production-router: a lead that fails validation is turned away with
    nothing done but the count of the call. *)
Lemma PR_routeLead_invalid (locations : list Location.t)
  (s : ProductionRouter.State) :
  ProductionRouter.validateLead (ProductionRouter.lead s) = false ->
  ProductionRouter.routeLead cfg w locations s
  = (ProductionRouter.Failure "INVALID_LEAD" "Lead validation failed",
     snd (ProductionRouter.set_metrics ProductionRouter.count_apiCall s)).
Proof.
  intros Hv. unfold ProductionRouter.routeLead. rewrite !bind_run.
  cbn [get fst snd ProductionRouter.set_metrics modify ProductionRouter.lead].
  rewrite Hv. reflexivity.
Qed.

Lemma PR_routeLead_extends_scored (locations : list Location.t)
  (s : ProductionRouter.State) :
  ProductionRouter.validateLead (ProductionRouter.lead s) = true ->
  PR_extends (ProductionRouter.scored w s)
    (snd (ProductionRouter.routeLead cfg w locations s)).
Proof.
  intros Hv. unfold ProductionRouter.routeLead. rewrite !bind_run.
  cbn [get fst snd ProductionRouter.set_metrics modify ProductionRouter.lead].
  rewrite Hv. cbn [negb].
  assert (Hz : exists z, Lead.zip (ProductionRouter.lead s) = Some z).
  { unfold ProductionRouter.validateLead in Hv.
    destruct (Lead.zip (ProductionRouter.lead s)) as [z |]; [eauto |].
    rewrite Bool.andb_false_r in Hv. discriminate Hv. }
  destruct Hz as [z Hz]. rewrite Hz. rewrite bind_run.
  match goal with
  | |- PR_extends _ (snd (bind _ _ ?s1)) =>
      change s1 with (ProductionRouter.scored w s)
  end.
  apply (bind_preserves _ PR_extends_trans);
    [apply PR_getNearestLocationsReal_extends | intros nearest s1].
  destruct nearest as [| n0 ns];
    [unfold ProductionRouter.logRoutingEvent; pr_frame |].
  apply (bind_preserves _ PR_extends_trans);
    [apply PR_candidates_extend | intros lwc s2].
  apply (bind_preserves _ PR_extends_trans); [apply PR_extends_refl |].
  intros s3 s4.
  destruct (ProductionRouter.selectOptimalLocation cfg
              (ProductionRouter.lead s3) lwc) as [sel |];
    unfold ProductionRouter.logRoutingEvent; pr_frame.
Qed.

End CallFrame.

Lemma set_finalScore_same_intake (score : JS.number) (lead : Lead.t) :
  Lead.finalScore (Lead.set_finalScore score lead) = Some score
  /\ same_intake lead (Lead.set_finalScore score lead).
Proof. repeat split. Qed.

Lemma same_intake_unchanged (score : JS.number) (before after : Lead.t) :
  Lead.finalScore after = Some score ->
  same_intake before after ->
  after = before <-> Lead.finalScore before = Some score.
Proof.
  intros Hf [H1 [H2 [H3 [H4 [H5 [H6 H7]]]]]]. split.
  - intros <-. exact Hf.
  - intros Hb. destruct before, after. cbn in *. congruence.
Qed.

(** C10, as amended.  Every routing call that passes input validation (in
    routerTest: a postal code and at least one location; in
    production-router: [validateLead]) assigns the computed score to
    [finalScore] of the caller's lead object, as the first effect of the
    call, before any request for coordinates, and nothing later in the
    call touches the object: when the call returns, whatever the outcome
    (the out-of-range and no-capacity failures included), [finalScore] of
    the object is the computed score and its other properties are as
    they were.  The object is left as it was exactly when it already
    carried that score. *)
Theorem finalScore_written_in_place (cfg : Config) (w : World)
  (locations : list Location.t) :
  (forall s : RouterTest.State,
     JS.truthy (Lead.zip (RouterTest.lead s)) = true ->
     locations <> [] ->
     let score := RouterTest.calculateLeadScore w (RouterTest.lead s) in
     let s' := snd (RouterTest.routeLead cfg w locations s) in
     Lead.finalScore (RouterTest.lead s') = Some score
     /\ same_intake (RouterTest.lead s) (RouterTest.lead s')
     /\ (RouterTest.lead s' = RouterTest.lead s
         <-> Lead.finalScore (RouterTest.lead s) = Some score)
     /\ exists rest,
          RouterTest.trace s'
          = RouterTest.trace s ++ Write_finalScore score :: rest)
  /\
  (forall s : ProductionRouter.State,
     ProductionRouter.validateLead (ProductionRouter.lead s) = true ->
     let score :=
       ProductionRouter.calculateLeadScore w (ProductionRouter.lead s) in
     let s' := snd (ProductionRouter.routeLead cfg w locations s) in
     Lead.finalScore (ProductionRouter.lead s') = Some score
     /\ same_intake (ProductionRouter.lead s) (ProductionRouter.lead s')
     /\ (ProductionRouter.lead s' = ProductionRouter.lead s
         <-> Lead.finalScore (ProductionRouter.lead s) = Some score)
     /\ exists rest,
          ProductionRouter.trace s'
          = ProductionRouter.trace s ++ Write_finalScore score :: rest).
Proof.
  split.
  - intros s Hzip Hlocs score s'.
    destruct (RT_routeLead_extends_scored cfg w locations s Hzip Hlocs)
      as [Hlead [rest [Htrace _]]].
    fold s' in Hlead, Htrace.
    assert (Hs : Lead.finalScore (RouterTest.lead s') = Some score
                 /\ same_intake (RouterTest.lead s) (RouterTest.lead s'))
      by (rewrite Hlead; apply set_finalScore_same_intake).
    destruct Hs as [Hf Hi].
    split; [exact Hf |]. split; [exact Hi |].
    split; [apply same_intake_unchanged; assumption |].
    exists rest. rewrite Htrace. cbn. rewrite <- app_assoc. reflexivity.
  - intros s Hv score s'.
    destruct (PR_routeLead_extends_scored cfg w locations s Hv)
      as [Hlead [rest [Htrace _]]].
    fold s' in Hlead, Htrace.
    assert (Hs : Lead.finalScore (ProductionRouter.lead s') = Some score
                 /\ same_intake (ProductionRouter.lead s)
                      (ProductionRouter.lead s'))
      by (rewrite Hlead; apply set_finalScore_same_intake).
    destruct Hs as [Hf Hi].
    split; [exact Hf |]. split; [exact Hi |].
    split; [apply same_intake_unchanged; assumption |].
    exists rest. rewrite Htrace. cbn. rewrite <- app_assoc. reflexivity.
Qed.

(** A call that ends out of range: the lead with the four-digit postal
    code arrives without a score, and its object carries the score of 50
    when the call returns. *)
Lemma finalScore_written_in_place_witness :
  let s := Example.test_start Example.lead_short_zip in
  let result :=
    RouterTest.routeLead CONFIG Example.night Example.testLocations s in
  RouterTest.failure_code (fst result) = Some "OUT_OF_RANGE"
  /\ Lead.finalScore Example.lead_short_zip = None
  /\ Lead.finalScore (RouterTest.lead (snd result)) = Some (JS.of_Z 50)
  /\ RouterTest.lead (snd result) <> Example.lead_short_zip
  /\ exists rest,
       RouterTest.trace (snd result) = Write_finalScore (JS.of_Z 50) :: rest.
Proof.
  intros s result. split; [reflexivity |]. split; [reflexivity |].
  destruct (finalScore_written_in_place CONFIG Example.night
              Example.testLocations) as [Hrt _].
  destruct (Hrt s) as [Hf [_ [Hsame Htrace]]]; [reflexivity | discriminate |].
  split; [exact Hf |].
  split; [| exact Htrace].
  intros E. apply Hsame in E. discriminate E.
Defined.

(** C10 fails as stated: a call that passes validation and ends in
    failure can leave its input as it was.  The lead object of a call
    that ended out of range is routed again, in routerTest and in
    production-router; the second call passes validation, ends out of
    range, and returns the object as it received it. *)
Lemma second_call_leaves_lead_unchanged :
  (let first :=
     RouterTest.routeLead CONFIG Example.night Example.testLocations
       (Example.test_start Example.lead_short_zip) in
   let second :=
     RouterTest.routeLead CONFIG Example.night Example.testLocations
       (snd first) in
   JS.truthy (Lead.zip (RouterTest.lead (snd first))) = true
   /\ RouterTest.failure_code (fst second) = Some "OUT_OF_RANGE"
   /\ RouterTest.lead (snd second) = RouterTest.lead (snd first))
  /\ (let first :=
        ProductionRouter.routeLead CONFIG Example.next_morning_offline
          Example.testLocations
          (Example.production_start Example.lead_002) in
      let second :=
        ProductionRouter.routeLead CONFIG Example.next_morning_offline
          Example.testLocations (snd first) in
      ProductionRouter.validateLead
        (ProductionRouter.lead (snd first)) = true
      /\ ProductionRouter.failure_code (fst second) = Some "OUT_OF_RANGE"
      /\ ProductionRouter.lead (snd second)
         = ProductionRouter.lead (snd first)).
Proof. vm_compute. repeat split. Qed.

(** ** Input validation *)

(** C5.  production-router turns away, with the invalid-input failure and
    without a request for coordinates or capacity, every lead whose postal
    code is missing or is not five ASCII digits; routerTest does so for
    every lead whose postal code is missing.  But routerTest lets a
    malformed postal code through: the lead with postal code "9021" is
    scored, ten requests for coordinates are made for the five test
    locations, and the call ends out of range instead of invalid. *)
Theorem malformed_zip_reaches_geocoding :
  (forall cfg w locations (s : ProductionRouter.State),
     Spec.well_formed_zip (ProductionRouter.lead s) = false ->
     let result := ProductionRouter.routeLead cfg w locations s in
     ProductionRouter.failure_code (fst result) = Some "INVALID_LEAD"
     /\ ProductionRouter.trace (snd result) = ProductionRouter.trace s
     /\ ProductionRouter.cache (snd result) = ProductionRouter.cache s
     /\ ProductionRouter.lead (snd result) = ProductionRouter.lead s)
  /\ (forall cfg w locations (s : RouterTest.State),
        JS.truthy (Lead.zip (RouterTest.lead s)) = false ->
        let result := RouterTest.routeLead cfg w locations s in
        RouterTest.failure_code (fst result) = Some "INVALID_ZIP"
        /\ snd result = s)
  /\ (let result :=
        RouterTest.routeLead CONFIG Example.night Example.testLocations
          (Example.test_start Example.lead_short_zip) in
      Spec.well_formed_zip Example.lead_short_zip = false
      /\ RouterTest.failure_code (fst result) = Some "OUT_OF_RANGE"
      /\ List.filter (fun e => match e with Fetch_zip _ => true | _ => false end)
           (RouterTest.trace (snd result))
         = [ Fetch_zip "9021"; Fetch_zip "90001"; Fetch_zip "9021";
             Fetch_zip "90210"; Fetch_zip "9021"; Fetch_zip "90001";
             Fetch_zip "9021"; Fetch_zip "90401"; Fetch_zip "9021";
             Fetch_zip "10001" ]).
Proof.
  split; [| split].
  - intros cfg w locations s Hzip result.
    assert (Hv : ProductionRouter.validateLead (ProductionRouter.lead s) = false).
    { unfold ProductionRouter.validateLead. unfold Spec.well_formed_zip in Hzip.
      destruct (Lead.zip (ProductionRouter.lead s)) as [z |];
        [rewrite Hzip |]; apply Bool.andb_false_r. }
    subst result. rewrite (PR_routeLead_invalid cfg w locations s Hv).
    repeat split; reflexivity.
  - intros cfg w locations s Hzip result. subst result.
    rewrite (RT_routeLead_missing_zip cfg w locations s Hzip).
    split; reflexivity.
  - vm_compute. repeat split; reflexivity.
Qed.

(** ** Selection *)

Lemma candidates_in_distance_order (nearest : list Located)
  (lwc : list Candidate) :
  List.map located lwc = nearest ->
  Forall has_distance nearest -> Spec.ascending nearest ->
  Forall candidate_measured lwc /\ StronglySorted candidate_le lwc.
Proof.
  intros <- Hd Ha. split.
  - rewrite List.Forall_map in Hd. exact Hd.
  - apply StronglySorted_map in Ha. exact Ha.
Qed.

Lemma head_is_closest (x : Candidate) (l : list Candidate) :
  candidate_measured x -> StronglySorted candidate_le (x :: l) ->
  Spec.closest x (x :: l).
Proof.
  intros [q Hq] Hs. split; [left; reflexivity |].
  apply (StronglySorted_head candidate_le); [| exact Hs].
  unfold candidate_le, candidate_distance. rewrite Hq. apply le_refl_Num.
Qed.

Lemma filter_measured (f : Candidate -> bool) (l : list Candidate) :
  Forall candidate_measured l -> Forall candidate_measured (List.filter f l).
Proof.
  intros Hl. apply List.Forall_forall. intros c Hc.
  apply List.filter_In in Hc. destruct Hc as [Hc _].
  rewrite List.Forall_forall in Hl. apply Hl, Hc.
Qed.


Section Candidates.
Context (cfg : Config) (w : World).

Lemma RT_candidates_sorted (z : string) (locations : list Location.t)
  (s : RouterTest.State) :
  let near := RouterTest.getNearestLocations cfg w z locations s in
  let lwc := fst (mapM (RouterTest.withCapacity cfg w) (fst near) (snd near)) in
  Forall candidate_measured lwc /\ StronglySorted candidate_le lwc.
Proof.
  intros near lwc.
  apply (candidates_in_distance_order (fst near)).
  - apply mapM_section. intros; apply RT_withCapacity_located.
  - subst near. rewrite RT_getNearestLocations_run. cbn [fst].
    apply sort_within_radius.
  - subst near. rewrite RT_getNearestLocations_run. cbn [fst].
    apply sort_within_radius.
Qed.


(** The in-range candidates, when there are any, are those of a lead that
    passed validation. *)
Lemma RT_inRangeCandidates_run (locations : list Location.t)
  (s : RouterTest.State) :
  RouterTest.inRangeCandidates cfg w locations s <> [] ->
  exists z,
    Lead.zip (RouterTest.lead s) = Some z /\ z <> ""
    /\ let near := RouterTest.getNearestLocations cfg w z locations
                     (RouterTest.scored w s) in
       RouterTest.inRangeCandidates cfg w locations s
       = fst (mapM (RouterTest.withCapacity cfg w) (fst near) (snd near)).
Proof.
  unfold RouterTest.inRangeCandidates.
  destruct (Lead.zip (RouterTest.lead s)) as [[| c z] |]; try congruence.
  intros _. exists (String c z). split; [reflexivity | split; [discriminate |]].
  unfold RouterTest.gatherCandidates. rewrite bind_run. reflexivity.
Qed.


Lemma PR_routeLead_outcome (locations : list Location.t)
  (s : ProductionRouter.State) (z : string) :
  Lead.zip (ProductionRouter.lead s) = Some z ->
  ProductionRouter.validateLead (ProductionRouter.lead s) = true ->
  let s0 := ProductionRouter.scored w s in
  let near := ProductionRouter.getNearestLocationsReal cfg w z locations s0 in
  let lwc :=
    fst (ProductionRouter.checkLocationCapacities cfg w (fst near) (snd near)) in
  fst (ProductionRouter.routeLead cfg w locations s)
  = PR_summary cfg (ProductionRouter.lead s0) (fst near) lwc.
Proof.
  intros Hzip Hv s0 near lwc.
  unfold ProductionRouter.routeLead. rewrite !bind_run.
  cbn [get fst snd ProductionRouter.set_metrics modify ProductionRouter.lead].
  rewrite Hv, Hzip. cbn [negb]. rewrite bind_run.
  match goal with
  | |- fst (bind _ _ ?s1) = _ => change s1 with s0
  end.
  rewrite bind_run. fold near.
  pose proof (PR_getNearestLocationsReal_extends cfg w z locations s0)
    as [Hlead1 _].
  fold near in Hlead1.
  unfold PR_summary.
  destruct (fst near) as [| n0 ns] eqn:Enear.
  - rewrite !bind_run. reflexivity.
  - rewrite bind_run. fold lwc.
    pose proof (PR_candidates_extend cfg w (n0 :: ns) (snd near)) as [Hlead2 _].
    set (s2 := snd (ProductionRouter.checkLocationCapacities cfg w (n0 :: ns)
                      (snd near))) in *.
    assert (Hlead : ProductionRouter.lead s2 = ProductionRouter.lead s0)
      by congruence.
    rewrite bind_run. cbn [get fst snd]. rewrite Hlead.
    destruct (ProductionRouter.selectOptimalLocation cfg
                (ProductionRouter.lead s0) lwc) as [sel |];
      rewrite !bind_run; reflexivity.
Qed.

End Candidates.



(** ** Fallback *)

Lemma by_slots_desc_rank (a b : Candidate) :
  True -> True ->
  JS.gt (RouterTest.by_slots_desc a b) (JS.of_Z 0)
  = negb (Qle_bool (slots_rank a) (slots_rank b)).
Proof.
  intros _ _. unfold RouterTest.by_slots_desc, slots_rank. cbn. f_equal.
  apply Bool.eq_true_iff_eq. rewrite !Qle_bool_iff, <- !Zle_Qle. lia.
Qed.

Lemma same_slots_rank (fb a b : Candidate) :
  same_slots fb a = true -> same_slots fb b = true ->
  (slots_rank a == slots_rank b)%Q.
Proof.
  unfold same_slots, slots_rank. intros Ha Hb.
  apply Z.eqb_eq in Ha, Hb. rewrite Ha, Hb. reflexivity.
Qed.

Lemma Forall_trivial {A : Type} (l : list A) : Forall (fun _ => True) l.
Proof. apply List.Forall_forall. intros; exact I. Qed.

(** The fallback location is an operational candidate with the greatest
    number of available slots, and the closest of those. *)
Lemma fallback_is_best (lwc : list Candidate) (fb : Candidate) :
  Forall candidate_measured lwc -> StronglySorted candidate_le lwc ->
  RouterTest.fallbackLocation lwc = Some fb ->
  Spec.best_fallback fb lwc.
Proof.
  intros Hm Hs Hfb. unfold RouterTest.fallbackLocation in Hfb.
  set (ops := List.filter RouterTest.is_operational lwc) in *.
  set (sorted := JS.Array_sort RouterTest.by_slots_desc ops) in *.
  pose proof (Array_sort_sorted _ slots_rank (fun _ => True)
                by_slots_desc_rank ops (Forall_trivial ops)) as Hranked.
  pose proof (Array_sort_stable _ slots_rank (fun _ => True)
                by_slots_desc_rank (same_slots fb) (same_slots_rank fb)
                ops (Forall_trivial ops)) as Hstable.
  fold sorted in Hranked, Hstable.
  assert (Hin_sorted : forall c, In c sorted <-> In c ops)
    by (intros c; apply Array_sort_In).
  destruct sorted as [| x rest] eqn:Esorted; [discriminate Hfb |].
  injection Hfb as ->.
  assert (Hfb_ops : In fb ops) by (apply Hin_sorted; left; reflexivity).
  apply List.filter_In in Hfb_ops. destruct Hfb_ops as [Hfb_in Hfb_op].
  split; [exact Hfb_in | split; [exact Hfb_op |]].
  intros c Hc Hop.
  assert (Hc_ops : In c ops) by (apply List.filter_In; split; assumption).
  split.
  - apply Hin_sorted in Hc_ops.
    assert (Hr : by_rank slots_rank fb c).
    { apply (StronglySorted_head (by_rank slots_rank) fb rest);
        [apply Qle_refl | exact Hranked | exact Hc_ops]. }
    unfold by_rank, slots_rank in Hr. rewrite <- Zle_Qle in Hr. lia.
  - intros Heq.
    cbn [List.filter] in Hstable.
    assert (Hself : same_slots fb fb = true) by apply Z.eqb_refl.
    rewrite Hself in Hstable.
    pose proof (StronglySorted_filter _ (same_slots fb) _
                  (StronglySorted_filter _ RouterTest.is_operational _ Hs))
      as Hs'.
    pose proof (filter_measured (same_slots fb) _
                  (filter_measured RouterTest.is_operational _ Hm)) as Hm'.
    fold ops in Hs', Hm'. rewrite <- Hstable in Hs', Hm'.
    apply (head_is_closest fb _ (Forall_inv Hm') Hs').
    rewrite Hstable. apply List.filter_In. split; [exact Hc_ops |].
    apply Z.eqb_eq. exact Heq.
Qed.

Lemma fallback_exists (lwc : list Candidate) :
  (exists c, In c lwc /\ Capacity.isOperational (capacity c) = true) ->
  exists fb, RouterTest.fallbackLocation lwc = Some fb.
Proof.
  intros [c [Hc Hop]]. unfold RouterTest.fallbackLocation.
  assert (Hin : In c (JS.Array_sort RouterTest.by_slots_desc
                        (List.filter RouterTest.is_operational lwc))).
  { apply Array_sort_In, List.filter_In. split; assumption. }
  destruct (JS.Array_sort _ _) as [| x rest]; [contradiction | eauto].
Qed.

Lemma fallback_none (lwc : list Candidate) :
  (forall c, In c lwc -> Capacity.isOperational (capacity c) = false) ->
  RouterTest.fallbackLocation lwc = None.
Proof.
  intros Hnone. unfold RouterTest.fallbackLocation.
  destruct (JS.Array_sort _ _) as [| x rest] eqn:E; [reflexivity |].
  assert (Hin : In x (JS.Array_sort RouterTest.by_slots_desc
                        (List.filter RouterTest.is_operational lwc)))
    by (rewrite E; left; reflexivity).
  apply Array_sort_In, List.filter_In in Hin. destruct Hin as [Hin Hop].
  unfold RouterTest.is_operational in Hop.
  rewrite (Hnone x Hin) in Hop. discriminate Hop.
Qed.

(** C2, as amended.  For every routing call of routerTest where no
    in-range candidate has capacity and fallback is enabled: if at least
    one in-range candidate is operationally active, the result is a
    waitlisted outcome naming, among the operationally active in-range
    candidates, one with the greatest [availableSlots], and of those the
    closest; if there are in-range candidates and none is operationally
    active, the result is the no-capacity failure. *)
Theorem fallback_waitlists_best (cfg : Config) (w : World)
  (locations : list Location.t) (s : RouterTest.State) :
  let candidates := RouterTest.inRangeCandidates cfg w locations s in
  let result := fst (RouterTest.routeLead cfg w locations s) in
  FALLBACK_ENABLED cfg = true ->
  (forall c, In c candidates -> Capacity.hasCapacity (capacity c) = false) ->
  ((exists c, In c candidates /\ Capacity.isOperational (capacity c) = true) ->
   exists fb, RouterTest.waitlist_location result = Some fb
              /\ Spec.best_fallback fb candidates)
  /\ (candidates <> [] ->
      (forall c, In c candidates ->
                 Capacity.isOperational (capacity c) = false) ->
      RouterTest.failure_code result = Some "NO_CAPACITY").
Proof.
  intros candidates result Hfallback Hfull.
  assert (Hrun : candidates <> [] ->
          exists nearest lwc,
            candidates = lwc /\ nearest <> [] /\ locations <> []
            /\ Forall candidate_measured lwc /\ StronglySorted candidate_le lwc
            /\ result = RT_summary cfg (RouterTest.lead (RouterTest.scored w s))
                          locations nearest lwc).
  { intros Hc.
    destruct (RT_inRangeCandidates_run cfg w locations s Hc)
      as [z [Hzip [Hz Hrun]]].
    cbv zeta in Hrun.
    pose proof (RT_candidates_sorted cfg w z locations (RouterTest.scored w s))
      as [Hm Hs].
    pose proof (RT_routeLead_outcome cfg w locations s z Hzip Hz) as Hout.
    cbv zeta in Hm, Hs, Hout. fold result in Hout. fold candidates in Hrun, Hc.
    set (near := RouterTest.getNearestLocations cfg w z locations
                   (RouterTest.scored w s)) in *.
    exists (fst near), (fst (mapM (RouterTest.withCapacity cfg w)
                               (fst near) (snd near))).
    repeat split; try assumption.
    - intros E. apply Hc. rewrite Hrun, E. reflexivity.
    - intros E. apply Hc. rewrite Hrun. subst near. rewrite E. reflexivity. }
  assert (Havail : List.filter RouterTest.is_available candidates = []).
  { destruct (List.filter RouterTest.is_available candidates) as [| a0 avail]
      eqn:E; [reflexivity |].
    assert (Hin : In a0 (List.filter RouterTest.is_available candidates))
      by (rewrite E; left; reflexivity).
    apply List.filter_In in Hin. destruct Hin as [Hin Hav].
    unfold RouterTest.is_available in Hav. rewrite (Hfull a0 Hin) in Hav.
    discriminate Hav. }
  split.
  - intros [c [Hc Hop]].
    assert (Hne : candidates <> []) by (intros E; rewrite E in Hc; exact Hc).
    destruct (Hrun Hne) as [nearest [lwc [E [Hn [Hl [Hm [Hs Hout]]]]]]].
    rewrite E in *. clear E.
    destruct (fallback_exists lwc (ex_intro _ c (conj Hc Hop))) as [fb Hfb].
    exists fb. split; [| apply fallback_is_best; assumption].
    rewrite Hout. unfold RT_summary.
    destruct locations; [congruence |]. destruct nearest; [congruence |].
    rewrite Havail, Hfallback, Hfb. reflexivity.
  - intros Hne Hnone.
    destruct (Hrun Hne) as [nearest [lwc [E [Hn [Hl [Hm [Hs Hout]]]]]]].
    rewrite E in *. clear E.
    rewrite Hout. unfold RT_summary.
    destruct locations; [congruence |]. destruct nearest; [congruence |].
    rewrite Havail, Hfallback, (fallback_none lwc Hnone). reflexivity.
Qed.

(** Edge case 2 of the tests, "all locations at capacity": the three
    in-range locations are full and operational, and the lead is waitlisted
    at "loc_001", the closest of the three, which tie at -5 slots. *)
Lemma fallback_waitlists_best_witness :
  let s := Example.test_start Example.lead_001 in
  let candidates :=
    RouterTest.inRangeCandidates CONFIG Example.night
      Example.overCapacityLocations s in
  let result :=
    fst (RouterTest.routeLead CONFIG Example.night
           Example.overCapacityLocations s) in
  List.map candidate_id candidates = ["loc_001"; "loc_003"; "loc_002"]
  /\ option_map candidate_id (RouterTest.waitlist_location result)
     = Some "loc_001"
  /\ exists fb, RouterTest.waitlist_location result = Some fb
                /\ Spec.best_fallback fb candidates.
Proof.
  intros s candidates result.
  split; [reflexivity | split; [reflexivity |]].
  assert (Hfull : forall c, In c candidates ->
                            Capacity.hasCapacity (capacity c) = false).
  { intros c Hc.
    assert (Hall : forallb (fun c => negb (Capacity.hasCapacity (capacity c)))
                     candidates = true) by reflexivity.
    rewrite List.forallb_forall in Hall. apply Bool.negb_true_iff, Hall, Hc. }
  destruct (fallback_waitlists_best CONFIG Example.night
              Example.overCapacityLocations s eq_refl Hfull) as [Hwait _].
  apply Hwait.
  assert (Hany : existsb (fun c => Capacity.isOperational (capacity c))
                   candidates = true) by reflexivity.
  apply List.existsb_exists in Hany. exact Hany.
Defined.

(** C2 fails as stated: with fallback enabled and the only in-range
    location full and under maintenance, no candidate has capacity, and
    the result is not a waitlisted outcome but the no-capacity failure. *)
Lemma no_operational_candidate_no_waitlist :
  let s := Example.test_start Example.lead_001 in
  let candidates :=
    RouterTest.inRangeCandidates CONFIG Example.night [Example.loc_closed] s in
  let result :=
    fst (RouterTest.routeLead CONFIG Example.night [Example.loc_closed] s) in
  FALLBACK_ENABLED CONFIG = true
  /\ List.map candidate_id candidates = ["loc_closed"]
  /\ (forall c, In c candidates -> Capacity.hasCapacity (capacity c) = false)
  /\ RouterTest.waitlist_location result = None
  /\ RouterTest.failure_code result = Some "NO_CAPACITY".
Proof.
  intros s candidates result.
  split; [reflexivity | split; [reflexivity | split; [| split; reflexivity]]].
  intros c Hc.
  assert (Hall : forallb (fun c => negb (Capacity.hasCapacity (capacity c)))
                   candidates = true) by reflexivity.
  rewrite List.forallb_forall in Hall. apply Bool.negb_true_iff, Hall, Hc.
Qed.

(** ** Capacity is read, never reserved *)

Section NoReservation.
Context (cfg : Config) (w : World).

Lemma RT_routeLead_reads_only (locations : list Location.t)
  (s : RouterTest.State) :
  exists t,
    RouterTest.trace (snd (RouterTest.routeLead cfg w locations s))
    = RouterTest.trace s ++ t
    /\ Forall reads_only t.
Proof.
  destruct (JS.truthy (Lead.zip (RouterTest.lead s))) eqn:Hzip.
  - destruct locations as [| l0 ls].
    + exists []. split; [| constructor].
      unfold RouterTest.routeLead. rewrite bind_run. cbn [get fst snd].
      destruct (Lead.zip (RouterTest.lead s)) as [[| c z] |];
        cbn; symmetry; apply app_nil_r.
    + destruct (RT_routeLead_extends_scored cfg w (l0 :: ls) s Hzip)
        as [_ [t [Ht Hq]]]; [discriminate |].
      exists (Write_finalScore
                (RouterTest.calculateLeadScore w (RouterTest.lead s)) :: t).
      split; [| constructor; [exact I | exact Hq]].
      rewrite Ht. cbn. rewrite <- app_assoc. reflexivity.
  - rewrite (RT_routeLead_missing_zip cfg w locations s Hzip).
    exists []. split; [symmetry; apply app_nil_r | constructor].
Qed.

Lemma PR_routeLead_reads_only (locations : list Location.t)
  (s : ProductionRouter.State) :
  exists t,
    ProductionRouter.trace (snd (ProductionRouter.routeLead cfg w locations s))
    = ProductionRouter.trace s ++ t
    /\ Forall reads_only t.
Proof.
  destruct (ProductionRouter.validateLead (ProductionRouter.lead s)) eqn:Hv.
  - destruct (PR_routeLead_extends_scored cfg w locations s Hv)
      as [_ [t [Ht Hq]]].
    exists (Write_finalScore
              (ProductionRouter.calculateLeadScore w (ProductionRouter.lead s))
            :: t).
    split; [| constructor; [exact I | exact Hq]].
    rewrite Ht. cbn. rewrite <- app_assoc. reflexivity.
  - rewrite (PR_routeLead_invalid cfg w locations s Hv).
    exists []. split; [symmetry; apply app_nil_r | constructor].
Qed.

(** One active location in range, with room left and no capacity store
    configured: whatever was routed before, the call routes to it. *)
Lemma RT_routes_to_open_location (loc : Location.t) (z : string)
  (c1 c2 : Coordinates) (n : Z) (s : RouterTest.State) :
  JSONBIN_API_KEY cfg = "" ->
  Location.status loc = "active" ->
  Location.dailyLeadCount loc = Some n ->
  n < MAX_DAILY_LEADS_PER_LOCATION cfg ->
  (forall i, zippopotam w i z = Some c1) ->
  (forall i, zippopotam w i (Location.zipCode loc) = Some c2) ->
  JS.le (haversine w c1 c2) (JS.of_Z (ZIP_RADIUS_MILES cfg)) = true ->
  Lead.zip (RouterTest.lead s) = Some z -> z <> "" ->
  exists sel,
    RouterTest.routed_location (fst (RouterTest.routeLead cfg w [loc] s))
    = Some sel
    /\ location (located sel) = loc.
Proof.
  intros Hkey Hstatus Hcount Hroom Hgeo1 Hgeo2 Hnear Hzip Hz.
  rewrite (RT_routeLead_outcome cfg w [loc] s z Hzip Hz). cbv zeta.
  set (s0 := RouterTest.scored w s).
  assert (Enear : RouterTest.getNearestLocations cfg w z [loc] s0
                  = ([ {| location := loc; distance := haversine w c1 c2 |} ],
                     snd (RouterTest.getNearestLocations cfg w z [loc] s0))).
  { rewrite RT_getNearestLocations_run. cbn [snd]. f_equal.
    rewrite mapM_cons. cbn [fst mapM ret].
    unfold RouterTest.withDistance, RouterTest.calculateDistanceReal,
      RouterTest.getZipCoordinates.
    rewrite !bind_run. cbn [get ret fst snd]. rewrite Hgeo1, Hgeo2.
    cbn [List.filter]. unfold within. cbn [distance].
    rewrite Hnear. reflexivity. }
  rewrite Enear. cbn [fst snd].
  set (s1 := snd (RouterTest.getNearestLocations cfg w z [loc] s0)).
  rewrite mapM_cons. cbn [fst mapM ret].
  unfold RouterTest.withCapacity at 1, RouterTest.checkLocationCapacity.
  rewrite !bind_run. rewrite Hkey. cbn [String.eqb ret fst snd location].
  unfold RT_summary. cbn [List.filter].
  assert (Eav : RouterTest.is_available
                  {| located := {| location := loc;
                                   distance := haversine w c1 c2 |};
                     capacity := RouterTest.simulatedCapacity cfg loc |}
                = true).
  { unfold RouterTest.is_available, RouterTest.simulatedCapacity. cbn.
    rewrite Hcount, Hstatus. cbn.
    rewrite Bool.andb_true_r. apply Z.ltb_lt. exact Hroom. }
  rewrite Eav.
  destruct (finalScore_ge (RouterTest.lead s0) (HIGH_SCORE_THRESHOLD cfg)).
  - eexists. split; reflexivity.
  - cbn [List.find].
    destruct (RouterTest.is_low_traffic _); eexists; split; reflexivity.
Qed.

End NoReservation.

(** * Further properties *)

(** ** The haversine formula over the reals *)

Lemma R_atan2_first_quadrant (y x : R) :
  (0 <= y)%R -> (0 <= x)%R ->
  (0 <= Haversine.R_atan2 y x <= PI / 2)%R.
Proof.
  intros Hy Hx. unfold Haversine.R_atan2.
  pose proof PI2_RGT_0 as Hpi.
  destruct (Rlt_dec 0 x) as [Hpos | Hnpos].
  - assert (Hq : (0 <= y / x)%R).
    { unfold Rdiv. apply Rmult_le_pos; [exact Hy |].
      left. apply Rinv_0_lt_compat, Hpos. }
    set (q := (y / x)%R) in *.
    pose proof (atan_bound q) as [_ Hub].
    split; [| left; exact Hub].
    destruct Hq as [Hq | <-]; [| rewrite atan_0; apply Rle_refl].
    pose proof (atan_increasing 0 q Hq) as Hinc.
    rewrite atan_0 in Hinc. left. exact Hinc.
  - destruct (Rlt_dec x 0) as [Hneg | _]; [Lra.lra |].
    destruct (Rlt_dec 0 y) as [_ | _]; [Lra.lra |].
    destruct (Rlt_dec y 0) as [Hneg | _]; Lra.lra.
Qed.

(** X1.  Over the reals, the haversine distance from a place to itself
    is zero. *)
Theorem haversineDistance_to_itself (A : Haversine.coords R) :
  Haversine.haversineDistance A A = 0%R.
Proof.
  unfold Haversine.haversineDistance. cbn.
  replace ((Haversine.lat A - Haversine.lat A) * PI / 180 / 2)%R with 0%R
    by (unfold Rdiv; ring).
  replace ((Haversine.lng A - Haversine.lng A) * PI / 180 / 2)%R with 0%R
    by (unfold Rdiv; ring).
  rewrite sin_0.
  replace (0 * 0 + cos (Haversine.lat A * PI / 180)
                   * cos (Haversine.lat A * PI / 180) * 0 * 0)%R
    with 0%R by ring.
  replace (1 - 0)%R with 1%R by ring.
  rewrite sqrt_0, sqrt_1.
  unfold Haversine.R_atan2.
  destruct (Rlt_dec 0 1) as [_ | Hn]; [| exfalso; apply Hn; Lra.lra].
  replace (0 / 1)%R with 0%R by (unfold Rdiv; ring).
  rewrite atan_0. ring.
Qed.

(** ** Scores of all leads *)

Lemma inherited_is_not_listed (s : string) :
  JS.inherited s = true ->
  List.find (fun kv => String.eqb (fst kv) s) Scoring.sourceMultipliers = None.
Proof.
  unfold JS.inherited. intros H.
  apply List.existsb_exists in H. destruct H as [k [Hk E]].
  apply String.eqb_eq in E. subst k.
  cbn in Hk.
  repeat (destruct Hk as [<- | Hk]; [reflexivity |]).
  contradiction.
Qed.

Lemma score_of_inherited_source (dflt : Z) (w : World) (lead : Lead.t) :
  inherited_source lead = true ->
  Scoring.score_with_default dflt w lead = JS.NaN.
Proof.
  unfold inherited_source. intros H.
  destruct (Lead.source lead) as [s |] eqn:Es; [| discriminate H].
  unfold Scoring.score_with_default, Scoring.multiplier, Scoring.lookup_source.
  rewrite Es, (inherited_is_not_listed s H), H.
  assert (Hsig : exists q, Scoring.or_default (Lead.leadScore lead) dflt
                           = JS.Num q).
  { unfold Scoring.or_default, JS.of_Z.
    destruct (Lead.leadScore lead) as [[| p | p] |]; eauto. }
  destruct Hsig as [q ->]. cbn [JS.mul].
  destruct (Scoring.complete_profile lead),
    (Scoring.business_hours (getHours w)); reflexivity.
Qed.

(** With a source of its own or none, and a signal that is absent or at
    least 0, the score is a whole number from 0 to 100. *)
Lemma score_in_range (dflt : Z) (w : World) (lead : Lead.t) :
  0 <= dflt ->
  inherited_source lead = false ->
  (forall n, Lead.leadScore lead = Some n -> 0 <= n) ->
  exists k, Scoring.score_with_default dflt w lead = JS.of_Z k
            /\ 0 <= k <= 100.
Proof.
  intros Hd Hsrc Hpos.
  set (v := match Lead.leadScore lead with
            | Some 0 => dflt
            | Some n => n
            | None => dflt
            end).
  assert (Hv : 0 <= v).
  { subst v. destruct (Lead.leadScore lead) as [n |]; [| exact Hd].
    specialize (Hpos n eq_refl). destruct n; [exact Hd | lia | lia]. }
  assert (Hcode : Scoring.or_default (Lead.leadScore lead) dflt = JS.of_Z v).
  { subst v. destruct (Lead.leadScore lead) as [[| p | p] |]; reflexivity. }
  assert (E : Scoring.score_with_default dflt w lead
              = Scoring.score_with_default v w (with_signal v lead)).
  { unfold Scoring.score_with_default. rewrite Hcode.
    replace (Scoring.or_default (Lead.leadScore (with_signal v lead)) v)
      with (JS.of_Z v)
      by (cbn; destruct v; reflexivity).
    reflexivity. }
  exists (Spec.score w (with_signal v lead)).
  split; [| apply clamped_score_bounds].
  rewrite E. apply (score_from_signal v v).
  - intros s Es. unfold inherited_source in Hsrc. cbn in Es.
    rewrite Es in Hsrc. exact Hsrc.
  - cbn. destruct v; reflexivity.
  - reflexivity.
  - exact Hv.
Qed.

(** X3.  In both routers, a lead whose source names a property the
    multiplier table inherits from [Object.prototype] scores [NaN],
    whatever its signal, and is never high-priority, whatever the
    threshold.  Every other lead whose signal is absent or at least 0
    scores a whole number from 0 to 100; so among the leads with such a
    signal the score is [NaN] exactly when the source is inherited. *)
Theorem score_is_NaN_or_capped (w : World) (lead : Lead.t) :
  (inherited_source lead = true ->
   RouterTest.calculateLeadScore w lead = JS.NaN
   /\ ProductionRouter.calculateLeadScore w lead = JS.NaN
   /\ forall threshold,
        finalScore_ge
          (Lead.set_finalScore (RouterTest.calculateLeadScore w lead) lead)
          threshold = false
        /\ finalScore_ge
             (Lead.set_finalScore
                (ProductionRouter.calculateLeadScore w lead) lead)
             threshold = false)
  /\ (inherited_source lead = false ->
      (forall n, Lead.leadScore lead = Some n -> 0 <= n) ->
      (exists k, RouterTest.calculateLeadScore w lead = JS.of_Z k
                 /\ 0 <= k <= 100)
      /\ (exists k, ProductionRouter.calculateLeadScore w lead = JS.of_Z k
                    /\ 0 <= k <= 100))
  /\ ((forall n, Lead.leadScore lead = Some n -> 0 <= n) ->
      (RouterTest.calculateLeadScore w lead = JS.NaN
       <-> inherited_source lead = true)
      /\ (ProductionRouter.calculateLeadScore w lead = JS.NaN
          <-> inherited_source lead = true)).
Proof.
  unfold RouterTest.calculateLeadScore, ProductionRouter.calculateLeadScore.
  assert (Hnan : forall dflt, 0 <= dflt ->
            (forall n, Lead.leadScore lead = Some n -> 0 <= n) ->
            Scoring.score_with_default dflt w lead = JS.NaN
            <-> inherited_source lead = true).
  { intros dflt Hd Hpos. split.
    - intros E. destruct (inherited_source lead) eqn:H; [reflexivity |].
      destruct (score_in_range dflt w lead Hd H Hpos) as [k [Ek _]].
      rewrite Ek in E. discriminate E.
    - apply score_of_inherited_source. }
  split; [| split].
  - intros H. rewrite !(score_of_inherited_source _ w lead H).
    repeat split; reflexivity.
  - intros H Hpos. split; apply score_in_range; try assumption; lia.
  - intros Hpos. split; apply Hnan; try assumption; lia.
Qed.

Lemma score_is_NaN_or_capped_witness :
  ProductionRouter.calculateLeadScore Example.night
    (with_signal 85
       {| Lead.id := Some "lead_x"; Lead.zip := Some "90001";
          Lead.leadScore := None; Lead.source := Some "constructor";
          Lead.phone := None; Lead.email := None; Lead.firstName := None;
          Lead.finalScore := None |}) = JS.NaN
  /\ exists k, ProductionRouter.calculateLeadScore Example.night
                 Example.lead_001 = JS.of_Z k /\ 0 <= k <= 100.
Proof.
  split.
  - apply (proj1 (score_is_NaN_or_capped Example.night _)). reflexivity.
  - apply (proj1 (proj2 (score_is_NaN_or_capped Example.night
                           Example.lead_001))).
    + reflexivity.
    + intros n E. injection E as <-. lia.
Defined.

Lemma clamp_monotone (x y : Q) :
  (x <= y)%Q -> (Spec.clamp 0 100 x <= Spec.clamp 0 100 y)%Q.
Proof.
  intros Hxy. unfold Spec.clamp.
  destruct (Qle_bool x 0) eqn:Ex0, (Qle_bool y 0) eqn:Ey0;
    destruct (Qle_bool 100 x) eqn:Ex1, (Qle_bool 100 y) eqn:Ey1;
    repeat match goal with
      | H : Qle_bool _ _ = true |- _ => apply Qle_bool_iff in H
      | H : Qle_bool ?a ?b = false |- _ =>
          assert (b < a)%Q
            by (apply Qnot_le_lt; intros C; apply Qle_bool_iff in C;
                congruence);
          clear H
      end; lra.
Qed.

(** Of two leads that differ only in their raw signal, both signals at
    least 1, the one with the greater signal scores at least as much,
    whatever the default. *)
Lemma score_monotone (dflt : Z) (w : World) (lead : Lead.t) (n1 n2 : Z) :
  inherited_source lead = false ->
  1 <= n1 -> n1 <= n2 ->
  JS.le (Scoring.score_with_default dflt w (with_signal n1 lead))
        (Scoring.score_with_default dflt w (with_signal n2 lead)) = true.
Proof.
  intros Hsrc H1 H12.
  assert (Hown : forall n s, Lead.source (with_signal n lead) = Some s ->
                             JS.inherited s = false).
  { intros n s Es. unfold inherited_source in Hsrc. cbn in Es.
    rewrite Es in Hsrc. exact Hsrc. }
  assert (Hscore : forall n, 1 <= n ->
            Scoring.score_with_default dflt w (with_signal n lead)
            = JS.of_Z (Spec.score w (with_signal n lead))).
  { intros n Hn.
    apply (score_from_signal dflt n); [apply Hown | | reflexivity | lia].
    cbn. destruct n; [lia | reflexivity | reflexivity]. }
  assert (Hmono : Spec.score w (with_signal n1 lead)
                  <= Spec.score w (with_signal n2 lead)).
  { unfold Spec.score. cbn [Lead.leadScore Lead.source with_signal].
    change (Scoring.complete_profile (with_signal n1 lead))
      with (Scoring.complete_profile lead).
    change (Scoring.complete_profile (with_signal n2 lead))
      with (Scoring.complete_profile lead).
    pose proof (source_multiplier_pos (Lead.source lead)) as Hm.
    set (m := Spec.source_multiplier (Lead.source lead)) in *.
    set (b1 := (if Scoring.complete_profile lead then 10 else 0)%Q).
    set (b2 := (if Scoring.business_hours (getHours w) then 5 else 0)%Q).
    apply Qfloor_resp_le.
    assert (Hprod : (inject_Z n1 * m <= inject_Z n2 * m)%Q).
    { apply Qmult_le_compat_r; [rewrite <- Zle_Qle; exact H12 | lra]. }
    pose proof (clamp_monotone (inject_Z n1 * m + b1 + b2)
                  (inject_Z n2 * m + b1 + b2)) as Hc.
    set (p1 := (inject_Z n1 * m)%Q) in *. set (p2 := (inject_Z n2 * m)%Q) in *.
    assert (Hle : (p1 + b1 + b2 <= p2 + b1 + b2)%Q) by lra.
    specialize (Hc Hle). lra. }
  rewrite !Hscore by lia.
  unfold JS.le, JS.of_Z. apply Qle_bool_iff. rewrite <- Zle_Qle. exact Hmono.
Qed.

(** X4.  A better signal never scores lower: of two leads that differ
    only in their raw signal, both signals at least 1, the one with the
    greater signal gets at least the score of the other, in either
    implementation (the source not naming an inherited property). *)
Theorem score_monotone_in_signal (w : World) (lead : Lead.t) (n1 n2 : Z) :
  inherited_source lead = false ->
  1 <= n1 -> n1 <= n2 ->
  JS.le (RouterTest.calculateLeadScore w (with_signal n1 lead))
        (RouterTest.calculateLeadScore w (with_signal n2 lead)) = true
  /\ JS.le (ProductionRouter.calculateLeadScore w (with_signal n1 lead))
           (ProductionRouter.calculateLeadScore w (with_signal n2 lead)) = true.
Proof.
  intros Hsrc H1 H12.
  split; apply score_monotone; assumption.
Qed.

Lemma score_monotone_in_signal_witness :
  JS.le (RouterTest.calculateLeadScore Example.morning
           (with_signal 40 Example.lead_002))
        (RouterTest.calculateLeadScore Example.morning
           (with_signal 75 Example.lead_002)) = true
  /\ JS.le (ProductionRouter.calculateLeadScore Example.morning
              (with_signal 40 Example.lead_002))
           (ProductionRouter.calculateLeadScore Example.morning
              (with_signal 75 Example.lead_002)) = true.
Proof.
  apply (score_monotone_in_signal Example.morning Example.lead_002 40 75);
    [reflexivity | discriminate | discriminate].
Defined.

(** ** Outcomes of a call, case by case *)

Section Decision.
Context (cfg : Config) (w : World).

Lemma RT_routeLead_valid (locations : list Location.t) (s : RouterTest.State) :
  JS.truthy (Lead.zip (RouterTest.lead s)) = true ->
  let C := RouterTest.inRangeCandidates cfg w locations s in
  fst (RouterTest.routeLead cfg w locations s)
  = RT_summary cfg (RouterTest.lead (RouterTest.scored w s)) locations
      (List.map located C) C.
Proof.
  intros Hzip C. subst C. unfold RouterTest.inRangeCandidates.
  destruct (Lead.zip (RouterTest.lead s)) as [[| c z] |] eqn:Ez;
    try discriminate Hzip.
  rewrite (RT_routeLead_outcome cfg w locations s (String c z) Ez)
    by discriminate.
  cbv zeta. unfold RouterTest.gatherCandidates. rewrite bind_run.
  rewrite (mapM_section (RouterTest.withCapacity cfg w) located)
    by (intros; apply RT_withCapacity_located).
  reflexivity.
Qed.

Lemma RT_inRangeCandidates_invalid (locations : list Location.t)
  (s : RouterTest.State) :
  JS.truthy (Lead.zip (RouterTest.lead s)) = false ->
  RouterTest.inRangeCandidates cfg w locations s = [].
Proof.
  unfold RouterTest.inRangeCandidates.
  destruct (Lead.zip (RouterTest.lead s)) as [[| c z] |];
    [reflexivity | discriminate | reflexivity].
Qed.

Lemma RT_inRangeCandidates_no_locations (s : RouterTest.State) :
  RouterTest.inRangeCandidates cfg w [] s = [].
Proof.
  unfold RouterTest.inRangeCandidates.
  destruct (Lead.zip (RouterTest.lead s)) as [[| c z] |]; reflexivity.
Qed.

(** The in-range candidates are input locations within the radius. *)
Lemma RT_candidates_from_input (locations : list Location.t)
  (s : RouterTest.State) (c : Candidate) :
  In c (RouterTest.inRangeCandidates cfg w locations s) ->
  In (location (located c)) locations
  /\ within (ZIP_RADIUS_MILES cfg) (located c) = true.
Proof.
  unfold RouterTest.inRangeCandidates.
  destruct (Lead.zip (RouterTest.lead s)) as [[| ch z] |];
    try contradiction.
  unfold RouterTest.gatherCandidates. rewrite bind_run. intros Hc.
  apply (List.in_map located) in Hc.
  rewrite (mapM_section (RouterTest.withCapacity cfg w) located) in Hc
    by (intros; apply RT_withCapacity_located).
  rewrite RT_getNearestLocations_run in Hc. cbn [fst] in Hc.
  apply Array_sort_In, List.filter_In in Hc. destruct Hc as [Hc Hw].
  split; [| exact Hw].
  apply (List.in_map location) in Hc.
  rewrite (mapM_section (RouterTest.withDistance w (String ch z)) location)
    in Hc by (intros; apply RT_withDistance_location).
  exact Hc.
Qed.

Lemma fallback_is_operational (lwc : list Candidate) (fb : Candidate) :
  RouterTest.fallbackLocation lwc = Some fb ->
  In fb lwc /\ Capacity.isOperational (capacity fb) = true.
Proof.
  unfold RouterTest.fallbackLocation. intros H.
  assert (Hin : In fb (JS.Array_sort RouterTest.by_slots_desc
                         (List.filter RouterTest.is_operational lwc))).
  { destruct (JS.Array_sort _ _) as [| x rest]; [discriminate H |].
    injection H as ->. left. reflexivity. }
  apply Array_sort_In, List.filter_In in Hin. exact Hin.
Qed.

(** The cases of routerTest's [routeLead]: which result comes with which
    state of the lead, the location list and the candidates. *)
Lemma RT_decision (locations : list Location.t) (s : RouterTest.State) :
  let C := RouterTest.inRangeCandidates cfg w locations s in
  let A := List.filter RouterTest.is_available C in
  let valid := JS.truthy (Lead.zip (RouterTest.lead s)) in
  match fst (RouterTest.routeLead cfg w locations s) with
  | RouterTest.Failed code _ _ _ =>
      (code = "INVALID_ZIP" /\ valid = false /\ C = [])
      \/ (code = "NO_LOCATIONS" /\ valid = true /\ locations = [] /\ C = [])
      \/ (code = "OUT_OF_RANGE" /\ valid = true /\ locations <> [] /\ C = [])
      \/ (code = "NO_CAPACITY" /\ valid = true /\ locations <> [] /\ C <> []
          /\ A = []
          /\ (if FALLBACK_ENABLED cfg then RouterTest.fallbackLocation C
              else None) = None)
  | RouterTest.Waitlisted fb _ _ _ =>
      valid = true /\ locations <> [] /\ C <> [] /\ A = []
      /\ FALLBACK_ENABLED cfg = true
      /\ RouterTest.fallbackLocation C = Some fb
  | RouterTest.Routed sel _ _ _ _ _ =>
      valid = true /\ locations <> [] /\ C <> [] /\ In sel A
  end.
Proof.
  intros C A valid.
  destruct valid eqn:Hvalid; subst valid.
  - rewrite (RT_routeLead_valid locations s Hvalid). fold C.
    unfold RT_summary.
    destruct locations as [| l0 ls].
    + assert (E : C = []) by apply RT_inRangeCandidates_no_locations.
      right. left. repeat split; assumption || reflexivity.
    + destruct C as [| c0 cs] eqn:EC; cbn [List.map].
      * right. right. left. repeat split; try reflexivity. discriminate.
      * fold A. destruct A as [| a0 avail] eqn:EA.
        -- destruct (if FALLBACK_ENABLED cfg
                     then RouterTest.fallbackLocation (c0 :: cs) else None)
             as [fb |] eqn:Efb.
           ++ destruct (FALLBACK_ENABLED cfg); [| discriminate Efb].
              repeat split; try reflexivity; try discriminate. exact Efb.
           ++ right. right. right.
              repeat split; try reflexivity; discriminate.
        -- cbn [fst].
           assert (Hsel : forall sel, In sel (a0 :: avail) ->
                     true = true /\ l0 :: ls <> [] /\ c0 :: cs <> []
                     /\ In sel (a0 :: avail)).
           { intros sel Hin. repeat split; try discriminate. exact Hin. }
           destruct (finalScore_ge _ _); [apply Hsel; left; reflexivity |].
           destruct (List.find RouterTest.is_low_traffic (a0 :: avail))
             as [lt |] eqn:Ef; cbn [fst].
           ++ apply Hsel. apply (List.find_some _ _ Ef).
           ++ apply Hsel. left. reflexivity.
  - rewrite (RT_routeLead_missing_zip cfg w locations s Hvalid). cbn [fst].
    left. repeat split; try reflexivity.
    apply RT_inRangeCandidates_invalid, Hvalid.
Qed.

Lemma PR_routeLead_valid (locations : list Location.t)
  (s : ProductionRouter.State) :
  ProductionRouter.validateLead (ProductionRouter.lead s) = true ->
  let C := ProductionRouter.inRangeCandidates cfg w locations s in
  fst (ProductionRouter.routeLead cfg w locations s)
  = PR_summary cfg (ProductionRouter.lead (ProductionRouter.scored w s))
      (List.map located C) C.
Proof.
  intros Hv C. subst C. unfold ProductionRouter.inRangeCandidates.
  assert (Hz : exists z, Lead.zip (ProductionRouter.lead s) = Some z).
  { unfold ProductionRouter.validateLead in Hv.
    destruct (Lead.zip (ProductionRouter.lead s)) as [z |]; [eauto |].
    rewrite Bool.andb_false_r in Hv. discriminate Hv. }
  destruct Hz as [z Hz]. rewrite Hz, Hv.
  rewrite (PR_routeLead_outcome cfg w locations s z Hz Hv).
  cbv zeta. unfold ProductionRouter.gatherCandidates. rewrite bind_run.
  unfold ProductionRouter.checkLocationCapacities.
  rewrite (mapM_section (ProductionRouter.withCapacity cfg w) located)
    by (intros; apply PR_withCapacity_located).
  reflexivity.
Qed.

Lemma PR_inRangeCandidates_invalid (locations : list Location.t)
  (s : ProductionRouter.State) :
  ProductionRouter.validateLead (ProductionRouter.lead s) = false ->
  ProductionRouter.inRangeCandidates cfg w locations s = [].
Proof.
  unfold ProductionRouter.inRangeCandidates. intros ->.
  destruct (Lead.zip (ProductionRouter.lead s)); reflexivity.
Qed.

Lemma PR_candidates_from_input (locations : list Location.t)
  (s : ProductionRouter.State) (c : Candidate) :
  In c (ProductionRouter.inRangeCandidates cfg w locations s) ->
  In (location (located c)) locations
  /\ within (ZIP_RADIUS_MILES cfg) (located c) = true.
Proof.
  unfold ProductionRouter.inRangeCandidates.
  destruct (Lead.zip (ProductionRouter.lead s)) as [z |]; [| contradiction].
  destruct (ProductionRouter.validateLead (ProductionRouter.lead s));
    [| contradiction].
  unfold ProductionRouter.gatherCandidates,
    ProductionRouter.checkLocationCapacities.
  rewrite bind_run. intros Hc.
  apply (List.in_map located) in Hc.
  rewrite (mapM_section (ProductionRouter.withCapacity cfg w) located) in Hc
    by (intros; apply PR_withCapacity_located).
  rewrite PR_getNearestLocationsReal_run in Hc. cbn [fst] in Hc.
  apply Array_sort_In, List.filter_In in Hc. destruct Hc as [Hc Hw].
  split; [| exact Hw].
  apply (List.in_map location) in Hc.
  rewrite (mapM_section _ location) in Hc
    by (intros; apply PR_withDistance_location).
  exact Hc.
Qed.

Lemma selectOptimalLocation_available (lead : Lead.t)
  (lwc : list Candidate) :
  match ProductionRouter.selectOptimalLocation cfg lead lwc with
  | Some sel => In sel (List.filter ProductionRouter.is_available lwc)
  | None => List.filter ProductionRouter.is_available lwc = []
  end.
Proof.
  unfold ProductionRouter.selectOptimalLocation.
  destruct (List.filter ProductionRouter.is_available lwc) as [| a0 avail];
    [reflexivity |].
  destruct (finalScore_ge lead (HIGH_SCORE_THRESHOLD cfg));
    [left; reflexivity |].
  destruct (List.find ProductionRouter.is_low_traffic (a0 :: avail))
    as [lt |] eqn:Ef; [apply (List.find_some _ _ Ef) | left; reflexivity].
Qed.

(** The cases of production-router's [routeLead]. *)
Lemma PR_decision (locations : list Location.t) (s : ProductionRouter.State) :
  let C := ProductionRouter.inRangeCandidates cfg w locations s in
  let A := List.filter ProductionRouter.is_available C in
  let valid := ProductionRouter.validateLead (ProductionRouter.lead s) in
  match fst (ProductionRouter.routeLead cfg w locations s) with
  | ProductionRouter.Failure code _ =>
      (code = "INVALID_LEAD" /\ valid = false /\ C = [])
      \/ (code = "OUT_OF_RANGE" /\ valid = true /\ C = [])
      \/ (code = "NO_CAPACITY" /\ valid = true /\ C <> [] /\ A = [])
  | ProductionRouter.Success sel d reason high confidence =>
      valid = true /\ C <> [] /\ In sel A
      /\ d = candidate_distance sel
      /\ reason
         = ProductionRouter.getRoutingReason cfg
             (ProductionRouter.lead (ProductionRouter.scored w s)) sel
      /\ high
         = JS.ge (ProductionRouter.calculateLeadScore w (ProductionRouter.lead s))
             (JS.of_Z (HIGH_SCORE_THRESHOLD cfg))
      /\ confidence = ProductionRouter.calculateRoutingConfidence sel C
  end.
Proof.
  intros C A valid.
  destruct valid eqn:Hvalid; subst valid.
  - rewrite (PR_routeLead_valid locations s Hvalid). fold C.
    unfold PR_summary.
    destruct C as [| c0 cs] eqn:EC; cbn [List.map].
    + right. left. repeat split; reflexivity.
    + pose proof (selectOptimalLocation_available
                    (ProductionRouter.lead (ProductionRouter.scored w s))
                    (c0 :: cs)) as Hsel.
      fold A in Hsel.
      destruct (ProductionRouter.selectOptimalLocation cfg _ (c0 :: cs))
        as [sel |].
      * repeat split; try reflexivity; try discriminate. exact Hsel.
      * right. right. repeat split; try reflexivity; try discriminate.
        exact Hsel.
  - rewrite (PR_routeLead_invalid cfg w locations s Hvalid). cbn [fst].
    left. repeat split; try reflexivity.
    apply PR_inRangeCandidates_invalid, Hvalid.
Qed.

End Decision.

Lemma fallback_none_iff (lwc : list Candidate) :
  RouterTest.fallbackLocation lwc = None
  <-> (forall c, In c lwc -> Capacity.isOperational (capacity c) = false).
Proof.
  split; [| apply fallback_none].
  intros Hnone c Hc.
  destruct (Capacity.isOperational (capacity c)) eqn:Hop; [| reflexivity].
  destruct (fallback_exists lwc) as [fb Hfb]; [eauto |].
  rewrite Hfb in Hnone. discriminate Hnone.
Qed.

(** One row of a result table, in one case of the call. *)
Ltac table_row :=
  split; intros;
  first [ discriminate | congruence | tauto
        | solve [repeat split; first [congruence | discriminate | tauto | assumption]]
        | solve [exfalso; intuition congruence]
        | solve [intuition (congruence || eauto)]
        | idtac ].

Ltac table_rows := repeat match goal with |- _ /\ _ => split end; table_row.

(** X5.  The result table of routerTest's [routeLead], for every
    configuration, world, location list and lead.  The call fails with
    INVALID_ZIP exactly when the zip of the lead is missing or empty;
    with NO_LOCATIONS exactly when the zip is present and the location
    list is empty; with OUT_OF_RANGE exactly when the zip is present, the
    list is not empty and no location is within the radius; with
    NO_CAPACITY exactly when there are in-range candidates, none is
    available, and fallback is disabled or no candidate is operational.
    It waitlists exactly when there are in-range candidates, none is
    available, fallback is enabled and some candidate is operational; it
    routes exactly when some in-range candidate is available. *)
Theorem routerTest_result_table (cfg : Config) (w : World)
  (locations : list Location.t) (s : RouterTest.State) :
  let C := RouterTest.inRangeCandidates cfg w locations s in
  let A := List.filter RouterTest.is_available C in
  let valid := JS.truthy (Lead.zip (RouterTest.lead s)) in
  let operational :=
    exists c, In c C /\ Capacity.isOperational (capacity c) = true in
  let result := fst (RouterTest.routeLead cfg w locations s) in
  (RouterTest.failure_code result = Some "INVALID_ZIP" <-> valid = false)
  /\ (RouterTest.failure_code result = Some "NO_LOCATIONS"
      <-> valid = true /\ locations = [])
  /\ (RouterTest.failure_code result = Some "OUT_OF_RANGE"
      <-> valid = true /\ locations <> [] /\ C = [])
  /\ (RouterTest.failure_code result = Some "NO_CAPACITY"
      <-> C <> [] /\ A = []
          /\ (FALLBACK_ENABLED cfg = false \/ ~ operational))
  /\ (RouterTest.waitlist_location result <> None
      <-> C <> [] /\ A = [] /\ FALLBACK_ENABLED cfg = true /\ operational)
  /\ (RouterTest.routed_location result <> None <-> A <> []).
Proof.
  intros C A valid operational result.
  pose proof (RT_decision cfg w locations s) as D. cbv zeta in D.
  fold C in D. fold A in D. fold valid in D. fold result in D.
  assert (Hop : forall fb, RouterTest.fallbackLocation C = Some fb ->
                  operational).
  { intros fb Hfb. exists fb. apply fallback_is_operational, Hfb. }
  assert (Hnop : RouterTest.fallbackLocation C = None -> ~ operational).
  { intros Hnone [c [Hc Hc']].
    rewrite (proj1 (fallback_none_iff C) Hnone c Hc) in Hc'.
    discriminate Hc'. }
  assert (Hnil : C = [] -> A = []) by (intros E; subst A; rewrite E; reflexivity).
  clearbody C A valid operational.
  destruct result as [code e a l | fb r h l | sel r h d t l];
    cbn [RouterTest.failure_code RouterTest.waitlist_location
         RouterTest.routed_location].
  - destruct D as [[-> [Hv HC]] | [[-> [Hv [Hl HC]]] | [[-> [Hv [Hl HC]]]
                  | [-> [Hv [Hl [HC [HA Hfb]]]]]]]].
    + table_rows.
    + table_rows.
    + table_rows.
    + table_rows.
      * repeat split; try assumption.
        destruct (FALLBACK_ENABLED cfg); [right; auto | left; reflexivity].
      * exfalso. destruct H as [_ [_ [Hfe Hsome]]]. rewrite Hfe in Hfb.
        apply (Hnop Hfb Hsome).
  - destruct D as [Hv [Hl [HC [HA [Hfe Hfb]]]]].
    table_rows.
    exfalso. destruct H as [_ [_ [Hoff | Hno]]]; [congruence |].
    apply Hno. eauto.
  - destruct D as [Hv [Hl [HC HA]]].
    assert (HA' : A <> []) by (intros E; rewrite E in HA; contradiction).
    table_rows.
Qed.

(** X6.  The result table of production-router's [routeLead], for every
    configuration, world, location list and router state.  The call
    fails with INVALID_LEAD exactly when the lead fails validation; with
    OUT_OF_RANGE exactly when the lead is valid and no location is
    within the radius (an empty location list included); with
    NO_CAPACITY exactly when there are in-range candidates and none is
    available; it succeeds exactly when some in-range candidate is
    available. *)
Theorem production_result_table (cfg : Config) (w : World)
  (locations : list Location.t) (s : ProductionRouter.State) :
  let C := ProductionRouter.inRangeCandidates cfg w locations s in
  let A := List.filter ProductionRouter.is_available C in
  let valid := ProductionRouter.validateLead (ProductionRouter.lead s) in
  let result := fst (ProductionRouter.routeLead cfg w locations s) in
  (ProductionRouter.failure_code result = Some "INVALID_LEAD"
   <-> valid = false)
  /\ (ProductionRouter.failure_code result = Some "OUT_OF_RANGE"
      <-> valid = true /\ C = [])
  /\ (ProductionRouter.failure_code result = Some "NO_CAPACITY"
      <-> C <> [] /\ A = [])
  /\ (ProductionRouter.routed_location result <> None <-> A <> []).
Proof.
  intros C A valid result.
  pose proof (PR_decision cfg w locations s) as D. cbv zeta in D.
  fold C in D. fold A in D. fold valid in D. fold result in D.
  assert (Hnil : C = [] -> A = []) by (intros E; subst A; rewrite E; reflexivity).
  clearbody C A valid.
  destruct result as [code e | sel d r h k];
    cbn [ProductionRouter.failure_code ProductionRouter.routed_location].
  - destruct D as [[-> [Hv HC]] | [[-> [Hv HC]] | [-> [Hv [HC HA]]]]];
      table_rows.
  - destruct D as [Hv [HC [HA _]]].
    assert (HA' : A <> []) by (intros E; rewrite E in HA; contradiction).
    table_rows.
Qed.

(** ** The location a call names *)

Lemma RT_named_candidate (cfg : Config) (w : World)
  (locations : list Location.t) (s : RouterTest.State) (c : Candidate) :
  RT_named (fst (RouterTest.routeLead cfg w locations s)) = Some c ->
  In c (RouterTest.inRangeCandidates cfg w locations s).
Proof.
  pose proof (RT_decision cfg w locations s) as D. cbv zeta in D.
  destruct (fst (RouterTest.routeLead cfg w locations s))
    as [code e a l | fb r h l | sel r h d t l]; cbn [RT_named]; intros E;
    [discriminate E | |]; injection E as <-.
  - destruct D as [_ [_ [_ [_ [_ Hfb]]]]].
    apply fallback_is_operational, Hfb.
  - destruct D as [_ [_ [_ HA]]]. apply List.filter_In in HA. apply HA.
Qed.

Lemma PR_routed_candidate (cfg : Config) (w : World)
  (locations : list Location.t) (s : ProductionRouter.State) (c : Candidate) :
  ProductionRouter.routed_location
    (fst (ProductionRouter.routeLead cfg w locations s)) = Some c ->
  In c (List.filter ProductionRouter.is_available
          (ProductionRouter.inRangeCandidates cfg w locations s)).
Proof.
  pose proof (PR_decision cfg w locations s) as D. cbv zeta in D.
  destruct (fst (ProductionRouter.routeLead cfg w locations s))
    as [code e | sel d r h k]; cbn [ProductionRouter.routed_location];
    intros E; [discriminate E |]; injection E as <-.
  apply D.
Qed.

(** X7.  For every configuration, world and location list, the location
    a call names is one of the locations it was given, measured within
    the service radius: of routerTest, the location of a routed and of a
    waitlisted result; of production-router, the location of a
    success. *)
Theorem served_location_is_in_range (cfg : Config) (w : World)
  (locations : list Location.t) :
  (forall (s : RouterTest.State) (c : Candidate),
     RT_named (fst (RouterTest.routeLead cfg w locations s)) = Some c ->
     In (location (located c)) locations
     /\ JS.le (candidate_distance c) (JS.of_Z (ZIP_RADIUS_MILES cfg)) = true)
  /\
  (forall (s : ProductionRouter.State) (c : Candidate),
     ProductionRouter.routed_location
       (fst (ProductionRouter.routeLead cfg w locations s)) = Some c ->
     In (location (located c)) locations
     /\ JS.le (candidate_distance c) (JS.of_Z (ZIP_RADIUS_MILES cfg)) = true).
Proof.
  split; intros s c Hc.
  - apply (RT_candidates_from_input cfg w locations s).
    apply RT_named_candidate, Hc.
  - apply (PR_candidates_from_input cfg w locations s).
    apply PR_routed_candidate in Hc. apply List.filter_In in Hc. apply Hc.
Qed.

Lemma served_location_is_in_range_witness :
  exists c,
    RT_named (fst (RouterTest.routeLead CONFIG Example.morning
                     Example.testLocations
                     (Example.test_start Example.lead_001))) = Some c
    /\ candidate_id c = "loc_001"
    /\ In (location (located c)) Example.testLocations
    /\ JS.le (candidate_distance c) (JS.of_Z (ZIP_RADIUS_MILES CONFIG)) = true.
Proof.
  eexists. split; [reflexivity |]. split; [reflexivity |].
  apply (proj1 (served_location_is_in_range CONFIG Example.morning
                  Example.testLocations)
           (Example.test_start Example.lead_001)).
  reflexivity.
Defined.

(** X8.  The state of the location a call names.  A location routerTest
    routes to has capacity and is operational; a location routerTest
    waitlists at is operational and has no capacity; a location
    production-router routes to has capacity and its status is
    active. *)
Theorem served_location_state (cfg : Config) (w : World)
  (locations : list Location.t) :
  (forall (s : RouterTest.State) (c : Candidate),
     RouterTest.routed_location
       (fst (RouterTest.routeLead cfg w locations s)) = Some c ->
     Capacity.hasCapacity (capacity c) = true
     /\ Capacity.isOperational (capacity c) = true)
  /\
  (forall (s : RouterTest.State) (c : Candidate),
     RouterTest.waitlist_location
       (fst (RouterTest.routeLead cfg w locations s)) = Some c ->
     Capacity.hasCapacity (capacity c) = false
     /\ Capacity.isOperational (capacity c) = true)
  /\
  (forall (s : ProductionRouter.State) (c : Candidate),
     ProductionRouter.routed_location
       (fst (ProductionRouter.routeLead cfg w locations s)) = Some c ->
     Capacity.hasCapacity (capacity c) = true
     /\ Location.status (location (located c)) = "active").
Proof.
  split; [| split]; intros s c Hc.
  - pose proof (RT_decision cfg w locations s) as D. cbv zeta in D.
    destruct (fst (RouterTest.routeLead cfg w locations s))
      as [code e a l | fb r h l | sel r h d t l];
      try discriminate Hc.
    injection Hc as <-. destruct D as [_ [_ [_ HA]]].
    apply List.filter_In in HA. destruct HA as [_ HA].
    apply andb_prop in HA. exact HA.
  - pose proof (RT_decision cfg w locations s) as D. cbv zeta in D.
    destruct (fst (RouterTest.routeLead cfg w locations s))
      as [code e a l | fb r h l | sel r h d t l];
      try discriminate Hc.
    injection Hc as <-. destruct D as [_ [_ [_ [HA [_ Hfb]]]]].
    apply fallback_is_operational in Hfb. destruct Hfb as [Hin Hop].
    split; [| exact Hop].
    destruct (Capacity.hasCapacity (capacity fb)) eqn:Hcap; [| reflexivity].
    assert (Hav : In fb (List.filter RouterTest.is_available
                           (RouterTest.inRangeCandidates cfg w locations s))).
    { apply List.filter_In. split; [exact Hin |].
      unfold RouterTest.is_available. rewrite Hcap, Hop. reflexivity. }
    rewrite HA in Hav. contradiction.
  - apply PR_routed_candidate in Hc. apply List.filter_In in Hc.
    destruct Hc as [_ Hc]. apply andb_prop in Hc. destruct Hc as [H1 H2].
    split; [exact H1 |]. apply String.eqb_eq. exact H2.
Qed.

(** A waitlisted location of routerTest; and the location
    production-router routes to when the record drawn for the closest
    candidate says it is full. *)
Lemma served_location_state_witness :
  (exists c,
     RouterTest.waitlist_location
       (fst (RouterTest.routeLead CONFIG Example.morning
               Example.overCapacityLocations
               (Example.test_start Example.lead_001))) = Some c
     /\ Capacity.hasCapacity (capacity c) = false
     /\ Capacity.isOperational (capacity c) = true)
  /\
  (exists c,
     ProductionRouter.routed_location
       (fst (ProductionRouter.routeLead CONFIG Example.first_draw_full
               Example.testLocations
               (Example.production_start Example.lead_001))) = Some c
     /\ candidate_id c = "loc_003"
     /\ Capacity.hasCapacity (capacity c) = true
     /\ Location.status (location (located c)) = "active").
Proof.
  split.
  - eexists. split; [reflexivity |].
    apply (proj1 (proj2 (served_location_state CONFIG Example.morning
                           Example.overCapacityLocations))
             (Example.test_start Example.lead_001)).
    reflexivity.
  - eexists. split; [vm_compute; reflexivity |]. split; [reflexivity |].
    apply (proj2 (proj2 (served_location_state CONFIG Example.first_draw_full
                           Example.testLocations))
             (Example.production_start Example.lead_001)).
    vm_compute. reflexivity.
Defined.

(** ** The effects of a call, in order *)

Lemma mapM_trace {S A B : Type} (tr : S -> list Effect) (f : A -> M S B)
  (g : A -> list Effect) :
  (forall a s, tr (snd (f a s)) = tr s ++ g a) ->
  forall l s, tr (snd (mapM f l s)) = tr s ++ List.flat_map g l.
Proof.
  intros Hf. induction l as [| x l IH]; intros s.
  - cbn. symmetry. apply app_nil_r.
  - rewrite mapM_cons. cbn [snd List.flat_map].
    rewrite IH, Hf, <- app_assoc. reflexivity.
Qed.

Lemma capacity_requests_of_located (cfg : Config) (lwc : list Candidate) :
  List.flat_map
    (fun loc : Located =>
       if String.eqb (JSONBIN_API_KEY cfg) "" then []
       else [Fetch_capacity (Location.id (location loc))])
    (List.map located lwc)
  = capacity_requests cfg lwc.
Proof.
  unfold capacity_requests.
  destruct (String.eqb (JSONBIN_API_KEY cfg) "");
    induction lwc as [| c lwc IH]; cbn; try reflexivity.
  - exact IH.
  - rewrite IH. reflexivity.
Qed.

Section RouterTestTrace.
Context (cfg : Config) (w : World).

Lemma RT_withDistance_trace (z : string) (loc : Location.t)
  (s : RouterTest.State) :
  RouterTest.trace (snd (RouterTest.withDistance w z loc s))
  = RouterTest.trace s ++ [Fetch_zip z; Fetch_zip (Location.zipCode loc)].
Proof.
  unfold RouterTest.withDistance, RouterTest.calculateDistanceReal,
    RouterTest.getZipCoordinates.
  rewrite !bind_run. cbn. rewrite <- app_assoc. reflexivity.
Qed.

Lemma RT_getNearestLocations_trace (z : string) (locations : list Location.t)
  (s : RouterTest.State) :
  RouterTest.trace (snd (RouterTest.getNearestLocations cfg w z locations s))
  = RouterTest.trace s ++ geocoding_requests z locations.
Proof.
  unfold RouterTest.getNearestLocations. rewrite bind_run. cbn [ret snd].
  apply (mapM_trace RouterTest.trace). intros loc s'.
  apply RT_withDistance_trace.
Qed.

Lemma RT_withCapacity_trace (loc : Located) (s : RouterTest.State) :
  RouterTest.trace (snd (RouterTest.withCapacity cfg w loc s))
  = RouterTest.trace s
    ++ (if String.eqb (JSONBIN_API_KEY cfg) "" then []
        else [Fetch_capacity (Location.id (location loc))]).
Proof.
  unfold RouterTest.withCapacity, RouterTest.checkLocationCapacity.
  rewrite !bind_run.
  destruct (String.eqb (JSONBIN_API_KEY cfg) "").
  - cbn. symmetry. apply app_nil_r.
  - unfold RouterTest.getLocationCapacityFromAPI. rewrite !bind_run.
    cbn [get fst snd ret RouterTest.emit modify].
    destruct (jsonbin_capacity w _ _); reflexivity.
Qed.

Lemma RT_candidates_trace (nearest : list Located) (s : RouterTest.State) :
  let r := mapM (RouterTest.withCapacity cfg w) nearest s in
  RouterTest.trace (snd r)
  = RouterTest.trace s ++ capacity_requests cfg (fst r).
Proof.
  intros r. subst r.
  rewrite (mapM_trace RouterTest.trace _ _ RT_withCapacity_trace).
  f_equal. rewrite <- capacity_requests_of_located.
  rewrite (mapM_section (RouterTest.withCapacity cfg w) located)
    by (intros; apply RT_withCapacity_located).
  reflexivity.
Qed.

Lemma RT_routeLead_trace (locations : list Location.t)
  (s : RouterTest.State) (z : string) :
  Lead.zip (RouterTest.lead s) = Some z -> z <> "" -> locations <> [] ->
  let result := fst (RouterTest.routeLead cfg w locations s) in
  exists reason,
    RouterTest.trace (snd (RouterTest.routeLead cfg w locations s))
    = RouterTest.trace s
      ++ Write_finalScore (RouterTest.calculateLeadScore w (RouterTest.lead s))
         :: geocoding_requests z locations
      ++ capacity_requests cfg (RouterTest.inRangeCandidates cfg w locations s)
      ++ [Log reason (option_map candidate_id (RT_named result))].
Proof.
  intros Hzip Hz Hlocs result. subst result.
  unfold RouterTest.inRangeCandidates, RouterTest.gatherCandidates.
  unfold RouterTest.routeLead. rewrite !bind_run. cbn [get fst snd].
  rewrite Hzip. destruct z as [| c z]; [congruence |].
  destruct locations as [| l0 ls]; [congruence |].
  rewrite !bind_run.
  change (snd (RouterTest.assign_finalScore
                 (RouterTest.calculateLeadScore w (RouterTest.lead s)) s))
    with (RouterTest.scored w s).
  set (s0 := RouterTest.scored w s).
  assert (T0 : RouterTest.trace s0
               = RouterTest.trace s
                 ++ [Write_finalScore
                       (RouterTest.calculateLeadScore w (RouterTest.lead s))])
    by reflexivity.
  pose proof (RT_getNearestLocations_trace (String c z) (l0 :: ls) s0) as T1.
  set (near := RouterTest.getNearestLocations cfg w (String c z) (l0 :: ls) s0)
    in *.
  pose proof (RT_candidates_trace (fst near) (snd near)) as T2.
  cbv zeta in T2.
  set (r := mapM (RouterTest.withCapacity cfg w) (fst near) (snd near)) in *.
  assert (Hfinish : forall reason sel (s2 : RouterTest.State),
            RouterTest.trace s2
            = RouterTest.trace (snd near) ++ capacity_requests cfg (fst r) ->
            RouterTest.trace s2 ++ [Log reason sel]
            = RouterTest.trace s
              ++ Write_finalScore
                   (RouterTest.calculateLeadScore w (RouterTest.lead s))
                 :: geocoding_requests (String c z) (l0 :: ls)
              ++ capacity_requests cfg (fst r) ++ [Log reason sel]).
  { intros reason sel s2 ->. rewrite T1, T0.
    rewrite <- !app_assoc. reflexivity. }
  destruct (fst near) as [| n0 ns] eqn:Enear.
  - rewrite !bind_run. cbn [fst snd RT_named option_map].
    eexists. unfold RouterTest.logRoutingDecision.
    cbn [RouterTest.emit modify get ret fst snd RouterTest.trace option_map].
    apply Hfinish. exact T2.
  - rewrite bind_run. fold r.
    destruct (List.filter RouterTest.is_available (fst r)) as [| a0 avail].
    + destruct (if FALLBACK_ENABLED cfg then RouterTest.fallbackLocation (fst r)
                else None) as [fb |].
      * rewrite !bind_run. cbn [fst snd RT_named].
        eexists. unfold RouterTest.logRoutingDecision.
        cbn [RouterTest.emit modify get ret fst snd RouterTest.trace].
        apply Hfinish, T2.
      * unfold RouterTest.noCapacity. rewrite !bind_run.
        cbn [fst snd RT_named].
        eexists. unfold RouterTest.logRoutingDecision.
        cbn [RouterTest.emit modify get ret fst snd RouterTest.trace].
        apply Hfinish, T2.
    + rewrite bind_run. cbn [get fst snd].
      destruct (finalScore_ge (RouterTest.lead (snd r))
                  (HIGH_SCORE_THRESHOLD cfg));
        [| destruct (List.find RouterTest.is_low_traffic (a0 :: avail))];
        unfold RouterTest.routed; rewrite !bind_run; cbn [fst snd RT_named];
        eexists; unfold RouterTest.logRoutingDecision;
        cbn [RouterTest.emit modify get ret fst snd RouterTest.trace];
        apply Hfinish, T2.
Qed.

End RouterTestTrace.
Section ProductionRouterTrace.
Context (cfg : Config) (w : World).

Lemma PR_withDistance_trace (cache0 : gmap string JS.number) (z : string)
  (loc : Location.t) (s : ProductionRouter.State) :
  ProductionRouter.trace (snd (ProductionRouter.withDistance w cache0 z loc s))
  = ProductionRouter.trace s
    ++ (if is_cached cache0 z loc then []
        else [Fetch_zip z; Fetch_zip (Location.zipCode loc)]).
Proof.
  unfold ProductionRouter.withDistance, is_cached.
  destruct (cache0 !! ProductionRouter.cacheKey z loc) as [d |].
  - rewrite !bind_run. cbn. symmetry. apply app_nil_r.
  - unfold ProductionRouter.calculateRealDistance,
      ProductionRouter.getZipCoordinates.
    rewrite !bind_run. cbn. rewrite <- app_assoc. reflexivity.
Qed.

Lemma geocoding_requests_uncached (cache0 : gmap string JS.number)
  (z : string) (locations : list Location.t) :
  List.flat_map
    (fun loc => if is_cached cache0 z loc then []
                else [Fetch_zip z; Fetch_zip (Location.zipCode loc)])
    locations
  = geocoding_requests z (uncached cache0 z locations).
Proof.
  unfold geocoding_requests, uncached.
  induction locations as [| loc l IH]; [reflexivity |].
  cbn [List.flat_map List.filter].
  destruct (is_cached cache0 z loc); cbn [negb List.flat_map];
    rewrite IH; reflexivity.
Qed.

Lemma PR_getNearestLocationsReal_trace (z : string)
  (locations : list Location.t) (s : ProductionRouter.State) :
  ProductionRouter.trace
    (snd (ProductionRouter.getNearestLocationsReal cfg w z locations s))
  = ProductionRouter.trace s
    ++ geocoding_requests z (uncached (ProductionRouter.cache s) z locations).
Proof.
  rewrite PR_getNearestLocationsReal_run. cbn [snd].
  rewrite (mapM_trace ProductionRouter.trace _ _
             (PR_withDistance_trace (ProductionRouter.cache s) z)).
  rewrite geocoding_requests_uncached. reflexivity.
Qed.

Lemma PR_withCapacity_trace (loc : Located) (s : ProductionRouter.State) :
  ProductionRouter.trace (snd (ProductionRouter.withCapacity cfg w loc s))
  = ProductionRouter.trace s
    ++ (if String.eqb (JSONBIN_API_KEY cfg) "" then []
        else [Fetch_capacity (Location.id (location loc))]).
Proof.
  unfold ProductionRouter.withCapacity,
    ProductionRouter.getLocationCapacityReal.
  rewrite !bind_run. cbn [ret snd].
  destruct (String.eqb (JSONBIN_API_KEY cfg) "").
  - cbn. symmetry. apply app_nil_r.
  - rewrite !bind_run. cbn [get fst snd].
    destruct (jsonbin_capacity w _ _); reflexivity.
Qed.

Lemma PR_candidates_trace (nearest : list Located)
  (s : ProductionRouter.State) :
  let r := ProductionRouter.checkLocationCapacities cfg w nearest s in
  ProductionRouter.trace (snd r)
  = ProductionRouter.trace s ++ capacity_requests cfg (fst r).
Proof.
  intros r. subst r. unfold ProductionRouter.checkLocationCapacities.
  rewrite (mapM_trace ProductionRouter.trace _ _ PR_withCapacity_trace).
  f_equal. rewrite <- capacity_requests_of_located.
  rewrite (mapM_section (ProductionRouter.withCapacity cfg w) located)
    by (intros; apply PR_withCapacity_located).
  reflexivity.
Qed.

(** Checking capacities leaves the cache and the counters alone. *)
Lemma PR_candidates_keep (nearest : list Located)
  (s : ProductionRouter.State) :
  let s' := snd (ProductionRouter.checkLocationCapacities cfg w nearest s) in
  ProductionRouter.cache s' = ProductionRouter.cache s
  /\ ProductionRouter.metrics s' = ProductionRouter.metrics s.
Proof.
  cbv zeta. unfold ProductionRouter.checkLocationCapacities.
  apply (mapM_preserves
           (fun a b => ProductionRouter.cache b = ProductionRouter.cache a
                       /\ ProductionRouter.metrics b
                          = ProductionRouter.metrics a)).
  - intros a. split; reflexivity.
  - intros a b c [H1 H2] [H3 H4]. split; congruence.
  - intros loc s'.
    unfold ProductionRouter.withCapacity,
      ProductionRouter.getLocationCapacityReal.
    rewrite !bind_run. cbn [ret snd].
    destruct (String.eqb (JSONBIN_API_KEY cfg) "");
      [split; reflexivity |].
    rewrite !bind_run. cbn [get fst snd].
    destruct (jsonbin_capacity w _ _); split; reflexivity.
Qed.

(** The state a validated call of production-router ends in. *)
Lemma PR_routeLead_state (locations : list Location.t)
  (s : ProductionRouter.State) (z : string) :
  Lead.zip (ProductionRouter.lead s) = Some z ->
  ProductionRouter.validateLead (ProductionRouter.lead s) = true ->
  let s0 := ProductionRouter.scored w s in
  let near := ProductionRouter.getNearestLocationsReal cfg w z locations s0 in
  let r := ProductionRouter.checkLocationCapacities cfg w (fst near) (snd near) in
  let result := fst (ProductionRouter.routeLead cfg w locations s) in
  let s' := snd (ProductionRouter.routeLead cfg w locations s) in
  ProductionRouter.cache s' = ProductionRouter.cache (snd near)
  /\ ProductionRouter.metrics s'
     = (if succeeded result
        then ProductionRouter.count_successfulRoute
               (ProductionRouter.metrics (snd near))
        else ProductionRouter.metrics (snd near))
  /\ exists outcome,
       ProductionRouter.trace s'
       = ProductionRouter.trace (snd r)
         ++ [Log outcome
               (option_map candidate_id
                  (ProductionRouter.routed_location result))].
Proof.
  intros Hz Hv s0 near r result s'. subst result s'.
  unfold ProductionRouter.routeLead. rewrite !bind_run.
  cbn [get fst snd ProductionRouter.set_metrics modify ProductionRouter.lead].
  rewrite Hv, Hz. cbn [negb]. rewrite !bind_run.
  match goal with
  | |- context [ProductionRouter.getNearestLocationsReal cfg w z locations ?s1] =>
      change s1 with s0
  end.
  fold near.
  pose proof (PR_candidates_keep (fst near) (snd near)) as [Kc Km].
  cbv zeta in Kc, Km. fold r in Kc, Km.
  destruct (fst near) as [| n0 ns] eqn:Enear.
  - rewrite !bind_run. unfold ProductionRouter.logRoutingEvent.
    cbn [fst snd ret modify ProductionRouter.emit ProductionRouter.cache
         ProductionRouter.metrics ProductionRouter.trace succeeded
         ProductionRouter.routed_location option_map].
    repeat split. eexists. reflexivity.
  - rewrite !bind_run. cbn [get fst snd]. fold r.
    destruct (ProductionRouter.selectOptimalLocation cfg
                (ProductionRouter.lead (snd r)) (fst r)) as [sel |];
      rewrite !bind_run; unfold ProductionRouter.logRoutingEvent;
      cbn [fst snd ret modify ProductionRouter.emit
           ProductionRouter.set_metrics ProductionRouter.cache
           ProductionRouter.metrics ProductionRouter.trace succeeded
           ProductionRouter.routed_location option_map];
      rewrite Kc, Km; repeat split; eexists; reflexivity.
Qed.

End ProductionRouterTrace.
(** ** production-router.js: the cache and the counters *)

Section ProductionRouterCache.
Context (cfg : Config) (w : World).

Lemma PR_measure_metrics (cache0 : gmap string JS.number) (z : string)
  (l : list Location.t) (s : ProductionRouter.State) :
  let m := ProductionRouter.metrics s in
  let m' :=
    ProductionRouter.metrics
      (snd (mapM (ProductionRouter.withDistance w cache0 z) l s)) in
  ProductionRouter.apiCalls m' = ProductionRouter.apiCalls m
  /\ ProductionRouter.cacheHits m'
     = (ProductionRouter.cacheHits m
        + List.length (List.filter (is_cached cache0 z) l))%nat
  /\ ProductionRouter.errors m' = ProductionRouter.errors m
  /\ ProductionRouter.successfulRoutes m'
     = ProductionRouter.successfulRoutes m.
Proof.
  cbv zeta. revert s. induction l as [| loc l IH]; intros s.
  - cbn. repeat split. lia.
  - rewrite mapM_cons. cbn [snd List.filter].
    specialize (IH (snd (ProductionRouter.withDistance w cache0 z loc s))).
    destruct IH as [I1 [I2 [I3 I4]]]. rewrite I1, I2, I3, I4.
    unfold ProductionRouter.withDistance, is_cached.
    destruct (cache0 !! ProductionRouter.cacheKey z loc) as [d |].
    + rewrite !bind_run. cbn. repeat split. lia.
    + unfold ProductionRouter.calculateRealDistance,
        ProductionRouter.getZipCoordinates.
      rewrite !bind_run. cbn. repeat split.
Qed.

(** A cached distance is used as it is. *)
Lemma PR_measure_cached (cache0 : gmap string JS.number) (z : string)
  (l : list Location.t) (s : ProductionRouter.State) :
  Forall (fun x => forall d,
            cache0 !! ProductionRouter.cacheKey z (location x) = Some d ->
            distance x = d)
    (fst (mapM (ProductionRouter.withDistance w cache0 z) l s)).
Proof.
  apply mapM_Forall. intros loc s'.
  rewrite PR_withDistance_location. intros d Hd.
  unfold ProductionRouter.withDistance. rewrite Hd, !bind_run. reflexivity.
Qed.

Lemma PR_withDistance_cache (cache0 : gmap string JS.number) (z : string)
  (loc : Location.t) (s : ProductionRouter.State) :
  let r := ProductionRouter.withDistance w cache0 z loc s in
  ProductionRouter.cache (snd r)
  = if is_cached cache0 z loc then ProductionRouter.cache s
    else <[ProductionRouter.cacheKey z loc := distance (fst r)]>
           (ProductionRouter.cache s).
Proof.
  cbv zeta. unfold ProductionRouter.withDistance, is_cached.
  destruct (cache0 !! ProductionRouter.cacheKey z loc) as [d |].
  - rewrite !bind_run. reflexivity.
  - unfold ProductionRouter.calculateRealDistance,
      ProductionRouter.getZipCoordinates.
    rewrite !bind_run. reflexivity.
Qed.

(** What measuring the locations does to the cache: the entries the call
    found stay as they are, every location has an entry afterwards, and
    a new entry is the distance measured for a location. *)
Lemma PR_measure_cache (cache0 : gmap string JS.number) (z : string)
  (l : list Location.t) (s : ProductionRouter.State) :
  cache0 ⊆ ProductionRouter.cache s ->
  let r := mapM (ProductionRouter.withDistance w cache0 z) l s in
  cache0 ⊆ ProductionRouter.cache (snd r)
  /\ (forall k, is_Some (ProductionRouter.cache s !! k) ->
                is_Some (ProductionRouter.cache (snd r) !! k))
  /\ (forall loc, In loc l ->
        is_Some (ProductionRouter.cache (snd r)
                   !! ProductionRouter.cacheKey z loc))
  /\ (forall k d, ProductionRouter.cache (snd r) !! k = Some d ->
        ProductionRouter.cache s !! k = Some d
        \/ exists x, In x (fst r)
                     /\ k = ProductionRouter.cacheKey z (location x)
                     /\ distance x = d).
Proof.
  cbv zeta. revert s. induction l as [| loc l IH]; intros s Hsub.
  - cbn. repeat split; auto. intros loc [].
  - rewrite mapM_cons. cbn [fst snd].
    set (r1 := ProductionRouter.withDistance w cache0 z loc s).
    pose proof (PR_withDistance_cache cache0 z loc s) as Hc. cbv zeta in Hc.
    fold r1 in Hc.
    pose proof (PR_withDistance_location w cache0 z loc s) as Hl.
    fold r1 in Hl.
    assert (Hsub1 : cache0 ⊆ ProductionRouter.cache (snd r1)).
    { rewrite Hc. unfold is_cached.
      destruct (cache0 !! ProductionRouter.cacheKey z loc) eqn:E;
        [exact Hsub |].
      apply insert_subseteq_r; assumption. }
    assert (Hmono1 : forall k, is_Some (ProductionRouter.cache s !! k) ->
                       is_Some (ProductionRouter.cache (snd r1) !! k)).
    { intros k Hk. rewrite Hc. destruct (is_cached cache0 z loc); [exact Hk |].
      apply lookup_insert_is_Some'. right. exact Hk. }
    assert (Hhere : is_Some (ProductionRouter.cache (snd r1)
                               !! ProductionRouter.cacheKey z loc)).
    { rewrite Hc. unfold is_cached.
      destruct (cache0 !! ProductionRouter.cacheKey z loc) as [d |] eqn:E.
      - exists d. apply (lookup_weaken _ _ _ _ E Hsub).
      - apply lookup_insert_is_Some'. left. reflexivity. }
    destruct (IH (snd r1) Hsub1) as [I1 [I2 [I3 I4]]].
    split; [exact I1 |]. split; [| split].
    + intros k Hk. apply I2, Hmono1, Hk.
    + intros loc' [<- | Hin]; [apply I2, Hhere | apply I3, Hin].
    + intros k d Hk. destruct (I4 k d Hk) as [Hold | [x [Hx [Hkx Hdx]]]].
      * rewrite Hc in Hold. destruct (is_cached cache0 z loc);
          [left; exact Hold |].
        destruct (decide (k = ProductionRouter.cacheKey z loc)) as [-> | Hne].
        -- rewrite lookup_insert_eq in Hold. injection Hold as Hold.
           right. exists (fst r1). split; [left; reflexivity |].
           rewrite Hl. split; [reflexivity | exact Hold].
        -- rewrite lookup_insert_ne in Hold by congruence.
           left. exact Hold.
      * right. exists x. split; [right; exact Hx | split; assumption].
Qed.

End ProductionRouterCache.

Lemma valid_lead_zip (lead : Lead.t) :
  ProductionRouter.validateLead lead = true ->
  Lead.zip lead = Some (zip_of lead).
Proof.
  unfold ProductionRouter.validateLead, zip_of.
  destruct (Lead.zip lead) as [z |]; [reflexivity |].
  rewrite Bool.andb_false_r. discriminate.
Qed.

Lemma truthy_zip (lead : Lead.t) :
  JS.truthy (Lead.zip lead) = true ->
  Lead.zip lead = Some (zip_of lead) /\ zip_of lead <> "".
Proof.
  unfold zip_of. destruct (Lead.zip lead) as [[| c z] |];
    try discriminate. intros _. split; [reflexivity | discriminate].
Qed.

Lemma PR_inRangeCandidates_valid (cfg : Config) (w : World)
  (locations : list Location.t) (s : ProductionRouter.State) :
  ProductionRouter.validateLead (ProductionRouter.lead s) = true ->
  let near :=
    ProductionRouter.getNearestLocationsReal cfg w
      (zip_of (ProductionRouter.lead s)) locations
      (ProductionRouter.scored w s) in
  ProductionRouter.inRangeCandidates cfg w locations s
  = fst (ProductionRouter.checkLocationCapacities cfg w (fst near) (snd near)).
Proof.
  intros Hv near. subst near. unfold ProductionRouter.inRangeCandidates.
  rewrite (valid_lead_zip _ Hv), Hv.
  unfold ProductionRouter.gatherCandidates. rewrite bind_run. reflexivity.
Qed.

Lemma PR_routeLead_trace (cfg : Config) (w : World)
  (locations : list Location.t) (s : ProductionRouter.State) :
  ProductionRouter.validateLead (ProductionRouter.lead s) = true ->
  let z := zip_of (ProductionRouter.lead s) in
  let result := fst (ProductionRouter.routeLead cfg w locations s) in
  exists outcome,
    ProductionRouter.trace
      (snd (ProductionRouter.routeLead cfg w locations s))
    = ProductionRouter.trace s
      ++ Write_finalScore
           (ProductionRouter.calculateLeadScore w (ProductionRouter.lead s))
         :: geocoding_requests z
              (uncached (ProductionRouter.cache s) z locations)
      ++ capacity_requests cfg
           (ProductionRouter.inRangeCandidates cfg w locations s)
      ++ [Log outcome
            (option_map candidate_id
               (ProductionRouter.routed_location result))].
Proof.
  intros Hv z result. subst z result.
  pose proof (valid_lead_zip _ Hv) as Hz.
  destruct (PR_routeLead_state cfg w locations s _ Hz Hv)
    as [_ [_ [outcome Ht]]].
  exists outcome. rewrite Ht.
  rewrite (PR_inRangeCandidates_valid cfg w locations s Hv). cbv zeta.
  rewrite PR_candidates_trace, PR_getNearestLocationsReal_trace.
  change (ProductionRouter.cache (ProductionRouter.scored w s))
    with (ProductionRouter.cache s).
  change (ProductionRouter.trace (ProductionRouter.scored w s))
    with (ProductionRouter.trace s
          ++ [Write_finalScore
                (ProductionRouter.calculateLeadScore w
                   (ProductionRouter.lead s))]).
  rewrite <- !app_assoc. reflexivity.
Qed.

(** X9.  The effects of a call of routerTest's [routeLead], in order.  A
    call that fails validation (no zip, or no location) does nothing: the
    lead object and the outside are as before.  Every other call writes
    the score, then asks the geocoding service twice per location of the
    list, in list order, for the zip of the lead and for the zip of the
    location; then, only if a JSONBin key is configured, asks for the
    capacity of each in-range candidate, in order of distance; and last
    delivers exactly one log record, which names the location of the
    result, routed or waitlisted, if there is one. *)
Theorem routerTest_effects_in_order (cfg : Config) (w : World)
  (locations : list Location.t) (s : RouterTest.State) :
  let result := fst (RouterTest.routeLead cfg w locations s) in
  let s' := snd (RouterTest.routeLead cfg w locations s) in
  (JS.truthy (Lead.zip (RouterTest.lead s)) = false \/ locations = [] ->
   s' = s)
  /\
  (JS.truthy (Lead.zip (RouterTest.lead s)) = true -> locations <> [] ->
   exists reason,
     RouterTest.trace s'
     = RouterTest.trace s
       ++ Write_finalScore (RouterTest.calculateLeadScore w (RouterTest.lead s))
          :: geocoding_requests (zip_of (RouterTest.lead s)) locations
       ++ capacity_requests cfg
            (RouterTest.inRangeCandidates cfg w locations s)
       ++ [Log reason (option_map candidate_id (RT_named result))]).
Proof.
  cbv zeta. split.
  - intros [Hzip | ->].
    + rewrite (RT_routeLead_missing_zip cfg w locations s Hzip). reflexivity.
    + unfold RouterTest.routeLead. rewrite bind_run. cbn [get fst snd].
      destruct (Lead.zip (RouterTest.lead s)) as [[| c z] |]; reflexivity.
  - intros Hzip Hlocs. destruct (truthy_zip _ Hzip) as [Hz Hne].
    apply (RT_routeLead_trace cfg w locations s _ Hz Hne Hlocs).
Qed.

Lemma routerTest_effects_in_order_witness :
  let s := Example.test_start Example.lead_001 in
  let locations := [Example.loc_002; Example.loc_005] in
  exists reason,
    RouterTest.trace (snd (RouterTest.routeLead CONFIG Example.morning
                             locations s))
    = RouterTest.trace s
      ++ Write_finalScore
           (RouterTest.calculateLeadScore Example.morning (RouterTest.lead s))
         :: geocoding_requests (zip_of (RouterTest.lead s)) locations
      ++ capacity_requests CONFIG
           (RouterTest.inRangeCandidates CONFIG Example.morning locations s)
      ++ [Log reason
            (option_map candidate_id
               (RT_named (fst (RouterTest.routeLead CONFIG Example.morning
                                 locations s))))].
Proof.
  intros s locations.
  apply (proj2 (routerTest_effects_in_order CONFIG Example.morning
                  locations s)).
  - reflexivity.
  - discriminate.
Defined.

(** X10.  The effects of a call of production-router's [routeLead], in
    order.  A call whose lead fails validation reaches nothing outside
    the router.  Every other call writes the score, then asks the
    geocoding service twice for each location whose distance the cache
    did not hold when the call began, and not at all for the others;
    then, only if a JSONBin key is configured, asks for the capacity of
    each in-range candidate; and last delivers exactly one log record,
    which names the location the call routed to, if any. *)
Theorem production_effects_in_order (cfg : Config) (w : World)
  (locations : list Location.t) (s : ProductionRouter.State) :
  let z := zip_of (ProductionRouter.lead s) in
  let result := fst (ProductionRouter.routeLead cfg w locations s) in
  let s' := snd (ProductionRouter.routeLead cfg w locations s) in
  (ProductionRouter.validateLead (ProductionRouter.lead s) = false ->
   ProductionRouter.trace s' = ProductionRouter.trace s
   /\ ProductionRouter.lead s' = ProductionRouter.lead s)
  /\
  (ProductionRouter.validateLead (ProductionRouter.lead s) = true ->
   exists outcome,
     ProductionRouter.trace s'
     = ProductionRouter.trace s
       ++ Write_finalScore
            (ProductionRouter.calculateLeadScore w (ProductionRouter.lead s))
          :: geocoding_requests z
               (uncached (ProductionRouter.cache s) z locations)
       ++ capacity_requests cfg
            (ProductionRouter.inRangeCandidates cfg w locations s)
       ++ [Log outcome
             (option_map candidate_id
                (ProductionRouter.routed_location result))]).
Proof.
  cbv zeta. split; intros Hv.
  - rewrite (PR_routeLead_invalid cfg w locations s Hv). split; reflexivity.
  - apply (PR_routeLead_trace cfg w locations s Hv).
Qed.

Lemma production_effects_in_order_witness :
  let s := Example.production_start Example.lead_001 in
  let locations := [Example.loc_002; Example.loc_005] in
  let z := zip_of (ProductionRouter.lead s) in
  exists outcome,
    ProductionRouter.trace
      (snd (ProductionRouter.routeLead CONFIG Example.morning locations s))
    = ProductionRouter.trace s
      ++ Write_finalScore
           (ProductionRouter.calculateLeadScore Example.morning
              (ProductionRouter.lead s))
         :: geocoding_requests z
              (uncached (ProductionRouter.cache s) z locations)
      ++ capacity_requests CONFIG
           (ProductionRouter.inRangeCandidates CONFIG Example.morning
              locations s)
      ++ [Log outcome
            (option_map candidate_id
               (ProductionRouter.routed_location
                  (fst (ProductionRouter.routeLead CONFIG Example.morning
                          locations s))))].
Proof.
  intros s locations z.
  apply (proj2 (production_effects_in_order CONFIG Example.morning
                  locations s)).
  reflexivity.
Defined.

Section ProductionRouterCalls.
Context (cfg : Config) (w : World).

(** The cache and the counters after a validated call, from those of the
    measuring step. *)
Lemma PR_routeLead_measured (locations : list Location.t)
  (s : ProductionRouter.State) :
  ProductionRouter.validateLead (ProductionRouter.lead s) = true ->
  let z := zip_of (ProductionRouter.lead s) in
  let r :=
    mapM (ProductionRouter.withDistance w (ProductionRouter.cache s) z)
      locations (ProductionRouter.scored w s) in
  let result := fst (ProductionRouter.routeLead cfg w locations s) in
  let s' := snd (ProductionRouter.routeLead cfg w locations s) in
  ProductionRouter.cache s' = ProductionRouter.cache (snd r)
  /\ ProductionRouter.metrics s'
     = (if succeeded result
        then ProductionRouter.count_successfulRoute
               (ProductionRouter.metrics (snd r))
        else ProductionRouter.metrics (snd r))
  /\ (forall c, In c (ProductionRouter.inRangeCandidates cfg w locations s) ->
        In (located c) (fst r)).
Proof.
  intros Hv z r result s'. subst result s'.
  pose proof (valid_lead_zip _ Hv) as Hz. fold z in Hz.
  destruct (PR_routeLead_state cfg w locations s z Hz Hv) as [Hc [Hm _]].
  rewrite PR_getNearestLocationsReal_run in Hc, Hm. cbn [snd] in Hc, Hm.
  split; [exact Hc | split; [exact Hm |]].
  intros c Hin.
  rewrite (PR_inRangeCandidates_valid cfg w locations s Hv) in Hin.
  cbv zeta in Hin. fold z in Hin.
  apply (List.in_map located) in Hin.
  unfold ProductionRouter.checkLocationCapacities in Hin.
  rewrite (mapM_section (ProductionRouter.withCapacity cfg w) located) in Hin
    by (intros; apply PR_withCapacity_located).
  rewrite PR_getNearestLocationsReal_run in Hin. cbn [fst] in Hin.
  apply Array_sort_In, List.filter_In in Hin. apply Hin.
Qed.

End ProductionRouterCalls.

(** The cache after a validated call. *)
Lemma PR_routeLead_cache (cfg : Config) (w : World)
  (locations : list Location.t) (s : ProductionRouter.State) :
  ProductionRouter.validateLead (ProductionRouter.lead s) = true ->
  let z := zip_of (ProductionRouter.lead s) in
  let r :=
    mapM (ProductionRouter.withDistance w (ProductionRouter.cache s) z)
      locations (ProductionRouter.scored w s) in
  let s' := snd (ProductionRouter.routeLead cfg w locations s) in
  ProductionRouter.cache s ⊆ ProductionRouter.cache s'
  /\ (forall loc, In loc locations ->
        is_Some (ProductionRouter.cache s'
                   !! ProductionRouter.cacheKey z loc))
  /\ (forall k d, ProductionRouter.cache s' !! k = Some d ->
        ProductionRouter.cache s !! k = Some d
        \/ exists x, In x (fst r)
                     /\ k = ProductionRouter.cacheKey z (location x)
                     /\ distance x = d).
Proof.
  intros Hv z r s'. subst s'.
  destruct (PR_routeLead_measured cfg w locations s Hv) as [Hc _].
  cbv zeta in Hc. rewrite Hc. fold z. fold r.
  destruct (PR_measure_cache w (ProductionRouter.cache s) z locations
              (ProductionRouter.scored w s)) as [I1 [_ [I3 I4]]];
    [reflexivity |].
  cbv zeta in I1, I3, I4. fold r in I1, I3, I4.
  split; [exact I1 | split; [exact I3 | exact I4]].
Qed.

(** X11.  The cache of the production router after a call.  A call whose
    lead fails validation leaves the cache as it is.  After every other
    call the cache holds all it held before, unchanged; it holds a
    distance for every location of the list; every entry it has gained
    is filed under the key of one of these locations; and for a location
    whose distance the cache held before the call, the call used the
    cached distance. *)
Theorem production_cache_after_call (cfg : Config) (w : World)
  (locations : list Location.t) (s : ProductionRouter.State) :
  let z := zip_of (ProductionRouter.lead s) in
  let s' := snd (ProductionRouter.routeLead cfg w locations s) in
  (ProductionRouter.validateLead (ProductionRouter.lead s) = false ->
   ProductionRouter.cache s' = ProductionRouter.cache s)
  /\
  (ProductionRouter.validateLead (ProductionRouter.lead s) = true ->
   ProductionRouter.cache s ⊆ ProductionRouter.cache s'
   /\ (forall loc, In loc locations ->
         is_cached (ProductionRouter.cache s') z loc = true)
   /\ (forall k, is_Some (ProductionRouter.cache s' !! k) ->
         is_Some (ProductionRouter.cache s !! k)
         \/ exists loc, In loc locations
                        /\ k = ProductionRouter.cacheKey z loc)
   /\ (forall c d,
         In c (ProductionRouter.inRangeCandidates cfg w locations s) ->
         ProductionRouter.cache s
           !! ProductionRouter.cacheKey z (location (located c)) = Some d ->
         candidate_distance c = d)).
Proof.
  cbv zeta. split; intros Hv.
  - rewrite (PR_routeLead_invalid cfg w locations s Hv). reflexivity.
  - destruct (PR_routeLead_cache cfg w locations s Hv) as [I1 [I3 I4]].
    destruct (PR_routeLead_measured cfg w locations s Hv) as [_ [_ Hin]].
    cbv zeta in I1, I3, I4, Hin.
    set (z := zip_of (ProductionRouter.lead s)) in *.
    set (r := mapM (ProductionRouter.withDistance w (ProductionRouter.cache s) z)
                locations (ProductionRouter.scored w s)) in *.
    split; [exact I1 |]. split; [| split].
    + intros loc Hloc. unfold is_cached.
      destruct (I3 loc Hloc) as [d ->]. reflexivity.
    + intros k [d Hk]. destruct (I4 k d Hk) as [Hold | [x [Hx [Hkx _]]]].
      * left. exists d. exact Hold.
      * right. exists (location x). split; [| exact Hkx].
        apply (List.in_map location) in Hx. subst r.
        rewrite (mapM_section _ location) in Hx
          by (intros; apply PR_withDistance_location).
        exact Hx.
    + intros c d Hcin Hd.
      pose proof (PR_measure_cached w (ProductionRouter.cache s) z locations
                    (ProductionRouter.scored w s)) as Hall.
      rewrite List.Forall_forall in Hall.
      apply (Hall (located c) (Hin c Hcin) d Hd).
Qed.

Lemma production_cache_after_call_witness :
  let s := Example.production_start Example.lead_001 in
  let locations := [Example.loc_002; Example.loc_005] in
  let z := zip_of (ProductionRouter.lead s) in
  let s' :=
    snd (ProductionRouter.routeLead CONFIG Example.morning locations s) in
  ProductionRouter.cache s ⊆ ProductionRouter.cache s'
  /\ (forall loc, In loc locations ->
        is_cached (ProductionRouter.cache s') z loc = true).
Proof.
  intros s locations z s'.
  destruct (proj2 (production_cache_after_call CONFIG Example.morning
                     locations s) eq_refl) as [H1 [H2 _]].
  split; [exact H1 | exact H2].
Defined.

(** The counters after a call. *)
Lemma PR_routeLead_counters (cfg : Config) (w : World)
  (locations : list Location.t) (s : ProductionRouter.State) :
  let z := zip_of (ProductionRouter.lead s) in
  let m := ProductionRouter.metrics s in
  let result := fst (ProductionRouter.routeLead cfg w locations s) in
  let m' :=
    ProductionRouter.metrics
      (snd (ProductionRouter.routeLead cfg w locations s)) in
  ProductionRouter.apiCalls m' = S (ProductionRouter.apiCalls m)
  /\ ProductionRouter.errors m' = ProductionRouter.errors m
  /\ ProductionRouter.successfulRoutes m'
     = (ProductionRouter.successfulRoutes m
        + if succeeded result then 1 else 0)%nat
  /\ ProductionRouter.cacheHits m'
     = (ProductionRouter.cacheHits m
        + if ProductionRouter.validateLead (ProductionRouter.lead s)
          then List.length
                 (List.filter (is_cached (ProductionRouter.cache s) z)
                    locations)
          else 0)%nat.
Proof.
  cbv zeta.
  destruct (ProductionRouter.validateLead (ProductionRouter.lead s)) eqn:Hv.
  - destruct (PR_routeLead_measured cfg w locations s Hv) as [_ [Hm _]].
    cbv zeta in Hm. rewrite Hm.
    destruct (PR_measure_metrics w (ProductionRouter.cache s)
                (zip_of (ProductionRouter.lead s)) locations
                (ProductionRouter.scored w s)) as [M1 [M2 [M3 M4]]].
    cbv zeta in M1, M2, M3, M4.
    change (ProductionRouter.metrics (ProductionRouter.scored w s))
      with (ProductionRouter.count_apiCall (ProductionRouter.metrics s))
      in M1, M2, M3, M4.
    cbn [ProductionRouter.count_apiCall ProductionRouter.apiCalls
         ProductionRouter.cacheHits ProductionRouter.errors
         ProductionRouter.successfulRoutes] in M1, M2, M3, M4.
    destruct (succeeded _);
      cbn [ProductionRouter.count_successfulRoute ProductionRouter.apiCalls
           ProductionRouter.cacheHits ProductionRouter.errors
           ProductionRouter.successfulRoutes];
      rewrite ?M1, ?M2, ?M3, ?M4; repeat split; lia.
  - rewrite (PR_routeLead_invalid cfg w locations s Hv). cbn.
    repeat split; lia.
Qed.

(** X12.  The counters of the production router after a call, for every
    lead.  [apiCalls] has grown by one; [errors] is as before;
    [successfulRoutes] has grown by one if the call succeeded and is as
    before otherwise; [cacheHits] has grown by the number of locations
    of the list whose distance the cache held when the call began, if
    the lead is valid, and is as before otherwise. *)
Theorem production_counters_after_call (cfg : Config) (w : World)
  (locations : list Location.t) (s : ProductionRouter.State) :
  let z := zip_of (ProductionRouter.lead s) in
  let m := ProductionRouter.metrics s in
  let result := fst (ProductionRouter.routeLead cfg w locations s) in
  let m' :=
    ProductionRouter.metrics
      (snd (ProductionRouter.routeLead cfg w locations s)) in
  ProductionRouter.apiCalls m' = S (ProductionRouter.apiCalls m)
  /\ ProductionRouter.errors m' = ProductionRouter.errors m
  /\ ProductionRouter.successfulRoutes m'
     = (ProductionRouter.successfulRoutes m
        + if succeeded result then 1 else 0)%nat
  /\ ProductionRouter.cacheHits m'
     = (ProductionRouter.cacheHits m
        + if ProductionRouter.validateLead (ProductionRouter.lead s)
          then List.length
                 (List.filter (is_cached (ProductionRouter.cache s) z)
                    locations)
          else 0)%nat.
Proof. apply PR_routeLead_counters. Qed.

(** ** Locations out of reach *)

Section OutOfReach.
Context (cfg : Config) (w : World).

Lemma all_at_sentinel_none_within (measured : list Located) :
  ZIP_RADIUS_MILES cfg < 999 ->
  Forall (fun x => distance x = JS.of_Z 999) measured ->
  List.filter (within (ZIP_RADIUS_MILES cfg)) measured = [].
Proof.
  intros Hr Hall. induction Hall as [| x l Hx _ IH]; [reflexivity |].
  cbn [List.filter]. rewrite (sentinel_out_of_radius cfg x Hr Hx). exact IH.
Qed.

Lemma RT_out_of_reach (locations : list Location.t) (s : RouterTest.State) :
  ZIP_RADIUS_MILES cfg < 999 ->
  Forall (fun x => distance x = JS.of_Z 999)
    (fst (mapM (RouterTest.withDistance w (zip_of (RouterTest.lead s)))
            locations (RouterTest.scored w s))) ->
  RouterTest.inRangeCandidates cfg w locations s = [].
Proof.
  intros Hr Hall. unfold RouterTest.inRangeCandidates.
  unfold zip_of in Hall.
  destruct (Lead.zip (RouterTest.lead s)) as [[| c z] |]; try reflexivity.
  unfold RouterTest.gatherCandidates. rewrite bind_run.
  rewrite RT_getNearestLocations_run. cbn [fst snd].
  rewrite (all_at_sentinel_none_within _ Hr Hall). reflexivity.
Qed.

Lemma PR_out_of_reach (locations : list Location.t)
  (s : ProductionRouter.State) :
  ZIP_RADIUS_MILES cfg < 999 ->
  Forall (fun x => distance x = JS.of_Z 999)
    (fst (mapM (ProductionRouter.withDistance w (ProductionRouter.cache s)
                  (zip_of (ProductionRouter.lead s)))
            locations (ProductionRouter.scored w s))) ->
  ProductionRouter.inRangeCandidates cfg w locations s = [].
Proof.
  intros Hr Hall.
  destruct (ProductionRouter.validateLead (ProductionRouter.lead s)) eqn:Hv;
    [| apply PR_inRangeCandidates_invalid, Hv].
  rewrite (PR_inRangeCandidates_valid cfg w locations s Hv). cbv zeta.
  rewrite PR_getNearestLocationsReal_run. cbn [fst snd].
  change (ProductionRouter.cache (ProductionRouter.scored w s))
    with (ProductionRouter.cache s).
  rewrite (all_at_sentinel_none_within _ Hr Hall). reflexivity.
Qed.

Lemma RT_no_candidate_out_of_range (locations : list Location.t)
  (s : RouterTest.State) :
  JS.truthy (Lead.zip (RouterTest.lead s)) = true -> locations <> [] ->
  RouterTest.inRangeCandidates cfg w locations s = [] ->
  RouterTest.failure_code (fst (RouterTest.routeLead cfg w locations s))
  = Some "OUT_OF_RANGE".
Proof.
  intros Hv Hl HC.
  pose proof (RT_decision cfg w locations s) as D. cbv zeta in D.
  rewrite HC in D.
  destruct (fst (RouterTest.routeLead cfg w locations s))
    as [code e a l | fb r h l | sel r h d t l].
  - destruct D as [[_ [Hv' _]] | [[_ [_ [Hl' _]]] | [[-> _]
                  | [_ [_ [_ [HC' _]]]]]]]; try congruence. reflexivity.
  - destruct D as [_ [_ [HC' _]]]. congruence.
  - destruct D as [_ [_ [HC' _]]]. congruence.
Qed.

Lemma PR_no_candidate_out_of_range (locations : list Location.t)
  (s : ProductionRouter.State) :
  ProductionRouter.validateLead (ProductionRouter.lead s) = true ->
  ProductionRouter.inRangeCandidates cfg w locations s = [] ->
  ProductionRouter.failure_code
    (fst (ProductionRouter.routeLead cfg w locations s))
  = Some "OUT_OF_RANGE".
Proof.
  intros Hv HC.
  pose proof (PR_decision cfg w locations s) as D. cbv zeta in D.
  rewrite HC in D.
  destruct (fst (ProductionRouter.routeLead cfg w locations s))
    as [code e | sel d r h k].
  - destruct D as [[_ [Hv' _]] | [[-> _] | [_ [_ [HC' _]]]]];
      try congruence. reflexivity.
  - destruct D as [_ [HC' _]]. congruence.
Qed.

(** With the zip of the lead unresolved, every measurement comes back
    as the sentinel. *)
Lemma RT_unresolved_lead_measured (leadZip : string)
  (locations : list Location.t) (s : RouterTest.State) :
  (forall i, zippopotam w i leadZip = None) ->
  Forall (fun x => distance x = JS.of_Z 999)
    (fst (mapM (RouterTest.withDistance w leadZip) locations s)).
Proof.
  intros Hnone. apply mapM_Forall. intros loc s'.
  unfold RouterTest.withDistance. rewrite bind_run.
  cbn [ret fst location distance].
  apply RT_sentinel. left. apply Hnone.
Qed.

Lemma PR_unresolved_lead_measured (cache0 : gmap string JS.number)
  (leadZip : string) (locations : list Location.t)
  (s : ProductionRouter.State) :
  (forall i, zippopotam w i leadZip = None) ->
  Forall (fun x =>
            cache0 !! ProductionRouter.cacheKey leadZip (location x) = None ->
            distance x = JS.of_Z 999)
    (fst (mapM (ProductionRouter.withDistance w cache0 leadZip) locations s)).
Proof.
  intros Hnone. apply mapM_Forall. intros loc s'.
  rewrite PR_withDistance_location. intros Hmiss.
  unfold ProductionRouter.withDistance. rewrite Hmiss. rewrite !bind_run.
  cbn [ret fst distance].
  apply PR_sentinel. left. apply Hnone.
Qed.

Lemma PR_measured_locations (cache0 : gmap string JS.number) (z : string)
  (locations : list Location.t) (s : ProductionRouter.State) (x : Located) :
  In x (fst (mapM (ProductionRouter.withDistance w cache0 z) locations s)) ->
  In (location x) locations.
Proof.
  intros Hx. apply (List.in_map location) in Hx.
  rewrite (mapM_section _ location) in Hx
    by (intros; apply PR_withDistance_location).
  exact Hx.
Qed.

End OutOfReach.

Lemma not_cached_lookup (cache0 : gmap string JS.number) (z : string)
  (loc : Location.t) :
  is_cached cache0 z loc = false ->
  cache0 !! ProductionRouter.cacheKey z loc = None.
Proof.
  unfold is_cached.
  destruct (cache0 !! ProductionRouter.cacheKey z loc);
    [discriminate | reflexivity].
Qed.

(** X13.  A lead whose own zip the geocoding service does not resolve is
    out of range of every location, whenever the radius is below the
    sentinel of 999 miles: routerTest answers OUT_OF_RANGE for every
    non-empty location list, and production-router answers OUT_OF_RANGE
    whenever its cache holds no distance for the locations. *)
Theorem unresolved_lead_zip_is_out_of_range (cfg : Config) (w : World)
  (locations : list Location.t) :
  ZIP_RADIUS_MILES cfg < 999 ->
  (forall s : RouterTest.State,
     JS.truthy (Lead.zip (RouterTest.lead s)) = true ->
     locations <> [] ->
     (forall i, zippopotam w i (zip_of (RouterTest.lead s)) = None) ->
     RouterTest.failure_code (fst (RouterTest.routeLead cfg w locations s))
     = Some "OUT_OF_RANGE")
  /\
  (forall s : ProductionRouter.State,
     ProductionRouter.validateLead (ProductionRouter.lead s) = true ->
     (forall i, zippopotam w i (zip_of (ProductionRouter.lead s)) = None) ->
     (forall loc, In loc locations ->
        is_cached (ProductionRouter.cache s)
          (zip_of (ProductionRouter.lead s)) loc = false) ->
     ProductionRouter.failure_code
       (fst (ProductionRouter.routeLead cfg w locations s))
     = Some "OUT_OF_RANGE").
Proof.
  intros Hr. split.
  - intros s Hv Hl Hnone.
    apply RT_no_candidate_out_of_range; [exact Hv | exact Hl |].
    apply RT_out_of_reach; [exact Hr |].
    apply RT_unresolved_lead_measured, Hnone.
  - intros s Hv Hnone Hmiss.
    apply PR_no_candidate_out_of_range; [exact Hv |].
    apply PR_out_of_reach; [exact Hr |].
    set (z := zip_of (ProductionRouter.lead s)) in *.
    pose proof (PR_unresolved_lead_measured w (ProductionRouter.cache s) z
                  locations (ProductionRouter.scored w s) Hnone) as Hall.
    rewrite List.Forall_forall in Hall |- *.
    intros x Hx. apply (Hall x Hx).
    apply not_cached_lookup, Hmiss.
    apply (PR_measured_locations w _ _ _ _ _ Hx).
Qed.

Lemma unresolved_lead_zip_is_out_of_range_witness :
  RouterTest.failure_code
    (fst (RouterTest.routeLead CONFIG Example.next_morning_offline
            Example.testLocations (Example.test_start Example.lead_001)))
  = Some "OUT_OF_RANGE"
  /\ ProductionRouter.failure_code
       (fst (ProductionRouter.routeLead CONFIG Example.next_morning_offline
               Example.testLocations
               (Example.production_start Example.lead_001)))
     = Some "OUT_OF_RANGE".
Proof.
  assert (Hr : ZIP_RADIUS_MILES CONFIG < 999) by reflexivity.
  destruct (unresolved_lead_zip_is_out_of_range CONFIG
              Example.next_morning_offline Example.testLocations Hr)
    as [Hrt Hpr].
  split.
  - apply Hrt; [reflexivity | discriminate | reflexivity].
  - apply Hpr; [reflexivity | reflexivity | reflexivity].
Defined.

(** X14.  A second call is served from the cache.  Let a first call of
    production-router with a valid lead have measured a list of
    locations.  Then a later call for a valid lead with the same zip
    over the same locations, on any router whose cache still holds what
    the first call left, in any world and under any configuration, makes
    no request to the geocoding service: its effects are the write of
    the score, the capacity requests and the log record; and it leaves
    the cache as it found it. *)
Theorem repeated_call_is_served_from_cache (cfg cfg2 : Config) (w w2 : World)
  (locations : list Location.t) (s s2 : ProductionRouter.State) :
  ProductionRouter.validateLead (ProductionRouter.lead s) = true ->
  ProductionRouter.validateLead (ProductionRouter.lead s2) = true ->
  zip_of (ProductionRouter.lead s2) = zip_of (ProductionRouter.lead s) ->
  ProductionRouter.cache (snd (ProductionRouter.routeLead cfg w locations s))
    ⊆ ProductionRouter.cache s2 ->
  let result2 := fst (ProductionRouter.routeLead cfg2 w2 locations s2) in
  let s2' := snd (ProductionRouter.routeLead cfg2 w2 locations s2) in
  ProductionRouter.cache s2' = ProductionRouter.cache s2
  /\ exists outcome,
       ProductionRouter.trace s2'
       = ProductionRouter.trace s2
         ++ Write_finalScore
              (ProductionRouter.calculateLeadScore w2
                 (ProductionRouter.lead s2))
            :: capacity_requests cfg2
                 (ProductionRouter.inRangeCandidates cfg2 w2 locations s2)
         ++ [Log outcome
               (option_map candidate_id
                  (ProductionRouter.routed_location result2))].
Proof.
  intros Hv Hv2 Hzip Hsub result2 s2'. subst result2 s2'.
  destruct (PR_routeLead_cache cfg w locations s Hv) as [_ [Hall _]].
  cbv zeta in Hall.
  set (z := zip_of (ProductionRouter.lead s)) in *.
  assert (Hcached : forall loc, In loc locations ->
            is_cached (ProductionRouter.cache s2) z loc = true).
  { intros loc Hloc. unfold is_cached.
    destruct (Hall loc Hloc) as [d Hd].
    rewrite (lookup_weaken _ _ _ _ Hd Hsub). reflexivity. }
  assert (Hnone : uncached (ProductionRouter.cache s2) z locations = []).
  { unfold uncached. clear -Hcached.
    induction locations as [| loc l IH]; [reflexivity |].
    cbn [List.filter]. rewrite (Hcached loc) by (left; reflexivity).
    cbn [negb]. apply IH. intros loc' Hloc'. apply Hcached. right. exact Hloc'. }
  split.
  - destruct (PR_routeLead_measured cfg2 w2 locations s2 Hv2) as [Hc _].
    cbv zeta in Hc. rewrite Hc, Hzip. fold z.
    assert (G : forall l s1,
              (forall loc, In loc l ->
                 is_cached (ProductionRouter.cache s2) z loc = true) ->
              ProductionRouter.cache
                (snd (mapM (ProductionRouter.withDistance w2
                              (ProductionRouter.cache s2) z) l s1))
              = ProductionRouter.cache s1).
    { induction l as [| loc l IH]; intros s1 Hl; [reflexivity |].
      rewrite mapM_cons. cbn [snd]. rewrite IH
        by (intros loc' Hloc'; apply Hl; right; exact Hloc').
      pose proof (PR_withDistance_cache w2 (ProductionRouter.cache s2) z loc s1)
        as Hw.
      cbv zeta in Hw. rewrite Hw, (Hl loc) by (left; reflexivity).
      reflexivity. }
    rewrite (G locations (ProductionRouter.scored w2 s2) Hcached).
    reflexivity.
  - destruct (PR_routeLead_trace cfg2 w2 locations s2 Hv2) as [outcome Ht].
    cbv zeta in Ht. rewrite Hzip in Ht. fold z in Ht. rewrite Hnone in Ht.
    exists outcome. exact Ht.
Qed.

Lemma repeated_call_is_served_from_cache_witness :
  let locations := [Example.loc_002; Example.loc_005] in
  let s := Example.production_start Example.lead_001 in
  let s2 :=
    next_lead Example.lead_negative
      (snd (ProductionRouter.routeLead CONFIG Example.morning locations s)) in
  Lead.zip Example.lead_negative = Lead.zip Example.lead_001
  /\ ProductionRouter.cache
       (snd (ProductionRouter.routeLead CONFIG Example.next_morning_offline
               locations s2))
     = ProductionRouter.cache s2.
Proof.
  intros locations s s2. split; [reflexivity |].
  apply (repeated_call_is_served_from_cache CONFIG CONFIG Example.morning
           Example.next_morning_offline locations s s2);
    reflexivity.
Defined.
(** X15.  A failure of the geocoding service is cached.  Let a first
    call of production-router, with a valid lead whose zip the service
    did not resolve, have measured locations the cache held no distance
    for.  Then a later call for a valid lead with the same zip over the
    same locations, on any router whose cache still holds what the first
    call left, answers OUT_OF_RANGE in every world, also one in which
    the service resolves every zip, under every configuration whose
    radius is below 999 miles. *)
Theorem geocoding_failure_is_cached (cfg cfg2 : Config) (w w2 : World)
  (locations : list Location.t) (s s2 : ProductionRouter.State) :
  ProductionRouter.validateLead (ProductionRouter.lead s) = true ->
  (forall i, zippopotam w i (zip_of (ProductionRouter.lead s)) = None) ->
  (forall loc, In loc locations ->
     is_cached (ProductionRouter.cache s)
       (zip_of (ProductionRouter.lead s)) loc = false) ->
  ProductionRouter.validateLead (ProductionRouter.lead s2) = true ->
  zip_of (ProductionRouter.lead s2) = zip_of (ProductionRouter.lead s) ->
  ProductionRouter.cache (snd (ProductionRouter.routeLead cfg w locations s))
    ⊆ ProductionRouter.cache s2 ->
  ZIP_RADIUS_MILES cfg2 < 999 ->
  ProductionRouter.failure_code
    (fst (ProductionRouter.routeLead cfg2 w2 locations s2))
  = Some "OUT_OF_RANGE".
Proof.
  intros Hv Hnone Hmiss Hv2 Hzip Hsub Hr.
  destruct (PR_routeLead_cache cfg w locations s Hv) as [_ [Hall Hnew]].
  cbv zeta in Hall, Hnew.
  set (z := zip_of (ProductionRouter.lead s)) in *.
  assert (H999 : forall loc, In loc locations ->
            ProductionRouter.cache s2 !! ProductionRouter.cacheKey z loc
            = Some (JS.of_Z 999)).
  { intros loc Hloc. destruct (Hall loc Hloc) as [d Hd].
    apply (lookup_weaken _ _ _ _ Hd) in Hsub as Hd2. rewrite Hd2. f_equal.
    destruct (Hnew _ d Hd) as [Hold | [x [Hx [_ Hdx]]]].
    - rewrite (not_cached_lookup _ _ _ (Hmiss loc Hloc)) in Hold.
      discriminate Hold.
    - rewrite <- Hdx.
      pose proof (PR_unresolved_lead_measured w (ProductionRouter.cache s) z
                    locations (ProductionRouter.scored w s) Hnone) as Hm.
      rewrite List.Forall_forall in Hm. apply (Hm x Hx).
      apply not_cached_lookup, Hmiss.
      apply (PR_measured_locations w _ _ _ _ _ Hx). }
  apply PR_no_candidate_out_of_range; [exact Hv2 |].
  apply PR_out_of_reach; [exact Hr |].
  rewrite Hzip. fold z.
  pose proof (PR_measure_cached w2 (ProductionRouter.cache s2) z locations
                (ProductionRouter.scored w2 s2)) as Hm2.
  rewrite List.Forall_forall in Hm2 |- *.
  intros x Hx. apply (Hm2 x Hx). apply H999.
  apply (PR_measured_locations w2 _ _ _ _ _ Hx).
Qed.

Lemma geocoding_failure_is_cached_witness :
  let locations := [Example.loc_001; Example.loc_002] in
  let s := Example.production_start Example.lead_001 in
  let s2 :=
    next_lead Example.lead_002
      (snd (ProductionRouter.routeLead CONFIG Example.next_morning_offline
              locations s)) in
  ProductionRouter.routed_location
    (fst (ProductionRouter.routeLead CONFIG Example.morning locations
            (Example.production_start Example.lead_002))) <> None
  /\ ProductionRouter.failure_code
       (fst (ProductionRouter.routeLead CONFIG Example.morning locations s2))
     = Some "OUT_OF_RANGE".
Proof.
  intros locations s s2. split; [discriminate |].
  apply (geocoding_failure_is_cached CONFIG CONFIG
           Example.next_morning_offline Example.morning locations s s2);
    reflexivity.
Defined.

(** ** production-router.js: a router serving several leads *)

Lemma PR_routeEach_counters (cfg : Config) (w : World)
  (calls : list (Lead.t * list Location.t)) (s : ProductionRouter.State) :
  let r := PR_routeEach cfg w calls s in
  let m := ProductionRouter.metrics s in
  let m' := ProductionRouter.metrics (snd r) in
  List.length (fst r) = List.length calls
  /\ ProductionRouter.apiCalls m'
     = (ProductionRouter.apiCalls m + List.length calls)%nat
  /\ ProductionRouter.successfulRoutes m'
     = (ProductionRouter.successfulRoutes m
        + List.length (List.filter succeeded (fst r)))%nat
  /\ ProductionRouter.errors m' = ProductionRouter.errors m.
Proof.
  cbv zeta. revert s. induction calls as [| [lead locations] rest IH];
    intros s.
  - cbn. repeat split; lia.
  - cbn [PR_routeEach fst snd List.length List.filter].
    set (r1 := ProductionRouter.routeLead cfg w locations (next_lead lead s)).
    destruct (IH (snd r1)) as [I0 [I1 [I2 I3]]].
    destruct (PR_routeLead_counters cfg w locations (next_lead lead s))
      as [C1 [C2 [C3 _]]].
    cbv zeta in C1, C2, C3. fold r1 in C1, C2, C3.
    change (ProductionRouter.metrics (next_lead lead s))
      with (ProductionRouter.metrics s) in C1, C2, C3.
    rewrite I0, I1, I2, I3, C1, C2, C3.
    destruct (succeeded (fst r1)); cbn [List.length]; repeat split; lia.
Qed.

Lemma divide_fraction (a n : nat) :
  (a <= S n)%nat ->
  exists q, divide a (S n) = Rate q /\ (0 <= q <= 1)%Q.
Proof.
  intros Hle. eexists. split; [reflexivity |].
  unfold Qle. cbn [Qnum Qden].
  rewrite <- Pos.of_nat_succ, Zpos_P_of_succ_nat. lia.
Qed.

Lemma filter_length_le {A : Type} (f : A -> bool) (l : list A) :
  (List.length (List.filter f l) <= List.length l)%nat.
Proof.
  induction l as [| x l IH]; [apply le_n |].
  cbn [List.filter]. destruct (f x); cbn [List.length]; lia.
Qed.

(** X16.  [getMetrics] on a router that has served leads.  For a router
    whose counters were zero, as the constructor leaves them, and any
    sequence of calls of [routeLead]: [apiCalls] is the number of calls,
    [successfulRoutes] the number of calls that succeeded, [errors] is
    still zero, and [successRate] is the quotient of the two; so with no
    call yet both rates are [NaN], and after at least one call
    [successRate] is a number between 0 and 1. *)
Theorem success_rate_is_a_fraction (cfg : Config) (w : World)
  (calls : list (Lead.t * list Location.t)) (s : ProductionRouter.State) :
  ProductionRouter.metrics s = no_metrics ->
  let r := PR_routeEach cfg w calls s in
  let report := getMetrics (snd r) in
  let successes := List.length (List.filter succeeded (fst r)) in
  ProductionRouter.apiCalls (counters report) = List.length calls
  /\ ProductionRouter.successfulRoutes (counters report) = successes
  /\ ProductionRouter.errors (counters report) = O
  /\ successRate report = divide successes (List.length calls)
  /\ (calls = [] ->
      successRate report = NaN_rate /\ cacheHitRate report = NaN_rate)
  /\ (calls <> [] ->
      exists q, successRate report = Rate q /\ (0 <= q <= 1)%Q).
Proof.
  intros Hzero r report successes. subst report successes.
  destruct (PR_routeEach_counters cfg w calls s) as [I0 [I1 [I2 I3]]].
  cbv zeta in I0, I1, I2, I3. fold r in I0, I1, I2, I3.
  rewrite Hzero in I1, I2, I3.
  cbn [no_metrics ProductionRouter.apiCalls ProductionRouter.successfulRoutes
       ProductionRouter.errors Nat.add] in I1, I2, I3.
  unfold getMetrics. cbn [counters successRate cacheHitRate].
  rewrite I1, I2, I3.
  split; [reflexivity |]. split; [reflexivity |]. split; [reflexivity |].
  split; [reflexivity |]. split.
  - intros ->. subst r. cbn. rewrite Hzero. split; reflexivity.
  - intros Hne.
    assert (Hle : (List.length (List.filter succeeded (fst r))
                   <= List.length calls)%nat)
      by (rewrite <- I0; apply filter_length_le).
    clearbody r. destruct calls as [| c rest]; [congruence |].
    cbn [List.length] in Hle |- *. apply divide_fraction, Hle.
Qed.

Lemma success_rate_is_a_fraction_witness :
  let calls :=
    [(Example.lead_001, Example.testLocations);
     (Example.lead_004, Example.testLocations);
     (Example.lead_002, Example.overCapacityLocations)] in
  let r :=
    PR_routeEach CONFIG Example.morning calls
      (Example.production_start Example.lead_001) in
  List.map succeeded (fst r) = [true; false; true]
  /\ exists q, successRate (getMetrics (snd r)) = Rate q /\ (0 <= q <= 1)%Q.
Proof.
  intros calls r. split; [reflexivity |].
  apply (success_rate_is_a_fraction CONFIG Example.morning calls
           (Example.production_start Example.lead_001) eq_refl).
  discriminate.
Defined.

(** ** production-router.js: the confidence of a routing *)

Lemma confidence_sum (selected : Candidate) (allAvailable : list Candidate) :
  ProductionRouter.calculateRoutingConfidence selected allAvailable
  = JS.of_Z
      (10 * ((if JS.lt (candidate_distance selected) (JS.of_Z 10)
              then 3 else 1)
             + (if 10 <? Capacity.availableSlots (capacity selected)
                then 3 else 1)
             + (if String.eqb (Location.status (location (located selected)))
                     "active"
                then 2 else 0)
             + (if (1 <? List.length allAvailable)%nat then 2 else 1))).
Proof.
  unfold ProductionRouter.calculateRoutingConfidence.
  destruct (JS.lt (candidate_distance selected) (JS.of_Z 10));
    destruct (10 <? Capacity.availableSlots (capacity selected));
    destruct (String.eqb (Location.status (location (located selected)))
                "active");
    destruct (1 <? List.length allAvailable)%nat;
    reflexivity.
Qed.

Lemma confidence_is_tens (selected : Candidate) (allAvailable : list Candidate) :
  exists k,
    ProductionRouter.calculateRoutingConfidence selected allAvailable
    = JS.of_Z (10 * k)
    /\ 3 <= k <= 10
    /\ (Location.status (location (located selected)) = "active" -> 5 <= k)
    /\ (k = 10 <->
        JS.lt (candidate_distance selected) (JS.of_Z 10) = true
        /\ 10 < Capacity.availableSlots (capacity selected)
        /\ Location.status (location (located selected)) = "active"
        /\ (1 < List.length allAvailable)%nat).
Proof.
  rewrite confidence_sum. eexists. split; [reflexivity |].
  rewrite <- Z.ltb_lt, <- String.eqb_eq, <- Nat.ltb_lt.
  destruct (JS.lt (candidate_distance selected) (JS.of_Z 10));
    destruct (10 <? Capacity.availableSlots (capacity selected));
    destruct (String.eqb (Location.status (location (located selected)))
                "active");
    destruct (1 <? List.length allAvailable)%nat;
    (split; [lia |]); (split; [intros; (lia || discriminate) |]);
    split; intros; try lia; try (repeat split; reflexivity);
    exfalso; intuition discriminate.
Qed.

(** X17.  The confidence production-router reports.
    [calculateRoutingConfidence] is always a whole multiple of ten
    between 30 and 100; it is 100 exactly when the selected location is
    nearer than 10 miles, has more than 10 available slots, has status
    active, and there are at least two in-range candidates.  The
    confidence of a successful call of [routeLead] is at least 50. *)
Theorem routing_confidence_range :
  (forall (selected : Candidate) (allAvailable : list Candidate),
     exists k,
       ProductionRouter.calculateRoutingConfidence selected allAvailable
       = JS.of_Z (10 * k)
       /\ 3 <= k <= 10
       /\ (k = 10 <->
           JS.lt (candidate_distance selected) (JS.of_Z 10) = true
           /\ 10 < Capacity.availableSlots (capacity selected)
           /\ Location.status (location (located selected)) = "active"
           /\ (1 < List.length allAvailable)%nat))
  /\
  (forall (cfg : Config) (w : World) (locations : list Location.t)
          (s : ProductionRouter.State) sel d reason high confidence,
     fst (ProductionRouter.routeLead cfg w locations s)
     = ProductionRouter.Success sel d reason high confidence ->
     exists k, confidence = JS.of_Z (10 * k) /\ 5 <= k <= 10).
Proof.
  split.
  - intros selected allAvailable.
    destruct (confidence_is_tens selected allAvailable)
      as [k [Hk [Hr [_ Hfull]]]].
    exists k. split; [exact Hk | split; [exact Hr | exact Hfull]].
  - intros cfg w locations s sel d reason high confidence Hres.
    pose proof (PR_decision cfg w locations s) as D. cbv zeta in D.
    rewrite Hres in D.
    destruct D as [_ [_ [HA [_ [_ [_ ->]]]]]].
    apply List.filter_In in HA. destruct HA as [_ HA].
    apply andb_prop in HA. destruct HA as [_ Hactive].
    apply String.eqb_eq in Hactive.
    destruct (confidence_is_tens sel
                (ProductionRouter.inRangeCandidates cfg w locations s))
      as [k [Hk [Hr [Hfive _]]]].
    exists k. split; [exact Hk |]. specialize (Hfive Hactive). lia.
Qed.

Lemma routing_confidence_range_witness :
  exists sel d reason high,
    fst (ProductionRouter.routeLead CONFIG Example.morning
           Example.testLocations
           (Example.production_start Example.lead_001))
    = ProductionRouter.Success sel d reason high (JS.of_Z 100)
    /\ exists k, JS.of_Z 100 = JS.of_Z (10 * k) /\ 5 <= k <= 10.
Proof.
  do 4 eexists. split; [vm_compute; reflexivity |].
  eapply (proj2 routing_confidence_range CONFIG Example.morning
           Example.testLocations
           (Example.production_start Example.lead_001)).
  vm_compute. reflexivity.
Defined.

(** ** The reason and the priority a result carries *)

Lemma RT_routed_fields (cfg : Config) (w : World)
  (locations : list Location.t) (s : RouterTest.State)
  (sel : Candidate) (reason : string) (high : bool) (d : JS.number)
  (t : string) (lead' : Lead.t) :
  fst (RouterTest.routeLead cfg w locations s)
  = RouterTest.Routed sel reason high d t lead' ->
  high = JS.ge (RouterTest.calculateLeadScore w (RouterTest.lead s))
           (JS.of_Z (HIGH_SCORE_THRESHOLD cfg))
  /\ d = candidate_distance sel
  /\ reason
     = (if high then "High-value lead routed to closest available location"
        else if RouterTest.is_low_traffic sel
             then "Standard lead routed to low-traffic location"
             else "Standard lead routed to closest available location").
Proof.
  destruct (JS.truthy (Lead.zip (RouterTest.lead s))) eqn:Hzip;
    [| rewrite (RT_routeLead_missing_zip cfg w locations s Hzip);
       discriminate].
  rewrite (RT_routeLead_valid cfg w locations s Hzip). cbv zeta.
  unfold RT_summary.
  change (finalScore_ge (RouterTest.lead (RouterTest.scored w s))
            (HIGH_SCORE_THRESHOLD cfg))
    with (JS.ge (RouterTest.calculateLeadScore w (RouterTest.lead s))
            (JS.of_Z (HIGH_SCORE_THRESHOLD cfg))).
  destruct locations as [| l0 ls]; [discriminate |].
  destruct (List.map located _) as [| n0 ns]; [discriminate |].
  destruct (List.filter RouterTest.is_available _) as [| a0 avail] eqn:EA.
  - destruct (if FALLBACK_ENABLED cfg then _ else None); discriminate.
  - destruct (JS.ge _ _) eqn:Ehigh.
    + cbn [fst snd]. intros E. injection E as <- <- <- <- _ _.
      repeat split.
    + destruct (List.find RouterTest.is_low_traffic (a0 :: avail))
        as [lt |] eqn:Ef; cbn [fst snd]; intros E;
        injection E as <- <- <- <- _ _.
      * apply List.find_some in Ef. destruct Ef as [_ ->]. repeat split.
      * assert (Hno : RouterTest.is_low_traffic a0 = false)
          by (apply (List.find_none _ _ Ef); left; reflexivity).
        rewrite Hno. repeat split.
Qed.

Lemma RT_waitlisted_fields (cfg : Config) (w : World)
  (locations : list Location.t) (s : RouterTest.State)
  (fb : Candidate) (reason : string) (high : bool) (lead' : Lead.t) :
  fst (RouterTest.routeLead cfg w locations s)
  = RouterTest.Waitlisted fb reason high lead' ->
  high = JS.ge (RouterTest.calculateLeadScore w (RouterTest.lead s))
           (JS.of_Z (HIGH_SCORE_THRESHOLD cfg)).
Proof.
  destruct (JS.truthy (Lead.zip (RouterTest.lead s))) eqn:Hzip;
    [| rewrite (RT_routeLead_missing_zip cfg w locations s Hzip);
       discriminate].
  rewrite (RT_routeLead_valid cfg w locations s Hzip). cbv zeta.
  unfold RT_summary.
  change (finalScore_ge (RouterTest.lead (RouterTest.scored w s))
            (HIGH_SCORE_THRESHOLD cfg))
    with (JS.ge (RouterTest.calculateLeadScore w (RouterTest.lead s))
            (JS.of_Z (HIGH_SCORE_THRESHOLD cfg))).
  destruct locations as [| l0 ls]; [discriminate |].
  destruct (List.map located _) as [| n0 ns]; [discriminate |].
  destruct (List.filter RouterTest.is_available _) as [| a0 avail] eqn:EA.
  - destruct (if FALLBACK_ENABLED cfg then _ else None); [| discriminate].
    intros E. injection E as _ _ <- _. reflexivity.
  - discriminate.
Qed.

(** X18.  The priority flag, the distance and the reason of a result
    agree with the score and with the location named.  In both routers
    [isHighPriority] of a routed result is true exactly when the score
    computed for the lead is at least the high-score threshold (so it is
    false for a score that is not a number), and [estimatedDistance] is
    the distance measured for the location named.  The reason is the
    high-value text exactly for a high-priority result; it is the
    low-traffic text exactly when the result is not high-priority and
    the location named is tagged low-traffic; otherwise it is the text
    for the closest (routerTest) or nearest (production-router)
    available location.  The flag of a waitlisted result of routerTest
    is computed the same way. *)
Theorem reason_and_priority_match_routing (cfg : Config) (w : World)
  (locations : list Location.t) :
  (forall (s : RouterTest.State) sel reason high d t lead',
     fst (RouterTest.routeLead cfg w locations s)
     = RouterTest.Routed sel reason high d t lead' ->
     high = JS.ge (RouterTest.calculateLeadScore w (RouterTest.lead s))
              (JS.of_Z (HIGH_SCORE_THRESHOLD cfg))
     /\ d = candidate_distance sel
     /\ (reason = "High-value lead routed to closest available location"
         <-> high = true)
     /\ (reason = "Standard lead routed to low-traffic location"
         <-> high = false /\ candidate_priority sel = "low-traffic")
     /\ (reason = "Standard lead routed to closest available location"
         <-> high = false /\ candidate_priority sel <> "low-traffic"))
  /\
  (forall (s : RouterTest.State) fb reason high lead',
     fst (RouterTest.routeLead cfg w locations s)
     = RouterTest.Waitlisted fb reason high lead' ->
     high = JS.ge (RouterTest.calculateLeadScore w (RouterTest.lead s))
              (JS.of_Z (HIGH_SCORE_THRESHOLD cfg)))
  /\
  (forall (s : ProductionRouter.State) sel d reason high confidence,
     fst (ProductionRouter.routeLead cfg w locations s)
     = ProductionRouter.Success sel d reason high confidence ->
     high = JS.ge (ProductionRouter.calculateLeadScore w
                     (ProductionRouter.lead s))
              (JS.of_Z (HIGH_SCORE_THRESHOLD cfg))
     /\ d = candidate_distance sel
     /\ (reason = "High-value lead routed to optimal location"
         <-> high = true)
     /\ (reason = "Standard lead routed to low-traffic location"
         <-> high = false /\ candidate_priority sel = "low-traffic")
     /\ (reason = "Lead routed to nearest available location"
         <-> high = false /\ candidate_priority sel <> "low-traffic")).
Proof.
  split; [| split].
  - intros s sel reason high d t lead' Hres.
    destruct (RT_routed_fields cfg w locations s _ _ _ _ _ _ Hres)
      as [Hhigh [Hd Hreason]].
    split; [exact Hhigh |]. split; [exact Hd |].
    clear Hhigh. rewrite Hreason. unfold RouterTest.is_low_traffic.
    rewrite <- (String.eqb_eq (candidate_priority sel)).
    destruct high;
      destruct (String.eqb (candidate_priority sel) "low-traffic");
      repeat split; intros; try discriminate; try reflexivity;
      try congruence; try (exfalso; intuition congruence).
  - intros s fb reason high lead' Hres.
    apply (RT_waitlisted_fields cfg w locations s _ _ _ _ Hres).
  - intros s sel d reason high confidence Hres.
    pose proof (PR_decision cfg w locations s) as D. cbv zeta in D.
    rewrite Hres in D. destruct D as [_ [_ [_ [Hd [Hreason [Hhigh _]]]]]].
    split; [exact Hhigh |]. split; [exact Hd |].
    rewrite Hreason. unfold ProductionRouter.getRoutingReason.
    change (finalScore_ge (ProductionRouter.lead (ProductionRouter.scored w s))
              (HIGH_SCORE_THRESHOLD cfg))
      with (JS.ge (ProductionRouter.calculateLeadScore w
                     (ProductionRouter.lead s))
              (JS.of_Z (HIGH_SCORE_THRESHOLD cfg))).
    rewrite <- Hhigh. clear Hhigh. unfold ProductionRouter.is_low_traffic.
    rewrite <- (String.eqb_eq (candidate_priority sel)).
    destruct high;
      destruct (String.eqb (candidate_priority sel) "low-traffic");
      repeat split; intros; try discriminate; try reflexivity;
      try congruence; try (exfalso; intuition congruence).
Qed.

Lemma reason_and_priority_match_routing_witness :
  exists sel d t lead',
    fst (RouterTest.routeLead CONFIG Example.night Example.testLocations
           (Example.test_start Example.lead_002))
    = RouterTest.Routed sel
        "Standard lead routed to low-traffic location" false d t lead'
    /\ candidate_priority sel = "low-traffic".
Proof.
  do 4 eexists. split; [reflexivity |].
  destruct (reason_and_priority_match_routing CONFIG Example.night
              Example.testLocations) as [Hrt _].
  destruct (Hrt (Example.test_start Example.lead_002) _ _ _ _ _ _ eq_refl)
    as [_ [_ [_ [Hlow _]]]].
  apply Hlow. reflexivity.
Defined.


(** ** routerTest.js: capacity without a capacity store *)

Lemma RT_withCapacity_simulated (cfg : Config) (w : World) (loc : Located)
  (s : RouterTest.State) :
  JSONBIN_API_KEY cfg = "" ->
  capacity (fst (RouterTest.withCapacity cfg w loc s))
  = RouterTest.simulatedCapacity cfg (location loc).
Proof.
  intros Hkey. unfold RouterTest.withCapacity, RouterTest.checkLocationCapacity.
  rewrite !bind_run, Hkey. reflexivity.
Qed.

Lemma RT_candidates_simulated (cfg : Config) (w : World)
  (locations : list Location.t) (s : RouterTest.State) :
  JSONBIN_API_KEY cfg = "" ->
  Forall (fun c => capacity c
                   = RouterTest.simulatedCapacity cfg (location (located c)))
    (RouterTest.inRangeCandidates cfg w locations s).
Proof.
  intros Hkey. unfold RouterTest.inRangeCandidates.
  destruct (Lead.zip (RouterTest.lead s)) as [[| c z] |]; try constructor.
  unfold RouterTest.gatherCandidates. rewrite bind_run.
  apply mapM_Forall. intros loc s'.
  rewrite RT_withCapacity_located.
  apply RT_withCapacity_simulated, Hkey.
Qed.

(** X19.  routerTest without a JSONBin key.  The capacity of every
    in-range candidate is then computed from the location itself: the
    available slots are the daily maximum less the leads of the day
    (none, if the location carries no count), the location has capacity
    exactly when at least one slot is available, and it is operational
    exactly when its status is active.  So a location routed to has
    status active and at least one slot, and a location waitlisted at
    has status active and no slot. *)
Theorem routerTest_capacity_without_store (cfg : Config) (w : World)
  (locations : list Location.t) (s : RouterTest.State) :
  JSONBIN_API_KEY cfg = "" ->
  let result := fst (RouterTest.routeLead cfg w locations s) in
  let slots c := Capacity.availableSlots (capacity c) in
  let status c := Location.status (location (located c)) in
  (forall c, In c (RouterTest.inRangeCandidates cfg w locations s) ->
     slots c
     = MAX_DAILY_LEADS_PER_LOCATION cfg
       - match Location.dailyLeadCount (location (located c)) with
         | Some n => n
         | None => 0
         end
     /\ (Capacity.hasCapacity (capacity c) = true <-> 1 <= slots c)
     /\ (Capacity.isOperational (capacity c) = true <-> status c = "active"))
  /\ (forall c, RouterTest.routed_location result = Some c ->
        status c = "active" /\ 1 <= slots c)
  /\ (forall c, RouterTest.waitlist_location result = Some c ->
        status c = "active" /\ slots c <= 0).
Proof.
  intros Hkey result slots status.
  assert (Hsim : forall c,
            In c (RouterTest.inRangeCandidates cfg w locations s) ->
            slots c
            = MAX_DAILY_LEADS_PER_LOCATION cfg
              - match Location.dailyLeadCount (location (located c)) with
                | Some n => n
                | None => 0
                end
            /\ (Capacity.hasCapacity (capacity c) = true <-> 1 <= slots c)
            /\ (Capacity.isOperational (capacity c) = true
                <-> status c = "active")).
  { intros c Hc.
    pose proof (RT_candidates_simulated cfg w locations s Hkey) as Hall.
    rewrite List.Forall_forall in Hall. specialize (Hall c Hc).
    subst slots status. cbv beta. rewrite Hall.
    unfold RouterTest.simulatedCapacity.
    cbn [Capacity.availableSlots Capacity.hasCapacity Capacity.isOperational].
    split; [reflexivity |]. split.
    - rewrite Z.ltb_lt. lia.
    - apply String.eqb_eq. }
  split; [exact Hsim |].
  pose proof (RT_decision cfg w locations s) as D. cbv zeta in D.
  fold result in D.
  split; intros c Hc.
  - destruct result as [code e a l | fb r h l | sel r h d t l];
      try discriminate Hc.
    injection Hc as <-. destruct D as [_ [_ [_ HA]]].
    apply List.filter_In in HA. destruct HA as [Hin HA].
    apply andb_prop in HA. destruct HA as [Hcap Hop].
    destruct (Hsim sel Hin) as [_ [H1 H2]].
    split; [apply H2, Hop | apply H1, Hcap].
  - destruct result as [code e a l | fb r h l | sel r h d t l];
      try discriminate Hc.
    injection Hc as <-. destruct D as [_ [_ [_ [HA [_ Hfb]]]]].
    apply fallback_is_operational in Hfb. destruct Hfb as [Hin Hop].
    destruct (Hsim fb Hin) as [_ [H1 H2]].
    split; [apply H2, Hop |].
    destruct (Z_le_gt_dec (slots fb) 0) as [Hle | Hgt]; [exact Hle |].
    exfalso.
    assert (Hav : In fb (List.filter RouterTest.is_available
                           (RouterTest.inRangeCandidates cfg w locations s))).
    { apply List.filter_In. split; [exact Hin |].
      unfold RouterTest.is_available. rewrite Hop.
      rewrite (proj2 H1) by lia. reflexivity. }
    rewrite HA in Hav. contradiction.
Qed.

Lemma routerTest_capacity_without_store_witness :
  exists c,
    RouterTest.waitlist_location
      (fst (RouterTest.routeLead CONFIG Example.morning
              Example.overCapacityLocations
              (Example.test_start Example.lead_001))) = Some c
    /\ Location.status (location (located c)) = "active"
    /\ Capacity.availableSlots (capacity c) <= 0.
Proof.
  eexists. split; [reflexivity |].
  apply (proj2 (proj2 (routerTest_capacity_without_store CONFIG
                         Example.morning Example.overCapacityLocations
                         (Example.test_start Example.lead_001) eq_refl))).
  reflexivity.
Defined.

(** ** A wider radius *)

Lemma within_wider (r1 r2 : Z) (x : Located) :
  r1 <= r2 -> within r1 x = true -> within r2 x = true.
Proof.
  unfold within, JS.le, JS.of_Z. intros Hr.
  destruct (distance x) as [q |]; [| discriminate].
  rewrite !Qle_bool_iff. intros Hq.
  apply (Qle_trans _ _ _ Hq). rewrite <- Zle_Qle. exact Hr.
Qed.

(** X20.  Widening the radius loses no location and changes no request.
    For two configurations of which the second has the larger radius,
    every location [getNearestLocations] (routerTest) or
    [getNearestLocationsReal] (production-router) returns under the
    first it returns under the second, with the same distance; and the
    state the function leaves, requests made and cache included, is the
    same under both. *)
Theorem wider_radius_keeps_locations (cfg1 cfg2 : Config) (w : World)
  (z : string) (locations : list Location.t) :
  ZIP_RADIUS_MILES cfg1 <= ZIP_RADIUS_MILES cfg2 ->
  (forall (s : RouterTest.State),
     let near1 := RouterTest.getNearestLocations cfg1 w z locations s in
     let near2 := RouterTest.getNearestLocations cfg2 w z locations s in
     (forall x, In x (fst near1) -> In x (fst near2))
     /\ snd near1 = snd near2)
  /\
  (forall (s : ProductionRouter.State),
     let near1 := ProductionRouter.getNearestLocationsReal cfg1 w z locations s in
     let near2 := ProductionRouter.getNearestLocationsReal cfg2 w z locations s in
     (forall x, In x (fst near1) -> In x (fst near2))
     /\ snd near1 = snd near2).
Proof.
  intros Hr. split; intros s near1 near2; subst near1 near2.
  - rewrite !RT_getNearestLocations_run. cbn [fst snd].
    split; [| reflexivity].
    intros x Hx. apply Array_sort_In, List.filter_In in Hx.
    apply Array_sort_In, List.filter_In.
    split; [apply Hx | apply (within_wider _ _ _ Hr), Hx].
  - rewrite !PR_getNearestLocationsReal_run. cbn [fst snd].
    split; [| reflexivity].
    intros x Hx. apply Array_sort_In, List.filter_In in Hx.
    apply Array_sort_In, List.filter_In.
    split; [apply Hx | apply (within_wider _ _ _ Hr), Hx].
Qed.

Lemma wider_radius_keeps_locations_witness :
  let near radius :=
    fst (RouterTest.getNearestLocations (with_radius radius CONFIG)
           Example.morning "90001" Example.testLocations
           (Example.test_start Example.lead_001)) in
  List.length (near 25) = 3%nat
  /\ List.length (near 3000) = 5%nat
  /\ forall x, In x (near 25) -> In x (near 3000).
Proof.
  intros near. split; [reflexivity |]. split; [reflexivity |].
  assert (Hr : ZIP_RADIUS_MILES (with_radius 25 CONFIG)
               <= ZIP_RADIUS_MILES (with_radius 3000 CONFIG))
    by (cbn; lia).
  destruct (wider_radius_keeps_locations (with_radius 25 CONFIG)
              (with_radius 3000 CONFIG) Example.morning "90001"
              Example.testLocations Hr) as [Hrt _].
  apply (Hrt (Example.test_start Example.lead_001)).
Defined.

(** ** A signal of zero, and no signal *)

Lemma score_without_signal_bounds (w : World) (lead : Lead.t) :
  inherited_source lead = false ->
  exists k, RouterTest.calculateLeadScore w (without_signal lead) = JS.of_Z k
            /\ 0 <= k <= 15.
Proof.
  intros Hsrc.
  assert (Hown : forall s, Lead.source (without_signal lead) = Some s ->
                           JS.inherited s = false).
  { intros s Es. unfold inherited_source in Hsrc. cbn in Es.
    rewrite Es in Hsrc. exact Hsrc. }
  unfold RouterTest.calculateLeadScore, Scoring.score_with_default.
  rewrite (multiplier_of_source _ Hown).
  cbn [without_signal Lead.leadScore Scoring.or_default JS.of_Z JS.mul].
  set (m := Spec.source_multiplier _).
  assert (Hz : (inject_Z 0 * m == 0)%Q) by ring.
  change (Scoring.complete_profile (without_signal lead))
    with (Scoring.complete_profile lead).
  assert (Hround : forall b : Q, (0 <= b <= 15)%Q ->
            forall x, (x == b)%Q ->
            exists k,
              JS.Math_min (JS.Num (inject_Z 100)) (JS.Math_round (JS.Num x))
              = JS.Num (inject_Z k) /\ 0 <= k <= 15).
  { intros b Hb x Hx. unfold JS.Math_round, JS.Math_min, JS.of_Z.
    assert (Hlo : 0 <= Qfloor (x + (1 # 2))).
    { change 0 with (Qfloor (0 + (1 # 2))). apply Qfloor_resp_le. lra. }
    assert (Hhi : Qfloor (x + (1 # 2)) <= 15).
    { change 15 with (Qfloor (15 + (1 # 2))). apply Qfloor_resp_le. lra. }
    destruct (Qle_bool (inject_Z 100) (inject_Z (Qfloor (x + (1 # 2)))))
      eqn:E.
    - apply Qle_bool_iff in E. rewrite <- Zle_Qle in E. lia.
    - eexists. split; [reflexivity | lia]. }
  destruct (Scoring.complete_profile lead),
    (Scoring.business_hours (getHours w)); cbn [JS.add JS.of_Z].
  - apply (Hround 15%Q); [lra |]. 
    change (inject_Z 10) with 10%Q. change (inject_Z 5) with 5%Q.
    rewrite Hz. reflexivity.
  - apply (Hround 10%Q); [lra |].
    change (inject_Z 10) with 10%Q. rewrite Hz. reflexivity.
  - apply (Hround 5%Q); [lra |].
    change (inject_Z 5) with 5%Q. rewrite Hz. reflexivity.
  - apply (Hround 0%Q); [lra | exact Hz].
Qed.

(** X21.  A raw signal of zero counts as no signal.  In both routers a
    lead whose [leadScore] is 0 scores exactly as the same lead without
    [leadScore], and in production-router as the same lead with signal
    50.  When the source of the lead is not a property name inherited
    from [Object.prototype], that score is, in routerTest, made of the
    bonuses alone, a whole number from 0 to 15, and, in
    production-router, at least the score of the same lead with any
    signal from 1 to 50. *)
Theorem zero_signal_scores_as_missing (w : World) (lead : Lead.t) :
  RouterTest.calculateLeadScore w (with_signal 0 lead)
  = RouterTest.calculateLeadScore w (without_signal lead)
  /\ ProductionRouter.calculateLeadScore w (with_signal 0 lead)
     = ProductionRouter.calculateLeadScore w (without_signal lead)
  /\ ProductionRouter.calculateLeadScore w (with_signal 0 lead)
     = ProductionRouter.calculateLeadScore w (with_signal 50 lead)
  /\ (inherited_source lead = false ->
      (exists k,
         RouterTest.calculateLeadScore w (with_signal 0 lead) = JS.of_Z k
         /\ 0 <= k <= 15)
      /\ forall n, 1 <= n <= 50 ->
           JS.le (ProductionRouter.calculateLeadScore w (with_signal n lead))
                 (ProductionRouter.calculateLeadScore w (with_signal 0 lead))
           = true).
Proof.
  assert (E50 : ProductionRouter.calculateLeadScore w (with_signal 0 lead)
                = ProductionRouter.calculateLeadScore w (with_signal 50 lead))
    by reflexivity.
  split; [reflexivity |]. split; [reflexivity |]. split; [exact E50 |].
  intros Hsrc. split.
  - change (RouterTest.calculateLeadScore w (with_signal 0 lead))
      with (RouterTest.calculateLeadScore w (without_signal lead)).
    apply score_without_signal_bounds, Hsrc.
  - intros n Hn. rewrite E50.
    apply (score_monotone 50 w lead n 50 Hsrc); lia.
Qed.

Lemma zero_signal_scores_as_missing_witness :
  ProductionRouter.calculateLeadScore Example.night
    (with_signal 0 Example.lead_002) = JS.of_Z 50
  /\ ProductionRouter.calculateLeadScore Example.night
       (with_signal 30 Example.lead_002) = JS.of_Z 30
  /\ JS.le (ProductionRouter.calculateLeadScore Example.night
              (with_signal 30 Example.lead_002))
           (ProductionRouter.calculateLeadScore Example.night
              (with_signal 0 Example.lead_002)) = true.
Proof.
  split; [reflexivity |]. split; [reflexivity |].
  destruct (zero_signal_scores_as_missing Example.night Example.lead_002)
    as [_ [_ [_ H]]].
  apply (proj2 (H eq_refl) 30). lia.
Defined.

(** ** routerTest.js: one call after the other *)

Lemma mapM_ignores_state {S A B : Type} (f : A -> M S B) :
  (forall a s s', fst (f a s) = fst (f a s')) ->
  forall l s s', fst (mapM f l s) = fst (mapM f l s').
Proof.
  intros Hf. induction l as [| x l IH]; intros s s'; [reflexivity |].
  rewrite !mapM_cons. cbn [fst].
  rewrite (Hf x s s'), (IH _ (snd (f x s'))). reflexivity.
Qed.

Section Independence.
Context (cfg : Config) (w : World).
Hypothesis Hw : stateless w.

Lemma RT_withDistance_ignores_state (z : string) (loc : Location.t)
  (s s' : RouterTest.State) :
  fst (RouterTest.withDistance w z loc s)
  = fst (RouterTest.withDistance w z loc s').
Proof.
  destruct Hw as [Hzip _].
  unfold RouterTest.withDistance, RouterTest.calculateDistanceReal,
    RouterTest.getZipCoordinates.
  rewrite !bind_run. cbn [get ret fst snd RouterTest.emit modify].
  rewrite (Hzip _ O z). rewrite (Hzip _ O (Location.zipCode loc)).
  symmetry.
  rewrite (Hzip _ O z). rewrite (Hzip _ O (Location.zipCode loc)).
  reflexivity.
Qed.

Lemma RT_withCapacity_ignores_state (loc : Located)
  (s s' : RouterTest.State) :
  fst (RouterTest.withCapacity cfg w loc s)
  = fst (RouterTest.withCapacity cfg w loc s').
Proof.
  destruct Hw as [_ Hcap].
  unfold RouterTest.withCapacity, RouterTest.checkLocationCapacity.
  rewrite !bind_run.
  destruct (String.eqb (JSONBIN_API_KEY cfg) ""); [reflexivity |].
  unfold RouterTest.getLocationCapacityFromAPI. rewrite !bind_run.
  cbn [get ret fst snd RouterTest.emit modify].
  rewrite (Hcap _ O). symmetry. rewrite (Hcap _ O).
  destruct (jsonbin_capacity w 0 (Location.id (location loc))); reflexivity.
Qed.

Lemma RT_candidates_ignore_history (locations : list Location.t)
  (s s' : RouterTest.State) :
  RouterTest.lead s = RouterTest.lead s' ->
  RouterTest.inRangeCandidates cfg w locations s
  = RouterTest.inRangeCandidates cfg w locations s'.
Proof.
  intros Hlead. unfold RouterTest.inRangeCandidates. rewrite <- Hlead.
  destruct (Lead.zip (RouterTest.lead s)) as [[| c z] |]; try reflexivity.
  unfold RouterTest.gatherCandidates. rewrite !bind_run.
  rewrite !RT_getNearestLocations_run. cbn [fst snd].
  rewrite (mapM_ignores_state _ (RT_withDistance_ignores_state (String c z))
             locations (RouterTest.scored w s) (RouterTest.scored w s')).
  apply (mapM_ignores_state _ RT_withCapacity_ignores_state).
Qed.

Lemma RT_result_ignores_history (locations : list Location.t)
  (s s' : RouterTest.State) :
  RouterTest.lead s = RouterTest.lead s' ->
  fst (RouterTest.routeLead cfg w locations s)
  = fst (RouterTest.routeLead cfg w locations s').
Proof.
  intros Hlead.
  destruct (JS.truthy (Lead.zip (RouterTest.lead s))) eqn:Hzip.
  - rewrite (RT_routeLead_valid cfg w locations s Hzip).
    rewrite Hlead in Hzip.
    rewrite (RT_routeLead_valid cfg w locations s' Hzip). cbv zeta.
    rewrite (RT_candidates_ignore_history locations s s' Hlead).
    unfold RouterTest.scored. cbn [RouterTest.assign_finalScore modify snd
                                   RouterTest.lead].
    rewrite Hlead. reflexivity.
  - rewrite (RT_routeLead_missing_zip cfg w locations s Hzip).
    rewrite Hlead in Hzip.
    rewrite (RT_routeLead_missing_zip cfg w locations s' Hzip). reflexivity.
Qed.

End Independence.

(** X22.  With services that give the same answer whenever they are
    asked, the calls of routerTest do not influence one another: the
    result of a call depends on the lead, the locations and the
    configuration, not on what was routed before; so the results of a
    run of leads one after the other are the results each lead gets on
    its own. *)
Theorem routerTest_calls_are_independent (cfg : Config) (w : World)
  (locations : list Location.t) :
  stateless w ->
  (forall s s' : RouterTest.State,
     RouterTest.lead s = RouterTest.lead s' ->
     fst (RouterTest.routeLead cfg w locations s)
     = fst (RouterTest.routeLead cfg w locations s'))
  /\
  (forall (leads : list Lead.t) (history : list Effect),
     RouterTest.routeEach cfg w locations leads history
     = List.map
         (fun lead =>
            fst (RouterTest.routeLead cfg w locations
                   {| RouterTest.lead := lead; RouterTest.trace := [] |}))
         leads).
Proof.
  intros Hw. split.
  - intros s s'. apply RT_result_ignores_history, Hw.
  - induction leads as [| l rest IH]; intros history; [reflexivity |].
    cbn [RouterTest.routeEach List.map]. rewrite IH. f_equal.
    apply RT_result_ignores_history; [exact Hw | reflexivity].
Qed.

Lemma routerTest_calls_are_independent_witness :
  stateless Example.morning
  /\ RouterTest.routeEach CONFIG Example.morning Example.testLocations
       [Example.lead_001; Example.lead_002] []
     = List.map
         (fun lead =>
            fst (RouterTest.routeLead CONFIG Example.morning
                   Example.testLocations
                   {| RouterTest.lead := lead; RouterTest.trace := [] |}))
         [Example.lead_001; Example.lead_002].
Proof.
  assert (Hw : stateless Example.morning) by (split; reflexivity).
  split; [exact Hw |].
  apply (proj2 (routerTest_calls_are_independent CONFIG Example.morning
                  Example.testLocations Hw)).
Defined.

(** ** routerTest.js: the mock distance *)

Section MockLookup.
Context {N : Type} `{Haversine.Arith N}.

Lemma mock_lookup_listed (zip : string) :
  Mock.listed zip = true -> exists c : Haversine.coords N, Mock.lookup zip = Mock.Own c.
Proof.
  unfold Mock.listed, Mock.lookup. cbn [existsb Mock.zipCoords List.find fst snd].
  rewrite !(String.eqb_sym zip).
  destruct (String.eqb "90001" zip); [eauto |].
  destruct (String.eqb "90210" zip); [eauto |].
  destruct (String.eqb "10001" zip); [eauto | discriminate].
Qed.

Lemma mock_lookup_unlisted (zip : string) :
  Mock.listed zip = false ->
  Mock.lookup (N := N) zip
  = if JS.inherited zip then Mock.Inherited else Mock.Missing.
Proof.
  unfold Mock.listed, Mock.lookup. cbn [existsb Mock.zipCoords List.find fst snd].
  rewrite !(String.eqb_sym zip).
  destruct (String.eqb "90001" zip); [discriminate |].
  destruct (String.eqb "90210" zip); [discriminate |].
  destruct (String.eqb "10001" zip); [discriminate | reflexivity].
Qed.

Lemma mock_inherited_unlisted (zip : string) :
  JS.inherited zip = true -> Mock.listed zip = false.
Proof.
  unfold JS.inherited. intros Hin.
  apply List.existsb_exists in Hin. destruct Hin as [k [Hk E]].
  apply String.eqb_eq in E. subst k. cbn in Hk.
  repeat (destruct Hk as [<- | Hk]; [reflexivity |]). contradiction.
Qed.

End MockLookup.

(** X23.  The mock [calculateDistance] of routerTest.js.  Over any
    arithmetic that obeys the sign laws it is symmetric in its two zip
    codes.  A zip code that the table neither lists nor inherits gives
    the sentinel 999, whatever the other zip code.  A zip code that
    names a property the table inherits gives, with a listed or an
    inherited zip code, a result that is not a number.  Two listed zip
    codes give, over the reals, a distance between 0 and half the
    circumference of the sphere. *)
Theorem mock_calculateDistance_cases :
  (forall (N : Type) (A : Haversine.Arith N) (L : Haversine.SignLaws N)
          (zip1 zip2 : string),
     Mock.calculateDistance (N := N) zip1 zip2
     = Mock.calculateDistance zip2 zip1)
  /\
  (forall (N : Type) (A : Haversine.Arith N) (zip1 zip2 : string),
     Mock.listed zip1 = false -> JS.inherited zip1 = false ->
     Mock.calculateDistance (N := N) zip1 zip2
     = Mock.Miles (Haversine.lit 999)
     /\ Mock.calculateDistance (N := N) zip2 zip1
        = Mock.Miles (Haversine.lit 999))
  /\
  (forall (N : Type) (A : Haversine.Arith N) (zip1 zip2 : string),
     JS.inherited zip1 = true ->
     Mock.listed zip2 = true \/ JS.inherited zip2 = true ->
     Mock.calculateDistance (N := N) zip1 zip2 = Mock.NotANumber
     /\ Mock.calculateDistance (N := N) zip2 zip1 = Mock.NotANumber)
  /\
  (forall zip1 zip2 : string,
     Mock.listed zip1 = true -> Mock.listed zip2 = true ->
     exists d : R,
       Mock.calculateDistance zip1 zip2 = Mock.Miles d
       /\ (0 <= d <= 3959 * PI)%R).
Proof.
  split; [| split; [| split]].
  - intros N A L zip1 zip2. unfold Mock.calculateDistance.
    destruct (Mock.lookup zip1) as [c1 | |], (Mock.lookup zip2) as [c2 | |];
      try reflexivity.
    cbv zeta. f_equal.
    rewrite (half_angle_square_swap (Haversine.lat c2) (Haversine.lat c1)).
    rewrite (half_angle_swap _ (Haversine.lng c2) (Haversine.lng c1)).
    rewrite (Haversine.mul_sym
               (Haversine.Math_cos
                  (Haversine.div
                     (Haversine.mul (Haversine.lat c1) Haversine.Math_PI)
                     (Haversine.lit 180)))).
    reflexivity.
  - intros N A zip1 zip2 Hl Hi. unfold Mock.calculateDistance.
    rewrite (mock_lookup_unlisted zip1 Hl), Hi.
    split; [reflexivity |].
    destruct (Mock.lookup zip2); reflexivity.
  - intros N A zip1 zip2 Hi H2. unfold Mock.calculateDistance.
    rewrite (mock_lookup_unlisted zip1 (mock_inherited_unlisted zip1 Hi)), Hi.
    destruct H2 as [Hl2 | Hi2].
    + destruct (mock_lookup_listed (N := N) zip2 Hl2) as [c2 ->].
      split; reflexivity.
    + rewrite (mock_lookup_unlisted zip2 (mock_inherited_unlisted zip2 Hi2)),
        Hi2.
      split; reflexivity.
  - intros zip1 zip2 Hl1 Hl2. unfold Mock.calculateDistance.
    destruct (mock_lookup_listed (N := R) zip1 Hl1) as [c1 ->].
    destruct (mock_lookup_listed (N := R) zip2 Hl2) as [c2 ->].
    eexists. split; [reflexivity |].
    cbn.
    set (y := sqrt _). set (x := sqrt _).
    destruct (R_atan2_first_quadrant y x) as [Hlo Hhi];
      [apply sqrt_pos | apply sqrt_pos |].
    set (t := Haversine.R_atan2 y x) in *.
    split; Lra.lra.
Qed.

Lemma mock_calculateDistance_cases_witness :
  Mock.calculateDistance (N := R) "99999" "90001"
  = Mock.Miles (Haversine.lit 999)
  /\ Mock.calculateDistance (N := R) "toString" "90001" = Mock.NotANumber
  /\ exists d : R,
       Mock.calculateDistance "90001" "90210" = Mock.Miles d
       /\ (0 <= d <= 3959 * PI)%R.
Proof.
  destruct mock_calculateDistance_cases as [_ [Hmiss [Hinh Hlisted]]].
  split; [apply (Hmiss R _ "99999" "90001"); reflexivity |].
  split.
  - apply (Hinh R _ "toString" "90001"); [reflexivity | left; reflexivity].
  - apply Hlisted; reflexivity.
Defined.

(** ** production-router.js: the simulated capacity *)

(** X24.  [getSimulatedCapacity] of production-router.js, for any two
    draws of [Math.random], each at least 0 and less than 1: the record
    is operational and shows between 5 and 24 available slots, whether
    or not it says the location has capacity; it has capacity exactly
    when the first draw is above three tenths. *)
Theorem simulated_capacity_range (random1 random2 : Q) :
  (0 <= random1)%Q -> (random1 < 1)%Q ->
  (0 <= random2)%Q -> (random2 < 1)%Q ->
  let c := getSimulatedCapacity random1 random2 in
  Capacity.isOperational c = true
  /\ 5 <= Capacity.availableSlots c <= 24
  /\ (Capacity.hasCapacity c = true <-> (3 # 10 < random1)%Q).
Proof.
  intros H1 H1' H2 H2' c. subst c. unfold getSimulatedCapacity.
  cbn [Capacity.isOperational Capacity.availableSlots Capacity.hasCapacity].
  split; [reflexivity |]. split.
  - assert (Hlo : 0 <= Qfloor (random2 * 20)).
    { change 0 with (Qfloor 0). apply Qfloor_resp_le. lra. }
    assert (Hhi : Qfloor (random2 * 20) < 20).
    { apply Z.lt_nge. intros C. rewrite Zle_Qle in C.
      pose proof (Qfloor_le (random2 * 20)) as Hf.
      change (inject_Z 20) with 20%Q in C. lra. }
    lia.
  - rewrite Bool.negb_true_iff. split; intros H.
    + apply Qnot_le_lt. intros C. apply Qle_bool_iff in C. congruence.
    + apply Bool.not_true_iff_false. intros C. apply Qle_bool_iff in C. lra.
Qed.

Lemma simulated_capacity_range_witness :
  let c := getSimulatedCapacity (1 # 10) (99 # 100) in
  Capacity.hasCapacity c = false
  /\ Capacity.availableSlots c = 24
  /\ 5 <= Capacity.availableSlots c <= 24.
Proof.
  intros c. split; [reflexivity |]. split; [reflexivity |].
  apply (simulated_capacity_range (1 # 10) (99 # 100));
    vm_compute; discriminate || reflexivity.
Defined.

(** ** Capacity is read, never reserved: calls one after the other *)

Section NoReservationProduction.
Context (cfg : Config) (w : World).

(** One active location in range, and a capacity store whose record for
    it says it has room: whatever was routed before, the call of
    production-router routes to it, and the cache keeps its distance. *)
Lemma PR_routes_to_open_location (loc : Location.t) (z : string)
  (c1 c2 : Coordinates) (data : Capacity.t) (s : ProductionRouter.State) :
  JSONBIN_API_KEY cfg <> "" ->
  Location.status loc = "active" ->
  (forall i, jsonbin_capacity w i (Location.id loc) = Some data) ->
  Capacity.hasCapacity data = true ->
  (forall i, zippopotam w i z = Some c1) ->
  (forall i, zippopotam w i (Location.zipCode loc) = Some c2) ->
  JS.le (haversine w c1 c2) (JS.of_Z (ZIP_RADIUS_MILES cfg)) = true ->
  ProductionRouter.validateLead (ProductionRouter.lead s) = true ->
  Lead.zip (ProductionRouter.lead s) = Some z ->
  (forall d, ProductionRouter.cache s !! ProductionRouter.cacheKey z loc
             = Some d -> d = haversine w c1 c2) ->
  let r := ProductionRouter.routeLead cfg w [loc] s in
  (exists sel,
     ProductionRouter.routed_location (fst r) = Some sel
     /\ location (located sel) = loc)
  /\ (forall d, ProductionRouter.cache (snd r)
                  !! ProductionRouter.cacheKey z loc = Some d ->
                d = haversine w c1 c2).
Proof.
  intros Hkey Hstatus Hstore Hroom Hgeo1 Hgeo2 Hnear Hv Hzip Hinv r.
  subst r.
  set (s0 := ProductionRouter.scored w s).
  set (x := {| location := loc; distance := haversine w c1 c2 |}).
  assert (Emeasure :
            mapM (ProductionRouter.withDistance w (ProductionRouter.cache s) z)
              [loc] s0
            = ([x],
               snd (ProductionRouter.withDistance w (ProductionRouter.cache s)
                      z loc s0))).
  { rewrite mapM_cons. cbn [fst snd mapM ret]. f_equal. f_equal.
    unfold ProductionRouter.withDistance.
    destruct (ProductionRouter.cache s !! ProductionRouter.cacheKey z loc)
      as [d |] eqn:Ec.
    - rewrite (Hinv d eq_refl). rewrite !bind_run. reflexivity.
    - unfold ProductionRouter.calculateRealDistance,
        ProductionRouter.getZipCoordinates.
      rewrite !bind_run. cbn [get ret fst snd]. rewrite Hgeo1, Hgeo2.
      reflexivity. }
  split.
  - rewrite (PR_routeLead_outcome cfg w [loc] s z Hzip Hv). cbv zeta.
    fold s0.
    assert (Enear : fst (ProductionRouter.getNearestLocationsReal cfg w z
                           [loc] s0) = [x]).
    { rewrite PR_getNearestLocationsReal_run. cbn [fst].
      change (ProductionRouter.cache s0) with (ProductionRouter.cache s).
      rewrite Emeasure. cbn [fst List.filter]. unfold within.
      cbn [distance x]. rewrite Hnear. reflexivity. }
    rewrite Enear.
    set (s1 := snd (ProductionRouter.getNearestLocationsReal cfg w z [loc] s0)).
    unfold ProductionRouter.checkLocationCapacities.
    rewrite mapM_cons. cbn [fst mapM ret].
    assert (Ecap : fst (ProductionRouter.withCapacity cfg w x s1)
                   = {| located := x; capacity := data |}).
    { unfold ProductionRouter.withCapacity,
        ProductionRouter.getLocationCapacityReal.
      apply String.eqb_neq in Hkey. rewrite Hkey.
      rewrite !bind_run. cbn [get ret fst snd location x].
      rewrite Hstore. reflexivity. }
    rewrite Ecap.
    unfold PR_summary, ProductionRouter.selectOptimalLocation.
    cbn [List.filter].
    assert (Eav : ProductionRouter.is_available
                    {| located := x; capacity := data |} = true).
    { unfold ProductionRouter.is_available. cbn. rewrite Hroom, Hstatus.
      reflexivity. }
    rewrite Eav.
    destruct (finalScore_ge (ProductionRouter.lead s0)
                (HIGH_SCORE_THRESHOLD cfg)).
    + eexists. split; reflexivity.
    + cbn [List.find].
      destruct (ProductionRouter.is_low_traffic _);
        eexists; split; reflexivity.
  - intros d Hd.
    assert (Hz : zip_of (ProductionRouter.lead s) = z)
      by (unfold zip_of; rewrite Hzip; reflexivity).
    pose proof (PR_routeLead_measured cfg w [loc] s Hv) as Hm.
    cbv zeta in Hm. destruct Hm as [Hc _]. rewrite Hz in Hc. fold s0 in Hc.
    rewrite Hc, Emeasure in Hd. cbn [snd] in Hd.
    pose proof (PR_withDistance_cache w (ProductionRouter.cache s) z loc s0)
      as Hw.
    cbv zeta in Hw. rewrite Hw in Hd.
    assert (Efst : fst (ProductionRouter.withDistance w
                          (ProductionRouter.cache s) z loc s0) = x).
    { pose proof (f_equal fst Emeasure) as E. rewrite mapM_cons in E.
      cbn [fst mapM ret] in E. injection E as E. exact E. }
    rewrite Efst in Hd. unfold is_cached in Hd.
    change (ProductionRouter.cache s0) with (ProductionRouter.cache s) in Hd.
    destruct (ProductionRouter.cache s !! ProductionRouter.cacheKey z loc)
      as [d0 |] eqn:Ec.
    + rewrite Ec in Hd. apply Hinv. exact Hd.
    + rewrite lookup_insert_eq in Hd. injection Hd as <-. reflexivity.
Qed.

Lemma PR_routeEach_open_location (loc : Location.t) (z : string)
  (c1 c2 : Coordinates) (data : Capacity.t) (leads : list Lead.t) :
  JSONBIN_API_KEY cfg <> "" ->
  Location.status loc = "active" ->
  (forall i, jsonbin_capacity w i (Location.id loc) = Some data) ->
  Capacity.hasCapacity data = true ->
  (forall i, zippopotam w i z = Some c1) ->
  (forall i, zippopotam w i (Location.zipCode loc) = Some c2) ->
  JS.le (haversine w c1 c2) (JS.of_Z (ZIP_RADIUS_MILES cfg)) = true ->
  Forall (fun l => ProductionRouter.validateLead l = true
                   /\ Lead.zip l = Some z) leads ->
  forall s : ProductionRouter.State,
    (forall d, ProductionRouter.cache s !! ProductionRouter.cacheKey z loc
               = Some d -> d = haversine w c1 c2) ->
    Forall (fun result =>
              exists sel, ProductionRouter.routed_location result = Some sel
                          /\ location (located sel) = loc)
      (fst (PR_routeEach cfg w (List.map (fun l => (l, [loc])) leads) s)).
Proof.
  intros Hkey Hstatus Hstore Hroom Hgeo1 Hgeo2 Hnear Hleads.
  induction Hleads as [| l leads [Hv Hzip] _ IH]; intros s Hinv.
  - constructor.
  - cbn [List.map PR_routeEach fst snd].
    destruct (PR_routes_to_open_location loc z c1 c2 data (next_lead l s)
                Hkey Hstatus Hstore Hroom Hgeo1 Hgeo2 Hnear Hv Hzip Hinv)
      as [Hsel Hinv'].
    constructor; [exact Hsel | apply IH; exact Hinv'].
Qed.

End NoReservationProduction.

(** C7, as amended.  The engine makes no reservation.  A routing call, of
    routerTest or of production-router, reads capacity and writes no
    capacity record; so the calls of any number of leads, made one after
    the other against a single active in-range location, are all routed
    to that location, however few slots it has left: in routerTest with
    no capacity store configured, when the daily count of the location
    is below the maximum; in production-router with a capacity store
    configured, when the record the store holds for the location says it
    has capacity. *)
Theorem routing_never_reserves (cfg : Config) (w : World) :
  (forall (locations : list Location.t) (s : RouterTest.State),
     exists t,
       RouterTest.trace (snd (RouterTest.routeLead cfg w locations s))
       = RouterTest.trace s ++ t
       /\ Forall reads_only t)
  /\ (forall (locations : list Location.t) (s : ProductionRouter.State),
        exists t,
          ProductionRouter.trace
            (snd (ProductionRouter.routeLead cfg w locations s))
          = ProductionRouter.trace s ++ t
          /\ Forall reads_only t)
  /\ (forall (loc : Location.t) (z : string) (c1 c2 : Coordinates) (n : Z)
        (leads : list Lead.t) (history : list Effect),
        JSONBIN_API_KEY cfg = "" ->
        Location.status loc = "active" ->
        Location.dailyLeadCount loc = Some n ->
        n < MAX_DAILY_LEADS_PER_LOCATION cfg ->
        (forall i, zippopotam w i z = Some c1) ->
        (forall i, zippopotam w i (Location.zipCode loc) = Some c2) ->
        JS.le (haversine w c1 c2) (JS.of_Z (ZIP_RADIUS_MILES cfg)) = true ->
        z <> "" ->
        Forall (fun l => Lead.zip l = Some z) leads ->
        Forall (fun result =>
                  exists sel, RouterTest.routed_location result = Some sel
                              /\ location (located sel) = loc)
          (RouterTest.routeEach cfg w [loc] leads history))
  /\ (forall (loc : Location.t) (z : string) (c1 c2 : Coordinates)
        (data : Capacity.t) (leads : list Lead.t)
        (s : ProductionRouter.State),
        JSONBIN_API_KEY cfg <> "" ->
        Location.status loc = "active" ->
        (forall i, jsonbin_capacity w i (Location.id loc) = Some data) ->
        Capacity.hasCapacity data = true ->
        (forall i, zippopotam w i z = Some c1) ->
        (forall i, zippopotam w i (Location.zipCode loc) = Some c2) ->
        JS.le (haversine w c1 c2) (JS.of_Z (ZIP_RADIUS_MILES cfg)) = true ->
        Forall (fun l => ProductionRouter.validateLead l = true
                         /\ Lead.zip l = Some z) leads ->
        ProductionRouter.cache s !! ProductionRouter.cacheKey z loc = None ->
        Forall (fun result =>
                  exists sel,
                    ProductionRouter.routed_location result = Some sel
                    /\ location (located sel) = loc)
          (fst (PR_routeEach cfg w (List.map (fun l => (l, [loc])) leads) s))).
Proof.
  split; [apply RT_routeLead_reads_only |
          split; [apply PR_routeLead_reads_only | split]].
  - intros loc z c1 c2 n leads history Hkey Hstatus Hcount Hroom Hgeo1 Hgeo2
      Hnear Hz Hleads.
    revert history.
    induction Hleads as [| l leads Hl Hleads IH]; intros history.
    + constructor.
    + cbn [RouterTest.routeEach]. constructor; [| apply IH].
      apply (RT_routes_to_open_location cfg w loc z c1 c2 n); assumption.
  - intros loc z c1 c2 data leads s Hkey Hstatus Hstore Hroom Hgeo1 Hgeo2
      Hnear Hleads Hmiss.
    apply (PR_routeEach_open_location cfg w loc z c1 c2 data); try assumption.
    intros d Hd. rewrite Hmiss in Hd. discriminate Hd.
Qed.

(** Three leads, one after the other, against the location that has one
    slot left: in routerTest by its daily count, in production-router by
    the record of the capacity store. *)
Lemma routing_never_reserves_witness :
  Capacity.availableSlots
    (RouterTest.simulatedCapacity CONFIG Example.loc_last_slot) = 1
  /\ Forall (fun result =>
               exists sel, RouterTest.routed_location result = Some sel
                           /\ location (located sel) = Example.loc_last_slot)
       (RouterTest.routeEach CONFIG Example.night [Example.loc_last_slot]
          [Example.lead_001; Example.lead_002; Example.lead_negative] [])
  /\ Capacity.availableSlots Example.last_slot = 1
  /\ Forall (fun result =>
               exists sel,
                 ProductionRouter.routed_location result = Some sel
                 /\ location (located sel) = Example.loc_last_slot)
       (fst (PR_routeEach Example.with_key Example.store_with_room
               (List.map (fun l => (l, [Example.loc_last_slot]))
                  [Example.lead_001; Example.lead_002; Example.lead_negative])
               (Example.production_start Example.lead_001))).
Proof.
  split; [reflexivity |].
  split.
  - destruct (routing_never_reserves CONFIG Example.night) as [_ [_ [Hall _]]].
    apply (Hall Example.loc_last_slot "90001" Example.coords_90001
             Example.coords_90001 49);
      try reflexivity; try discriminate.
    repeat constructor.
  - split; [reflexivity |].
    destruct (routing_never_reserves Example.with_key Example.store_with_room)
      as [_ [_ [_ Hall]]].
    apply (Hall Example.loc_last_slot "90001" Example.coords_90001
             Example.coords_90001 Example.last_slot);
      try reflexivity; try discriminate.
    repeat constructor.
Defined.

(** C7 fails as stated, already for calls made one after the other: the
    location has one slot left, two leads are routed in turn, and both
    calls come back routed to it. *)
Lemma two_leads_routed_to_one_slot :
  Capacity.availableSlots
    (RouterTest.simulatedCapacity CONFIG Example.loc_last_slot) = 1
  /\ List.map (fun result =>
                 option_map candidate_id (RouterTest.routed_location result))
       (RouterTest.routeEach CONFIG Example.night [Example.loc_last_slot]
          [Example.lead_001; Example.lead_002] [])
     = [Some "loc_last"; Some "loc_last"].
Proof. split; reflexivity. Qed.
